(** * lldebug remote-debugging transport: [net/remoteengine.cpp]

    A shallow embedding of the command transport of lldebug: the
    [SocketBase] connection with its write queue, the listening
    [ContextSocket], and the [RemoteEngine] facade with its command-id
    counter, its list of commands waiting for a response and its queue
    of received commands.

    Conventions.
    - C++ [int] values are kept in [Z]; the only arithmetic the file does
      on fixed-width integers is on [boost::uint32_t] (the command-id
      counter and the [size_t -> uint32_t] cast) and on the [int]
      parameter of [InitCommandHeader]; both are written with their
      wrap-around.
    - The asio [io_service] is a FIFO of posted handlers; asynchronous
      operations issued on the socket are kept in FIFO lists and are
      completed, oldest first, by explicit events that carry the
      [error_code] (as a [bool]: [true] is an error).
    - A response callback ([boost::function]) is represented by a tag.

    The second part embeds the source view of the front end,
    [lldebug_sourceview.cpp]; its conventions stand at its head. *)

From Stdlib Require Import ZArith List Bool Lia.
From Stdlib Require Strings.Byte.
Import ListNotations.
Local Open Scope Z_scope.

(** ** Fixed-width integers *)

Definition uint32_modulus : Z := 2 ^ 32.

(** Conversion to [boost::uint32_t]. *)
Definition to_uint32 (z : Z) : Z := z mod uint32_modulus.

(** Conversion to a 32-bit two's complement [int]. *)
Definition to_int (z : Z) : Z :=
  (z + 2 ^ 31) mod uint32_modulus - 2 ^ 31.

Definition is_uint32 (z : Z) : Prop := 0 <= z < uint32_modulus.

(** ** Commands ([net/remotecommand.h], as used by remoteengine.cpp) *)

Inductive RemoteCommandType : Type :=
| REMOTECOMMANDTYPE_SUCCESSED
| REMOTECOMMANDTYPE_FAILED
| REMOTECOMMANDTYPE_START_CONNECTION
| REMOTECOMMANDTYPE_END_CONNECTION
| REMOTECOMMANDTYPE_CHANGED_STATE
| REMOTECOMMANDTYPE_UPDATE_SOURCE
| REMOTECOMMANDTYPE_FORCE_UPDATESOURCE
| REMOTECOMMANDTYPE_ADDED_SOURCE
| REMOTECOMMANDTYPE_SAVE_SOURCE
| REMOTECOMMANDTYPE_SET_UPDATECOUNT
| REMOTECOMMANDTYPE_SET_BREAKPOINT
| REMOTECOMMANDTYPE_REMOVE_BREAKPOINT
| REMOTECOMMANDTYPE_CHANGED_BREAKPOINTLIST
| REMOTECOMMANDTYPE_BREAK
| REMOTECOMMANDTYPE_RESUME
| REMOTECOMMANDTYPE_STEPINTO
| REMOTECOMMANDTYPE_STEPOVER
| REMOTECOMMANDTYPE_STEPRETURN
| REMOTECOMMANDTYPE_OUTPUT_LOG
| REMOTECOMMANDTYPE_EVAL
| REMOTECOMMANDTYPE_REQUEST_FIELDSVARLIST
| REMOTECOMMANDTYPE_REQUEST_LOCALVARLIST
| REMOTECOMMANDTYPE_REQUEST_ENVIRONVARLIST
| REMOTECOMMANDTYPE_REQUEST_EVALVARLIST
| REMOTECOMMANDTYPE_REQUEST_GLOBALVARLIST
| REMOTECOMMANDTYPE_REQUEST_REGISTRYVARLIST
| REMOTECOMMANDTYPE_REQUEST_STACKLIST
| REMOTECOMMANDTYPE_VALUE_STRING
| REMOTECOMMANDTYPE_VALUE_VARLIST
| REMOTECOMMANDTYPE_VALUE_BACKTRACELIST.

(** The header that goes first on the wire: [type], [int ctxId],
    [uint32_t commandId], [uint32_t dataSize]. *)
Record RemoteCommandHeader : Type := mkHeader {
  type : RemoteCommandType;
  ctxId : Z;
  commandId : Z;
  dataSize : Z
}.

(** The payload: an opaque byte buffer. *)
Definition RemoteCommandData : Type := list Byte.byte.

Definition GetSize (d : RemoteCommandData) : Z := Z.of_nat (length d).

(** A response callback, identified by a tag. *)
Definition RemoteCommandCallback : Type := nat.

Record RemoteCommand : Type := mkCommand {
  header : RemoteCommandHeader;
  data : RemoteCommandData;
  response : option RemoteCommandCallback
}.

Definition GetType (c : RemoteCommand) : RemoteCommandType := type (header c).
Definition GetCtxId (c : RemoteCommand) : Z := ctxId (header c).
Definition GetCommandId (c : RemoteCommand) : Z := commandId (header c).
Definition GetDataSize (c : RemoteCommand) : Z := dataSize (header c).

Definition SetResponse (c : RemoteCommand) (r : RemoteCommandCallback)
  : RemoteCommand :=
  mkCommand (header c) (data c) (Some r).

(** [RemoteCommand command(header, data)]: no callback attached. *)
Definition RemoteCommand_of (h : RemoteCommandHeader) (d : RemoteCommandData)
  : RemoteCommand :=
  mkCommand h d None.

(** ** The connection: [class SocketBase] *)

(** Handlers handed to the [io_service] with [post]. *)
Inductive Handler : Type :=
| H_doWrite (command : RemoteCommand)
| H_doClose
| H_connected.

(** The buffer of one [boost::asio::async_write] call. *)
Inductive WriteBuffer : Type :=
| HeaderBuffer (h : RemoteCommandHeader)
| DataBuffer (d : RemoteCommandData).

(** One [async_write] call: its buffer and the [deleteCommand] flag bound
    into its [handleWrite] completion. *)
Record AsyncWrite : Type := mkAsyncWrite {
  buffer : WriteBuffer;
  deleteCommand : bool
}.

(** One outstanding [async_read]: the header of the next command, or the
    payload of a command whose header has been read. *)
Inductive AsyncRead : Type :=
| ReadHeader
| ReadData (command : RemoteCommand).

Record SocketBase : Type := mkSocket {
  m_isConnected : bool;
  (** [m_socket] is open; [close()] clears it. *)
  socket_open : bool;
  m_writeCommandQueue : list RemoteCommand;
  (** handlers posted on [GetService()], oldest first *)
  posted : list Handler;
  (** [async_write] calls not yet completed, oldest first *)
  writes_in_flight : list AsyncWrite;
  (** every [async_write] call made so far, oldest first *)
  writes_issued : list AsyncWrite;
  (** [async_read] calls not yet completed, oldest first *)
  reads_in_flight : list AsyncRead;
  (** [async_accept] calls not yet completed ([ContextSocket]) *)
  accepts_in_flight : nat;
  (** [async_connect] calls not yet completed ([FrameSocket]) *)
  connects_in_flight : nat
}.

(** The constructor: [m_isConnected(false)], nothing queued. *)
Definition SocketBase_new : SocketBase :=
  mkSocket false true [] [] [] [] [] 0 0.

Definition set_isConnected (s : SocketBase) (b : bool) : SocketBase :=
  mkSocket b (socket_open s) (m_writeCommandQueue s) (posted s)
    (writes_in_flight s) (writes_issued s) (reads_in_flight s)
    (accepts_in_flight s) (connects_in_flight s).

Definition set_socket_open (s : SocketBase) (b : bool) : SocketBase :=
  mkSocket (m_isConnected s) b (m_writeCommandQueue s) (posted s)
    (writes_in_flight s) (writes_issued s) (reads_in_flight s)
    (accepts_in_flight s) (connects_in_flight s).

Definition set_writeCommandQueue (s : SocketBase) (q : list RemoteCommand)
  : SocketBase :=
  mkSocket (m_isConnected s) (socket_open s) q (posted s)
    (writes_in_flight s) (writes_issued s) (reads_in_flight s)
    (accepts_in_flight s) (connects_in_flight s).

Definition set_posted (s : SocketBase) (l : list Handler) : SocketBase :=
  mkSocket (m_isConnected s) (socket_open s) (m_writeCommandQueue s) l
    (writes_in_flight s) (writes_issued s) (reads_in_flight s)
    (accepts_in_flight s) (connects_in_flight s).

Definition set_writes (s : SocketBase) (fl issued : list AsyncWrite)
  : SocketBase :=
  mkSocket (m_isConnected s) (socket_open s) (m_writeCommandQueue s)
    (posted s) fl issued (reads_in_flight s)
    (accepts_in_flight s) (connects_in_flight s).

Definition set_reads_in_flight (s : SocketBase) (l : list AsyncRead)
  : SocketBase :=
  mkSocket (m_isConnected s) (socket_open s) (m_writeCommandQueue s)
    (posted s) (writes_in_flight s) (writes_issued s) l
    (accepts_in_flight s) (connects_in_flight s).

Definition set_accepts_in_flight (s : SocketBase) (n : nat) : SocketBase :=
  mkSocket (m_isConnected s) (socket_open s) (m_writeCommandQueue s)
    (posted s) (writes_in_flight s) (writes_issued s) (reads_in_flight s)
    n (connects_in_flight s).

Definition set_connects_in_flight (s : SocketBase) (n : nat) : SocketBase :=
  mkSocket (m_isConnected s) (socket_open s) (m_writeCommandQueue s)
    (posted s) (writes_in_flight s) (writes_issued s) (reads_in_flight s)
    (accepts_in_flight s) n.

Definition IsConnected (s : SocketBase) : bool := m_isConnected s.

(** [GetService().post(handler)] *)
Definition post (s : SocketBase) (h : Handler) : SocketBase :=
  set_posted s (posted s ++ [h]).

Definition Write (s : SocketBase) (h : RemoteCommandHeader)
  (d : RemoteCommandData) : SocketBase :=
  post s (H_doWrite (RemoteCommand_of h d)).

Definition Close (s : SocketBase) : SocketBase := post s H_doClose.

Definition Connected (s : SocketBase) : SocketBase := post s H_connected.

(** [m_socket.close(); m_isConnected = false;] *)
Definition doClose (s : SocketBase) : SocketBase :=
  set_isConnected (set_socket_open s false) false.

Definition async_read (s : SocketBase) (r : AsyncRead) : SocketBase :=
  set_reads_in_flight s (reads_in_flight s ++ [r]).

Definition asyncReadCommand (s : SocketBase) : SocketBase :=
  async_read s ReadHeader.

Definition connected (s : SocketBase) : SocketBase :=
  if negb (m_isConnected s) then asyncReadCommand (set_isConnected s true)
  else s.

Definition async_write (s : SocketBase) (w : AsyncWrite) : SocketBase :=
  set_writes s (writes_in_flight s ++ [w]) (writes_issued s ++ [w]).

(** [SocketBase::asyncWrite]: one [async_write] for a command without
    payload, two (header, then payload) otherwise; the second is issued
    right after the first, not from the completion of the first. *)
Definition asyncWrite (s : SocketBase) (command : RemoteCommand)
  : SocketBase :=
  if GetDataSize command =? 0 then
    async_write s (mkAsyncWrite (HeaderBuffer (header command)) true)
  else
    async_write
      (async_write s (mkAsyncWrite (HeaderBuffer (header command)) false))
      (mkAsyncWrite (DataBuffer (data command)) true).

Definition queue_empty {A : Type} (q : list A) : bool :=
  match q with [] => true | _ :: _ => false end.

(** [SocketBase::doWrite]. [front()] is taken on a queue that has just
    been pushed to. *)
Definition doWrite (s : SocketBase) (command : RemoteCommand) : SocketBase :=
  let isProgress := negb (queue_empty (m_writeCommandQueue s)) in
  let s1 := set_writeCommandQueue s (m_writeCommandQueue s ++ [command]) in
  if negb isProgress then
    match m_writeCommandQueue s1 with
    | front :: _ => asyncWrite s1 front
    | [] => s1
    end
  else s1.

(** [SocketBase::handleWrite], the completion handler of an
    [async_write]; [pop()] is [tl]. *)
Definition handleWrite (s : SocketBase) (deleteCommand : bool) (error : bool)
  : SocketBase :=
  if negb error then
    if deleteCommand then
      let s1 := set_writeCommandQueue s (tl (m_writeCommandQueue s)) in
      if negb (queue_empty (m_writeCommandQueue s1)) then
        match m_writeCommandQueue s1 with
        | front :: _ => asyncWrite s1 front
        | [] => s1
        end
      else s1
    else s
  else doClose s.

(** [poll_one] running the oldest posted handler, if there is one. *)
Definition run_posted (s : SocketBase) : SocketBase :=
  match posted s with
  | [] => s
  | h :: rest =>
      let s1 := set_posted s rest in
      match h with
      | H_doWrite command => doWrite s1 command
      | H_doClose => doClose s1
      | H_connected => connected s1
      end
  end.

(** *** [class ContextSocket] and [class FrameSocket] *)

Definition async_accept (s : SocketBase) : SocketBase :=
  set_accepts_in_flight s (S (accepts_in_flight s)).

(** [ContextSocket::handleAccept] *)
Definition handleAccept (s : SocketBase) (error : bool) : SocketBase :=
  if negb error then Connected s else async_accept s.

(** [GetSocket().async_connect(endpoint, ...)]; asio opens a closed
    socket before connecting. *)
Definition async_connect (s : SocketBase) : SocketBase :=
  set_connects_in_flight (set_socket_open s true)
    (S (connects_in_flight s)).

(** [FrameSocket::handleConnect] *)
Definition handleConnect (s : SocketBase) (error : bool) : SocketBase :=
  if negb error then Connected s
  else async_connect (set_socket_open s false).

(** ** The engine: [class RemoteEngine] *)

(** [struct WaitResponseCommand { header; response; }] *)
Record WaitResponseCommand : Type := mkWait {
  wait_header : RemoteCommandHeader;
  wait_response : RemoteCommandCallback
}.

Record RemoteEngine : Type := mkEngine {
  m_isThreadActive : bool;
  m_commandIdCounter : Z;
  m_ctxId : Z;
  m_waitResponseCommandList : list WaitResponseCommand;
  m_readCommandQueue : list RemoteCommand;
  (** [shared_ptr<SocketBase> m_socket]; [None] is [NULL]. *)
  m_socket : option SocketBase;
  (** History, not a member of the class: every value the command-id
      counter has handed out as a new command id, oldest first. *)
  allocated_ids : list Z
}.

(** [RemoteEngine::RemoteEngine()] *)
Definition RemoteEngine_new : RemoteEngine :=
  mkEngine false 0 (-1) [] [] None [].

Definition set_commandIdCounter (e : RemoteEngine) (c : Z) : RemoteEngine :=
  mkEngine (m_isThreadActive e) c (m_ctxId e) (m_waitResponseCommandList e)
    (m_readCommandQueue e) (m_socket e) (allocated_ids e).

Definition set_ctxId (e : RemoteEngine) (c : Z) : RemoteEngine :=
  mkEngine (m_isThreadActive e) (m_commandIdCounter e) c
    (m_waitResponseCommandList e) (m_readCommandQueue e) (m_socket e) (allocated_ids e).

Definition set_waitResponseCommandList (e : RemoteEngine)
  (l : list WaitResponseCommand) : RemoteEngine :=
  mkEngine (m_isThreadActive e) (m_commandIdCounter e) (m_ctxId e) l
    (m_readCommandQueue e) (m_socket e) (allocated_ids e).

Definition set_readCommandQueue (e : RemoteEngine) (q : list RemoteCommand)
  : RemoteEngine :=
  mkEngine (m_isThreadActive e) (m_commandIdCounter e) (m_ctxId e)
    (m_waitResponseCommandList e) q (m_socket e) (allocated_ids e).

Definition set_socket (e : RemoteEngine) (s : option SocketBase)
  : RemoteEngine :=
  mkEngine (m_isThreadActive e) (m_commandIdCounter e) (m_ctxId e)
    (m_waitResponseCommandList e) (m_readCommandQueue e) s (allocated_ids e).

Definition log_allocated (e : RemoteEngine) (id : Z) : RemoteEngine :=
  mkEngine (m_isThreadActive e) (m_commandIdCounter e) (m_ctxId e)
    (m_waitResponseCommandList e) (m_readCommandQueue e) (m_socket e)
    (allocated_ids e ++ [id]).

Definition SetThreadActive (e : RemoteEngine) (b : bool) : RemoteEngine :=
  mkEngine b (m_commandIdCounter e) (m_ctxId e)
    (m_waitResponseCommandList e) (m_readCommandQueue e) (m_socket e) (allocated_ids e).

(** [RemoteEngine::SetCtxId]; the [notify_all] has no state of its own. *)
Definition SetCtxId (e : RemoteEngine) (ctxId : Z) : RemoteEngine :=
  if negb (m_ctxId e =? ctxId) then set_ctxId e ctxId else e.

(** [RemoteEngine::IsConnected] *)
Definition Engine_IsConnected (e : RemoteEngine) : bool :=
  match m_socket e with
  | None => false
  | Some s => IsConnected s
  end.

Definition HasCommand (e : RemoteEngine) : bool :=
  match m_readCommandQueue e with [] => false | _ => true end.

Definition GetCommand (e : RemoteEngine) : option RemoteCommand :=
  hd_error (m_readCommandQueue e).

Definition PopCommand (e : RemoteEngine) : RemoteEngine :=
  set_readCommandQueue e (tl (m_readCommandQueue e)).

(** The test of the search loop of [HandleReadCommand]. *)
Definition matches (command : RemoteCommand) (w : WaitResponseCommand)
  : bool :=
  (GetCtxId command =? ctxId (wait_header w))
  && (GetCommandId command =? commandId (wait_header w)).

(** The search loop of [HandleReadCommand]: walks the list from [begin()];
    at the first entry that matches, erases it, attaches its callback to
    the command and stops. Returns the command and the list. *)
Fixpoint find_response (command : RemoteCommand)
  (l : list WaitResponseCommand)
  : RemoteCommand * list WaitResponseCommand :=
  match l with
  | [] => (command, [])
  | w :: rest =>
      if matches command w then (SetResponse command (wait_response w), rest)
      else
        let (command', rest') := find_response command rest in
        (command', w :: rest')
  end.

(** [RemoteEngine::HandleReadCommand] *)
Definition HandleReadCommand (e : RemoteEngine) (command_ : RemoteCommand)
  : RemoteEngine :=
  let (command, waits) :=
    find_response command_ (m_waitResponseCommandList e) in
  let e1 := set_waitResponseCommandList e waits in
  let e2 :=
    match GetType command with
    | REMOTECOMMANDTYPE_START_CONNECTION => SetCtxId e1 (GetCtxId command)
    | REMOTECOMMANDTYPE_END_CONNECTION => SetCtxId e1 (-1)
    | _ =>
        if m_ctxId e1 <? 0 then SetCtxId e1 (GetCtxId command) else e1
    end in
  set_readCommandQueue e2 (m_readCommandQueue e2 ++ [command]).

(** [RemoteEngine::InitCommandHeader(type, dataSize, commandId)];
    [dataSize] is a [size_t], [commandId] an [int] whose default is 0. *)
Definition InitCommandHeader (e : RemoteEngine) (type : RemoteCommandType)
  (dataSize : Z) (commandId : Z) : RemoteCommandHeader * RemoteEngine :=
  if commandId =? 0 then
    (mkHeader type (m_ctxId e) (m_commandIdCounter e) (to_uint32 dataSize),
     log_allocated
       (set_commandIdCounter e (to_uint32 (m_commandIdCounter e + 2)))
       (m_commandIdCounter e))
  else
    (mkHeader type (m_ctxId e) (to_uint32 commandId) (to_uint32 dataSize), e).

(** [m_socket->Write(header, data)]; [None] when [m_socket] is [NULL]. *)
Definition socket_Write (e : RemoteEngine) (h : RemoteCommandHeader)
  (d : RemoteCommandData) : option RemoteEngine :=
  match m_socket e with
  | Some s => Some (set_socket e (Some (Write s h d)))
  | None => None
  end.

(** [RemoteEngine::WriteCommand(type, data)] *)
Definition WriteCommand (e : RemoteEngine) (type : RemoteCommandType)
  (data : RemoteCommandData) : option RemoteEngine :=
  let (header, e1) := InitCommandHeader e type (GetSize data) 0 in
  socket_Write e1 header data.

(** [RemoteEngine::WriteCommand(type, data, response)] *)
Definition WriteCommand_response (e : RemoteEngine)
  (type : RemoteCommandType) (data : RemoteCommandData)
  (response : RemoteCommandCallback) : option RemoteEngine :=
  let (header, e1) := InitCommandHeader e type (GetSize data) 0 in
  match socket_Write e1 header data with
  | Some e2 =>
      Some (set_waitResponseCommandList e2
              (m_waitResponseCommandList e2 ++ [mkWait header response]))
  | None => None
  end.

(** [RemoteEngine::WriteResponse]; the [uint32_t] command id of the
    command read is passed as the [int commandId] argument. *)
Definition WriteResponse (e : RemoteEngine) (readCommand : RemoteCommand)
  (type : RemoteCommandType) (data : RemoteCommandData)
  : option RemoteEngine :=
  let (header, e1) :=
    InitCommandHeader e type (GetSize data)
      (to_int (GetCommandId readCommand)) in
  socket_Write e1 header data.

(** [RemoteEngine::DoStartConnection] *)
Definition DoStartConnection (e : RemoteEngine) (ctxId : Z)
  : option RemoteEngine :=
  let (header, e1) :=
    InitCommandHeader e REMOTECOMMANDTYPE_START_CONNECTION 0 0 in
  socket_Write e1
    (mkHeader (type header) ctxId (commandId header) (dataSize header)) [].


(** ** Completion handlers of the reads *)

(** [SocketBase::handleReadData]; [m_engine] is the engine given. *)
Definition handleReadData (es : RemoteEngine * SocketBase)
  (command : RemoteCommand) (error : bool) : RemoteEngine * SocketBase :=
  let (e, s) := es in
  if negb error then (HandleReadCommand e command, asyncReadCommand s)
  else (e, doClose s).

(** [SocketBase::handleReadCommand] *)
Definition handleReadCommand (es : RemoteEngine * SocketBase)
  (command : RemoteCommand) (error : bool) : RemoteEngine * SocketBase :=
  let (e, s) := es in
  if negb error then
    let s1 := if GetCtxId command <? 0 then doClose s else s in
    if GetDataSize command >? 0 then (e, async_read s1 (ReadData command))
    else handleReadData (e, s1) command error
  else (e, doClose s).

(** ** The [io_service]: one handler run by [poll_one]

    What [poll_one] finds ready is decided by the environment: the oldest
    posted handler, or the completion of the oldest asynchronous
    operation of one kind, with its [error_code] and, for a read, the
    bytes received. An event that finds nothing to complete leaves the
    state as it is. *)
Inductive Event : Type :=
| Ev_run_posted
| Ev_write_completes (error : bool)
| Ev_header_read (h : RemoteCommandHeader) (error : bool)
| Ev_data_read (d : RemoteCommandData) (error : bool)
| Ev_accept_completes (error : bool)
| Ev_connect_completes (error : bool).

Definition poll_one (ev : Event) (es : RemoteEngine * SocketBase)
  : RemoteEngine * SocketBase :=
  let (e, s) := es in
  match ev with
  | Ev_run_posted => (e, run_posted s)
  | Ev_write_completes error =>
      match writes_in_flight s with
      | w :: rest =>
          (e, handleWrite (set_writes s rest (writes_issued s))
                (deleteCommand w) error)
      | [] => es
      end
  | Ev_header_read h error =>
      match reads_in_flight s with
      | ReadHeader :: rest =>
          handleReadCommand (e, set_reads_in_flight s rest)
            (mkCommand h [] None) error
      | _ => es
      end
  | Ev_data_read d error =>
      match reads_in_flight s with
      | ReadData command :: rest =>
          handleReadData (e, set_reads_in_flight s rest)
            (mkCommand (header command) d (response command)) error
      | _ => es
      end
  | Ev_accept_completes error =>
      match accepts_in_flight s with
      | S n => (e, handleAccept (set_accepts_in_flight s n) error)
      | O => es
      end
  | Ev_connect_completes error =>
      match connects_in_flight s with
      | S n => (e, handleConnect (set_connects_in_flight s n) error)
      | O => es
      end
  end.

(** The same, on the engine's own socket (the service thread). *)
Definition service (ev : Event) (e : RemoteEngine) : RemoteEngine :=
  match m_socket e with
  | Some s =>
      let (e', s') := poll_one ev (e, s) in set_socket e' (Some s')
  | None => e
  end.

Definition service_all (evs : list Event) (e : RemoteEngine) : RemoteEngine :=
  fold_left (fun e ev => service ev e) evs e.

(** ** Establishing the connection: [Start]

    [boost::xtime] and [boost::xtime_cmp]. *)
Record xtime : Type := mkXtime { sec : Z; nsec : Z }.

Definition xtime_cmp (xt1 xt2 : xtime) : Z :=
  if sec xt1 =? sec xt2 then nsec xt1 - nsec xt2
  else if sec xt1 >? sec xt2 then 1 else -1.

(** The time [waitSeconds] after [start]. *)
Definition deadline (start : xtime) (waitSeconds : Z) : xtime :=
  mkXtime (sec start + waitSeconds) (nsec start).

(** One turn of the waiting loop as the environment decides it: what
    [xtime_get] reads, and what the [poll_one] of that turn finds ready,
    if anything. *)
Record Tick : Type := mkTick { now : xtime; ready : option Event }.

Definition poll_one_opt (r : option Event) (es : RemoteEngine * SocketBase)
  : RemoteEngine * SocketBase :=
  match r with
  | Some ev => poll_one ev es
  | None => es
  end.

(** The loop [while (!IsConnected()) { ... }] of both [Start] functions.
    The result is [Some 0] when the loop is left at its test (the
    function then returns 0), [Some (-1)] for [return -1], and [None]
    when the loop is still turning after the ticks given. *)
Fixpoint wait_connected (end_ : xtime) (ticks : list Tick)
  (es : RemoteEngine * SocketBase) : option Z * (RemoteEngine * SocketBase) :=
  if negb (IsConnected (snd es)) then
    match ticks with
    | [] => (None, es)
    | t :: rest =>
        if xtime_cmp (now t) end_ >=? 0 then (Some (-1), es)
        else wait_connected end_ rest (poll_one_opt (ready t) es)
    end
  else (Some 0, es).

(** [ContextSocket::Start(waitSeconds)]; [start] is the time read into
    [end] before [waitSeconds] is added. *)
Definition ContextSocket_Start (waitSeconds : Z) (start : xtime)
  (ticks : list Tick) (es : RemoteEngine * SocketBase)
  : option Z * (RemoteEngine * SocketBase) :=
  let es1 := (fst es, async_accept (snd es)) in
  if waitSeconds >=? 0 then
    wait_connected (deadline start waitSeconds) ticks es1
  else (Some 0, es1).

(** [FrameSocket::Start(waitSeconds)] *)
Definition FrameSocket_Start (waitSeconds : Z) (start : xtime)
  (ticks : list Tick) (es : RemoteEngine * SocketBase)
  : option Z * (RemoteEngine * SocketBase) :=
  let es1 := (fst es, async_connect (snd es)) in
  if waitSeconds >=? 0 then
    wait_connected (deadline start waitSeconds) ticks es1
  else (Some 0, es1).

(** [RemoteEngine::StartThread]: the thread started runs
    [ServiceThread], which marks itself active. *)
Definition StartThread (e : RemoteEngine) : RemoteEngine :=
  if negb (m_isThreadActive e) then SetThreadActive e true else e.

(** The wait for the context id that ends both [StartContext] and
    [StartFrame]; [during_wait] is what the service thread runs while the
    caller is in [timed_wait]. *)
Definition wait_ctxId (during_wait : list Event) (e : RemoteEngine)
  : Z * RemoteEngine :=
  if m_ctxId e <? 0 then
    let e1 := service_all during_wait e in
    if m_ctxId e1 <? 0 then (-1, e1) else (0, e1)
  else (0, e).

(** [RemoteEngine::StartContext(portNum, ctxId, waitSeconds)]. The
    result is [None] while [ContextSocket::Start] has not returned. *)
Definition StartContext (e : RemoteEngine) (ctxId waitSeconds : Z)
  (start : xtime) (ticks : list Tick) (during_wait : list Event)
  : option (Z * RemoteEngine) :=
  match ContextSocket_Start waitSeconds start ticks (e, SocketBase_new) with
  | (None, _) => None
  | (Some rc, (e0, socket)) =>
      if negb (rc =? 0) then Some (-1, e0)
      else
        let e1 := StartThread e0 in
        let e2 := set_commandIdCounter e1 1 in
        let e3 := set_socket e2 (Some socket) in
        match DoStartConnection e3 ctxId with
        | Some e4 => Some (wait_ctxId during_wait e4)
        | None => None
        end
  end.

(** [RemoteEngine::StartFrame(hostName, portName, waitSeconds)] *)
Definition StartFrame (e : RemoteEngine) (waitSeconds : Z)
  (start : xtime) (ticks : list Tick) (during_wait : list Event)
  : option (Z * RemoteEngine) :=
  match FrameSocket_Start waitSeconds start ticks (e, SocketBase_new) with
  | (None, _) => None
  | (Some rc, (e0, socket)) =>
      if negb (rc =? 0) then Some (-1, e0)
      else
        let e1 := StartThread e0 in
        let e2 := set_commandIdCounter e1 2 in
        let e3 := set_socket e2 (Some socket) in
        Some (wait_ctxId during_wait e3)
  end.

(** ** What the application and the service thread do to a started engine *)

Inductive Action : Type :=
| A_WriteCommand (type : RemoteCommandType) (data : RemoteCommandData)
| A_WriteCommand_response (type : RemoteCommandType)
    (data : RemoteCommandData) (response : RemoteCommandCallback)
| A_WriteResponse (readCommand : RemoteCommand) (type : RemoteCommandType)
    (data : RemoteCommandData)
| A_PopCommand
| A_service (ev : Event).

Definition act (a : Action) (e : RemoteEngine) : option RemoteEngine :=
  match a with
  | A_WriteCommand type data => WriteCommand e type data
  | A_WriteCommand_response type data response =>
      WriteCommand_response e type data response
  | A_WriteResponse readCommand type data =>
      WriteResponse e readCommand type data
  | A_PopCommand => Some (PopCommand e)
  | A_service ev => Some (service ev e)
  end.

Fixpoint run (acts : list Action) (e : RemoteEngine) : option RemoteEngine :=
  match acts with
  | [] => Some e
  | a :: rest =>
      match act a e with
      | Some e' => run rest e'
      | None => None
      end
  end.

(** [RemoteEngine::Break] *)
Definition Break (e : RemoteEngine) : option RemoteEngine :=
  WriteCommand e REMOTECOMMANDTYPE_BREAK [].

(** [Break()] called [k] times in a row. *)
Definition Break_times (k : N) (e : RemoteEngine) : option RemoteEngine :=
  N.iter k
    (fun o => match o with Some e' => Break e' | None => None end)
    (Some e).

(** What the connection is asked to do, from outside ([Write], [Close],
    [Connected]) and by its [io_service]. *)
Inductive ConnAction : Type :=
| C_Write (h : RemoteCommandHeader) (d : RemoteCommandData)
| C_Close
| C_Connected
| C_poll (ev : Event).

Definition conn_act (es : RemoteEngine * SocketBase) (a : ConnAction)
  : RemoteEngine * SocketBase :=
  match a with
  | C_Write h d => (fst es, Write (snd es) h d)
  | C_Close => (fst es, Close (snd es))
  | C_Connected => (fst es, Connected (snd es))
  | C_poll ev => poll_one ev es
  end.

Definition conn_run (acts : list ConnAction) (es : RemoteEngine * SocketBase)
  : RemoteEngine * SocketBase :=
  fold_left conn_act acts es.

(** The commands handed to [Write], in the order of the calls. *)
Fixpoint sent (acts : list ConnAction) : list RemoteCommand :=
  match acts with
  | [] => []
  | C_Write h d :: rest => RemoteCommand_of h d :: sent rest
  | _ :: rest => sent rest
  end.

(** ** Vocabulary of the statements *)

(** The received command and a waiting entry carry the same
    (ctxId, commandId) pair. *)
Definition same_pair (command : RemoteCommand) (w : WaitResponseCommand)
  : Prop :=
  (GetCtxId command, GetCommandId command)
  = (ctxId (wait_header w), commandId (wait_header w)).

(** The context id [HandleReadCommand] leaves, by command type. *)
Definition ctxId_after (e : RemoteEngine) (command : RemoteCommand) : Z :=
  match GetType command with
  | REMOTECOMMANDTYPE_START_CONNECTION => GetCtxId command
  | REMOTECOMMANDTYPE_END_CONNECTION => -1
  | _ => if m_ctxId e <? 0 then GetCtxId command else m_ctxId e
  end.

(** The command an event hands to [RemoteEngine::HandleReadCommand], if
    it does: a header read without error that announces no payload, or a
    payload read without error. *)
Definition delivered (ev : Event) (s : SocketBase) : option RemoteCommand :=
  match ev, reads_in_flight s with
  | Ev_header_read h false, ReadHeader :: _ =>
      if dataSize h >? 0 then None else Some (mkCommand h [] None)
  | Ev_data_read d false, ReadData command :: _ =>
      Some (mkCommand (header command) d (response command))
  | _, _ => None
  end.

(** START_CONNECTION and END_CONNECTION. *)
Definition is_handshake (t : RemoteCommandType) : bool :=
  match t with
  | REMOTECOMMANDTYPE_START_CONNECTION
  | REMOTECOMMANDTYPE_END_CONNECTION => true
  | _ => false
  end.

(** The action is the arrival of the header of a START_CONNECTION or an
    END_CONNECTION. *)
Definition receives_handshake (a : Action) : bool :=
  match a with
  | A_service (Ev_header_read h _) => is_handshake (type h)
  | _ => false
  end.

(** No command whose payload is still being read is a START_CONNECTION or
    an END_CONNECTION. *)
Definition no_handshake_in_flight (e : RemoteEngine) : Prop :=
  match m_socket e with
  | Some s =>
      Forall (fun r => match r with
                       | ReadHeader => True
                       | ReadData c => is_handshake (GetType c) = false
                       end) (reads_in_flight s)
  | None => True
  end.

(** The [i]-th value handed out by a counter that starts at [seed]. *)
Definition nth_id (seed : Z) (i : nat) : Z :=
  to_uint32 (seed + 2 * Z.of_nat i).

(** The first [n] values handed out by a counter that starts at [seed]. *)
Definition ids_from (seed : Z) (n : nat) : list Z :=
  map (nth_id seed) (seq 0 n).

(** The event is the completion, with an error, of the oldest read or
    write in flight. *)
Definition fails (ev : Event) (s : SocketBase) : bool :=
  match ev with
  | Ev_write_completes true => negb (queue_empty (writes_in_flight s))
  | Ev_header_read _ true =>
      match reads_in_flight s with ReadHeader :: _ => true | _ => false end
  | Ev_data_read _ true =>
      match reads_in_flight s with ReadData _ :: _ => true | _ => false end
  | _ => false
  end.

(** The [async_write] calls [asyncWrite] makes for one command. *)
Definition asyncWrite_calls (command : RemoteCommand) : list AsyncWrite :=
  if GetDataSize command =? 0 then
    [mkAsyncWrite (HeaderBuffer (header command)) true]
  else
    [mkAsyncWrite (HeaderBuffer (header command)) false;
     mkAsyncWrite (DataBuffer (data command)) true].

(** The commands of the posted [doWrite] handlers, oldest first. *)
Fixpoint posted_writes (l : list Handler) : list RemoteCommand :=
  match l with
  | [] => []
  | H_doWrite c :: rest => c :: posted_writes rest
  | _ :: rest => posted_writes rest
  end.

(** ** The write queue as a transition system

    What one action does to the four things the writing involves: the
    posted [doWrite] handlers, [m_writeCommandQueue], the writes in
    flight and the writes issued. [write_step s cs s'] relates the
    connection before and after an action that handed the commands [cs]
    (none or one) to [Write]. *)
Inductive write_step (s : SocketBase) :
  list RemoteCommand -> SocketBase -> Prop :=
| ws_untouched s' :
    posted_writes (posted s') = posted_writes (posted s) ->
    m_writeCommandQueue s' = m_writeCommandQueue s ->
    writes_in_flight s' = writes_in_flight s ->
    writes_issued s' = writes_issued s ->
    write_step s [] s'
| ws_Write s' c :
    posted_writes (posted s') = posted_writes (posted s) ++ [c] ->
    m_writeCommandQueue s' = m_writeCommandQueue s ->
    writes_in_flight s' = writes_in_flight s ->
    writes_issued s' = writes_issued s ->
    write_step s [c] s'
| ws_doWrite_idle s' c :
    posted_writes (posted s) = c :: posted_writes (posted s') ->
    m_writeCommandQueue s = [] ->
    m_writeCommandQueue s' = [c] ->
    writes_in_flight s' = writes_in_flight s ++ asyncWrite_calls c ->
    writes_issued s' = writes_issued s ++ asyncWrite_calls c ->
    write_step s [] s'
| ws_doWrite_busy s' c :
    posted_writes (posted s) = c :: posted_writes (posted s') ->
    m_writeCommandQueue s <> [] ->
    m_writeCommandQueue s' = m_writeCommandQueue s ++ [c] ->
    writes_in_flight s' = writes_in_flight s ->
    writes_issued s' = writes_issued s ->
    write_step s [] s'
| ws_handleWrite_keep s' w :
    posted_writes (posted s') = posted_writes (posted s) ->
    m_writeCommandQueue s' = m_writeCommandQueue s ->
    writes_in_flight s = w :: writes_in_flight s' ->
    writes_issued s' = writes_issued s ->
    write_step s [] s'
| ws_handleWrite_pop s' w :
    deleteCommand w = true ->
    posted_writes (posted s') = posted_writes (posted s) ->
    m_writeCommandQueue s' = tl (m_writeCommandQueue s) ->
    m_writeCommandQueue s' = [] ->
    writes_in_flight s = w :: writes_in_flight s' ->
    writes_issued s' = writes_issued s ->
    write_step s [] s'
| ws_handleWrite_next s' w rest c :
    deleteCommand w = true ->
    posted_writes (posted s') = posted_writes (posted s) ->
    m_writeCommandQueue s' = tl (m_writeCommandQueue s) ->
    hd_error (m_writeCommandQueue s') = Some c ->
    writes_in_flight s = w :: rest ->
    writes_in_flight s' = rest ++ asyncWrite_calls c ->
    writes_issued s' = writes_issued s ++ asyncWrite_calls c ->
    write_step s [] s'.

(** The writes in flight are those of one command, the one at the head of
    the queue: all its [async_write] calls, or what is left of them once
    the header has been written. *)
Definition one_command_in_flight (s : SocketBase) : Prop :=
  writes_in_flight s = []
  \/ exists c q,
      m_writeCommandQueue s = c :: q
      /\ (writes_in_flight s = asyncWrite_calls c
          \/ writes_in_flight s = tl (asyncWrite_calls c)).

(** The state of the writing after the commands [cs] have been handed to
    [Write]: the commands are, in this order, those whose write is over
    ([done]), those in the queue, and those whose [doWrite] is posted;
    writes have been issued for the commands done and, possibly
    ([k] = 1), for the head of the queue, in this order. *)
Definition write_invariant (cs : list RemoteCommand) (s : SocketBase)
  : Prop :=
  exists (done : list RemoteCommand) (k : nat),
    (k <= 1)%nat
    /\ cs = done ++ m_writeCommandQueue s ++ posted_writes (posted s)
    /\ writes_issued s
       = flat_map asyncWrite_calls (done ++ firstn k (m_writeCommandQueue s))
    /\ (writes_in_flight s = []
        \/ exists c q,
            k = 1%nat
            /\ m_writeCommandQueue s = c :: q
            /\ (writes_in_flight s = asyncWrite_calls c
                \/ writes_in_flight s = tl (asyncWrite_calls c))).

(** The engine and the connection after the first [j] turns of the
    loop. *)
Fixpoint turns (j : nat) (ticks : list Tick) (es : RemoteEngine * SocketBase)
  : RemoteEngine * SocketBase :=
  match j, ticks with
  | S j', t :: rest => turns j' rest (poll_one_opt (ready t) es)
  | _, _ => es
  end.

(** The time read at a turn has reached [end_]. *)
Definition expired (end_ : xtime) (t : Tick) : bool :=
  xtime_cmp (now t) end_ >=? 0.

(** During each of the first [j] turns the loop found the connection not
    established and the time before [end_]. *)
Definition waiting (end_ : xtime) (j : nat) (ticks : list Tick)
  (es : RemoteEngine * SocketBase) : Prop :=
  forall i, (i < j)%nat ->
    IsConnected (snd (turns i ticks es)) = false
    /\ exists t, nth_error ticks i = Some t /\ expired end_ t = false.

(** ** Vocabulary for the wire *)

(** What the peer's connection reads when a write has gone over the
    wire without error: the header, or the payload bytes. *)
Definition receive_event (w : AsyncWrite) : Event :=
  match buffer w with
  | HeaderBuffer h => Ev_header_read h false
  | DataBuffer d => Ev_data_read d false
  end.

Definition receive_events (ws : list AsyncWrite) : list Event :=
  map receive_event ws.

(** The header announces the length of the payload, and the ctxId is not
    the closing one. *)
Definition well_framed (c : RemoteCommand) : Prop :=
  0 <= GetCtxId c /\ GetDataSize c = GetSize (data c).

(** The commands handed to [RemoteEngine::HandleReadCommand] while the
    service thread runs the events, in the order of the calls. *)
Fixpoint deliveries (evs : list Event) (e : RemoteEngine)
  : list RemoteCommand :=
  match evs with
  | [] => []
  | ev :: rest =>
      match m_socket e with
      | Some s =>
          match delivered ev s with
          | Some c => [c]
          | None => []
          end
      | None => []
      end ++ deliveries rest (service ev e)
  end.

(** The entry of the list of commands waiting for a response carries the
    pair ([ctx], [id]). *)
Definition waits_for (ctx id : Z) (w : WaitResponseCommand) : Prop :=
  ctxId (wait_header w) = ctx /\ commandId (wait_header w) = id.

(** The invariant of the reading: a connected connection has a read in
    flight, and as long as the socket has not been closed it has exactly
    one, or none before it is connected. *)
Definition read_invariant (s : SocketBase) : Prop :=
  (IsConnected s = true -> reads_in_flight s <> [])
  /\ (socket_open s = true ->
      length (reads_in_flight s) = if IsConnected s then 1%nat else 0%nat)
  /\ connects_in_flight s = 0%nat.

(** ** Example sessions *)

Definition clock0 : xtime := mkXtime 100 0.

(** A server: [StartContext(port, 7, -1)] on a new engine; while it waits
    for the context id the peer is accepted, the START_CONNECTION is
    written, and the peer's first command arrives. *)
Definition server_start : option (Z * RemoteEngine) :=
  StartContext RemoteEngine_new 7 (-1) clock0 []
    [Ev_accept_completes false; Ev_run_posted; Ev_run_posted;
     Ev_write_completes false;
     Ev_header_read (mkHeader REMOTECOMMANDTYPE_SUCCESSED 7 1 0) false].

Definition server_session : RemoteEngine :=
  match server_start with
  | Some (_, e) => e
  | None => RemoteEngine_new
  end.

(** A client: [StartFrame(host, port, 2)]; the connection is made on the
    second turn of the loop and the START_CONNECTION of the server
    arrives during the wait. *)
Definition client_start : option (Z * RemoteEngine) :=
  StartFrame RemoteEngine_new 2 clock0
    [mkTick (mkXtime 100 1000) (Some (Ev_connect_completes false));
     mkTick (mkXtime 100 100001000) (Some Ev_run_posted)]
    [Ev_header_read (mkHeader REMOTECOMMANDTYPE_START_CONNECTION 7 1 0)
       false].

Definition client_session : RemoteEngine :=
  match client_start with
  | Some (_, e) => e
  | None => RemoteEngine_new
  end.

(** What the two example sessions do next. *)
Definition server_actions : list Action :=
  [A_WriteCommand REMOTECOMMANDTYPE_CHANGED_STATE [Byte.x01];
   A_service Ev_run_posted;
   A_WriteCommand_response REMOTECOMMANDTYPE_REQUEST_GLOBALVARLIST [] 5%nat;
   A_WriteResponse
     (mkCommand (mkHeader REMOTECOMMANDTYPE_EVAL 7 2 0) [] None)
     REMOTECOMMANDTYPE_VALUE_STRING [Byte.x41]].

Definition server_later : RemoteEngine :=
  match run server_actions server_session with
  | Some e => e
  | None => server_session
  end.

Definition client_actions : list Action :=
  [A_WriteCommand REMOTECOMMANDTYPE_BREAK [];
   A_PopCommand;
   A_WriteCommand_response REMOTECOMMANDTYPE_EVAL [Byte.x41] 6%nat].

Definition client_later : RemoteEngine :=
  match run client_actions client_session with
  | Some e => e
  | None => client_session
  end.

(** A command read from a peer that has no context id. *)
Definition break_without_ctxId : RemoteCommand :=
  mkCommand (mkHeader REMOTECOMMANDTYPE_BREAK (-1) 3 0) [] None.

(** A connected socket asked to write one command with a one-byte
    payload, after its [doWrite] has run. *)
Definition changed_state_header : RemoteCommandHeader :=
  mkHeader REMOTECOMMANDTYPE_CHANGED_STATE 7 3 1.

Definition writing_one_command : SocketBase :=
  snd (conn_run
         [C_Connected; C_poll Ev_run_posted;
          C_Write changed_state_header [Byte.x01]; C_poll Ev_run_posted]
         (RemoteEngine_new, SocketBase_new)).

(** A listener whose accept fails three times, then succeeds; the time
    advances by 100 ms a turn. *)
Definition accept_retried : list Tick :=
  [mkTick (mkXtime 100 1000) (Some (Ev_accept_completes true));
   mkTick (mkXtime 100 100001000) (Some (Ev_accept_completes true));
   mkTick (mkXtime 100 200001000) (Some (Ev_accept_completes true));
   mkTick (mkXtime 100 300001000) (Some (Ev_accept_completes false));
   mkTick (mkXtime 100 400001000) (Some Ev_run_posted);
   mkTick (mkXtime 100 500001000) None].

(** A listener nobody connects to. *)
Definition nobody_connects : list Tick :=
  [mkTick (mkXtime 100 1000) None;
   mkTick (mkXtime 100 500001000) (Some (Ev_accept_completes true));
   mkTick (mkXtime 101 1000) None;
   mkTick (mkXtime 101 100001000) (Some (Ev_accept_completes false))].

(** A dialer whose connect fails twice, then succeeds. *)
Definition connect_retried : list Tick :=
  [mkTick (mkXtime 100 1000) (Some (Ev_connect_completes true));
   mkTick (mkXtime 100 100001000) (Some (Ev_connect_completes true));
   mkTick (mkXtime 100 200001000) (Some (Ev_connect_completes false));
   mkTick (mkXtime 100 300001000) (Some Ev_run_posted)].

(** ** The service thread and the stop *)

(** One round of the loop of [ServiceThread] as the environment decides
    it: what the ten [poll_one] of the burst find ready (the first ten
    entries count, missing ones find nothing), whether another thread
    has called [SetThreadActive(false)] by the time of the test, and
    what the [poll_one] of the test finds. *)
Record Round : Type := mkRound {
  burst : list (option Event);
  stop_called : bool;
  last_poll : option Event
}.

Definition service_opt (e : RemoteEngine) (o : option Event)
  : RemoteEngine :=
  match o with
  | Some ev => service ev e
  | None => e
  end.

(** The loop [for (;;) { ... }] of [ServiceThread]; [None] while it is
    still turning after the rounds given. *)
Fixpoint ServiceThread_loop (rounds : list Round) (e : RemoteEngine)
  : option RemoteEngine :=
  match rounds with
  | [] => None
  | r :: rest =>
      let e1 := fold_left service_opt (firstn 10 (burst r)) e in
      let e2 := if stop_called r then SetThreadActive e1 false else e1 in
      if negb (m_isThreadActive e2) then
        match last_poll r with
        | None => Some e2
        | Some ev => ServiceThread_loop rest (service ev e2)
        end
      else ServiceThread_loop rest e2
  end.

(** [RemoteEngine::ServiceThread]; the handlers of the model do not
    throw, so the [catch] has nothing to do. *)
Definition ServiceThread (rounds : list Round) (e : RemoteEngine)
  : option RemoteEngine :=
  if m_isThreadActive e then Some e
  else
    match ServiceThread_loop rounds (SetThreadActive e true) with
    | Some e' => Some (SetThreadActive e' false)
    | None => None
    end.


(** The events of a list of optional events. *)
Fixpoint events_of (l : list (option Event)) : list Event :=
  match l with
  | [] => []
  | Some ev :: rest => ev :: events_of rest
  | None :: rest => events_of rest
  end.

(** The events the loop of [ServiceThread] runs until it leaves, when
    [stopped] tells whether the thread has already been asked to
    stop. *)
Fixpoint polled (stopped : bool) (rounds : list Round) : list Event :=
  match rounds with
  | [] => []
  | r :: rest =>
      let b := events_of (firstn 10 (burst r)) in
      if stopped || stop_called r then
        match last_poll r with
        | None => b
        | Some ev => b ++ ev :: polled true rest
        end
      else b ++ polled false rest
  end.

(** Rounds in which the thread is asked to stop while a write completes,
    and leaves once nothing is ready. *)
Definition stopping_rounds : list Round :=
  [mkRound [Some Ev_run_posted; None; Some (Ev_write_completes false)]
     false None;
   mkRound [] true (Some Ev_run_posted);
   mkRound [None] false None;
   mkRound [Some Ev_run_posted] false None].

(** * The source view: [lldebug_sourceview.cpp]

    [SourceViewPage] is a [wxScintilla] editor showing one source;
    [SourceView] is the [wxAuiNotebook] holding one page per source.

    Conventions.
    - A [std::string], and a [wxString] through its UTF-8 bytes, is a
      list of bytes; [wxConvFromUTF8] is then the identity.
    - Of the editor widget the model keeps what the file changes: the
      markers (a list of line and marker number, one entry per
      [MarkerAdd] that was accepted), the read-only flag, and the log
      of the other calls ([AddTextRaw], [EnsureVisible],
      [SetSelection]) with positions kept as the expressions the code
      passes.  Whether the widget accepts a marker on a line depends on
      the document and on the widget; it is a parameter
      [accepts_marker] of the model.  The styling calls of
      [CreateGUIControls] are not modelled.
    - What the file reads from the widget or from the [Mediator] is an
      argument of the function that reads it: the lines [GetLineRaw]
      returns, the breakpoints.
    - The notebook is the list of its pages with their tab texts and the
      selected index; [wxNOT_FOUND] is [None].
    - [Source] and [Breakpoint] are declared outside the file: a source
      has a key, a title, a path and its lines; a breakpoint has the key
      of its source and a line, and [First(key)] and [Next] go through
      the breakpoints of a key. *)

Abbreviation std_string := (list Byte.byte) (only parsing).
Abbreviation wxString := (list Byte.byte) (only parsing).

Definition string_eqb (a b : std_string) : bool :=
  if list_eq_dec Strings.Byte.byte_eq_dec a b then true else false.

Definition wxConvFromUTF8 (s : std_string) : wxString := s.

(** [s.c_str()] read as a C string: the bytes before the first NUL. *)
Fixpoint c_str (s : std_string) : std_string :=
  match s with
  | [] => []
  | c :: rest => if Strings.Byte.eqb c Byte.x00 then [] else c :: c_str rest
  end.

Record Source := mkSource {
  Source_GetKey : std_string;
  Source_GetTitle : std_string;
  Source_GetPath : std_string;
  Source_lines : list std_string
}.

Definition Source_GetLineCount (source : Source) : nat :=
  length (Source_lines source).

Definition Source_GetSourceLine (source : Source) (i : nat) : std_string :=
  nth i (Source_lines source) [].

Record Breakpoint := mkBreakpoint {
  Breakpoint_GetKey : std_string;
  Breakpoint_GetLine : Z
}.

(** [bps.First(key)], [bps.Next(bp)], ... until [!bp.IsOk()]. *)
Definition breakpoints_of (key : std_string) (bps : list Breakpoint)
  : list Breakpoint :=
  filter (fun bp => string_eqb (Breakpoint_GetKey bp) key) bps.

Definition MARKNUM_BREAKPOINT : Z := 1.
Definition MARKNUM_RUNNING : Z := 2.
Definition MARKNUM_BACKTRACE : Z := 3.

Definition wxSCI_MOD_INSERTTEXT : Z := 1.
Definition wxSCI_MOD_DELETETEXT : Z := 2.
Definition wxSCI_PERFORMED_USER : Z := 16.

(** A document position, as the code computes it. *)
Inductive Position :=
| PositionFromLine (line : Z)
| GetLineEndPosition (line : Z).

Inductive Call :=
| Call_AddTextRaw (text : std_string)
| Call_EnsureVisible (line : Z)
| Call_SetSelection (from to : Position).

Record SourceViewPage := mkPage {
  m_initialized : bool;
  m_wasTitleChanged : bool;
  m_key : std_string;
  m_title : wxString;
  m_path : wxString;
  m_currentLine : Z;
  m_markedLine : Z;
  sci_markers : list (Z * Z);
  sci_read_only : bool;
  sci_calls : list Call
}.

(** The constructor; [CreateGUIControls] calls [SetReadOnly(false)]. *)
Definition SourceViewPage_new : SourceViewPage :=
  mkPage false false [] [] [] (-1) (-1) [] false [].

Definition set_wasTitleChanged (p : SourceViewPage) (b : bool) :=
  mkPage (m_initialized p) b (m_key p) (m_title p) (m_path p)
    (m_currentLine p) (m_markedLine p)
    (sci_markers p) (sci_read_only p) (sci_calls p).

Definition set_currentLine (p : SourceViewPage) (line : Z) :=
  mkPage (m_initialized p) (m_wasTitleChanged p) (m_key p) (m_title p)
    (m_path p) line (m_markedLine p)
    (sci_markers p) (sci_read_only p) (sci_calls p).

Definition set_markedLine (p : SourceViewPage) (line : Z) :=
  mkPage (m_initialized p) (m_wasTitleChanged p) (m_key p) (m_title p)
    (m_path p) (m_currentLine p) line
    (sci_markers p) (sci_read_only p) (sci_calls p).

Definition set_markers (p : SourceViewPage) (m : list (Z * Z)) :=
  mkPage (m_initialized p) (m_wasTitleChanged p) (m_key p) (m_title p)
    (m_path p) (m_currentLine p) (m_markedLine p)
    m (sci_read_only p) (sci_calls p).

Definition SetReadOnly (p : SourceViewPage) (b : bool) :=
  mkPage (m_initialized p) (m_wasTitleChanged p) (m_key p) (m_title p)
    (m_path p) (m_currentLine p) (m_markedLine p)
    (sci_markers p) b (sci_calls p).

Definition call (p : SourceViewPage) (c : Call) :=
  mkPage (m_initialized p) (m_wasTitleChanged p) (m_key p) (m_title p)
    (m_path p) (m_currentLine p) (m_markedLine p)
    (sci_markers p) (sci_read_only p) (sci_calls p ++ [c]).

Definition GetKey (p : SourceViewPage) : std_string := m_key p.
Definition GetTitle (p : SourceViewPage) : wxString := m_title p.

Definition marker_eqb (a b : Z * Z) : bool :=
  (fst a =? fst b) && (snd a =? snd b).

(** [MarkerDelete] takes one marker of the number off the line. *)
Fixpoint remove_one (m : Z * Z) (l : list (Z * Z)) : list (Z * Z) :=
  match l with
  | [] => []
  | x :: rest => if marker_eqb x m then rest else x :: remove_one m rest
  end.

Definition MarkerDelete (p : SourceViewPage) (line markerNumber : Z) :=
  set_markers p (remove_one (line, markerNumber) (sci_markers p)).

Definition MarkerDeleteAll (p : SourceViewPage) (markerNumber : Z) :=
  set_markers p
    (filter (fun m => negb (snd m =? markerNumber)) (sci_markers p)).

(** ** The text of a page *)

(** The loop of [Initialize], from index [i] with [n] rounds to go. *)
Fixpoint Initialize_loop (source : Source) (n i : nat) (str : std_string)
  : std_string :=
  match n with
  | O => str
  | S n' =>
      let str1 := str ++ Source_GetSourceLine source i in
      let str2 :=
        if (i <? Source_GetLineCount source)%nat
        then str1 ++ [Byte.x0a] else str1 in
      Initialize_loop source n' (S i) str2
  end.

Definition Initialize_text (source : Source) : std_string :=
  Initialize_loop source (Source_GetLineCount source) 0%nat [].

Definition is_newline (c : Byte.byte) : bool :=
  Strings.Byte.eqb c Byte.x0a || Strings.Byte.eqb c Byte.x0d.

(** The trimming loop of [SaveSource], on the reversed buffer. *)
Fixpoint trim_end (reversed : std_string) : std_string :=
  match reversed with
  | [] => []
  | c :: rest => if is_newline c then trim_end rest else reversed
  end.

Definition trim_newlines (buffer : std_string) : std_string :=
  rev (trim_end (rev buffer)).

(** The array [SaveSource] builds from the lines [GetLineRaw] returns;
    each is read as a C string. *)
Definition SaveSource_array (lines : list std_string) : list std_string :=
  let array := map (fun cbuffer => trim_newlines (c_str cbuffer)) lines in
  match rev array with
  | [] :: _ => removelast array
  | _ => array
  end.

(** The lines of a document, each with its line end: a line ends after
    LF, after CR LF, or after a CR that no LF follows; the last line has
    no line end and may be empty. *)
Fixpoint doc_lines_from (line : std_string) (text : std_string)
  : list std_string :=
  match text with
  | [] => [rev line]
  | c :: rest =>
      if Strings.Byte.eqb c Byte.x0a then
        rev (c :: line) :: doc_lines_from [] rest
      else if Strings.Byte.eqb c Byte.x0d then
        match rest with
        | c' :: rest' =>
            if Strings.Byte.eqb c' Byte.x0a then
              rev (c' :: c :: line) :: doc_lines_from [] rest'
            else rev (c :: line) :: doc_lines_from [] rest
        | [] => rev (c :: line) :: doc_lines_from [] rest
        end
      else doc_lines_from (c :: line) rest
  end.

Definition doc_lines (text : std_string) : list std_string :=
  doc_lines_from [] text.

(** ** The page *)

(** [sel] is [m_parent->GetPageIndex(this)]; the second component is
    the call of [SetPageText], if one is made. *)
Definition ChangeModified (p : SourceViewPage) (sel : option nat)
    (modified : bool) : SourceViewPage * option (nat * wxString) :=
  if negb (m_initialized p) || Bool.eqb modified (m_wasTitleChanged p) then
    (p, None)
  else
    match sel with
    | Some i =>
        (set_wasTitleChanged p modified,
         Some (i, if modified then m_title p ++ [Byte.x2a] else m_title p))
    | None => (p, None)
    end.

Definition OnModified (p : SourceViewPage) (sel : option nat)
    (modificationType : Z) : SourceViewPage * option (nat * wxString) :=
  if negb (Z.land modificationType
             (Z.lor wxSCI_MOD_INSERTTEXT wxSCI_MOD_DELETETEXT) =? 0)
  then ChangeModified p sel true
  else (p, None).

(** The array is built and dropped ([SaveFile] is commented out). *)
Definition SaveSource (p : SourceViewPage) (sel : option nat)
    (lines : list std_string) : SourceViewPage * option (nat * wxString) :=
  match m_path p with
  | [] => (p, None)
  | _ :: _ =>
      let array := SaveSource_array lines in
      ChangeModified p sel false
  end.

Definition OnKeyDown (p : SourceViewPage) (sel : option nat)
    (ControlDown : bool) (KeyCode : Z) (lines : list std_string)
  : SourceViewPage * option (nat * wxString) :=
  if ControlDown && (KeyCode =? 83) then SaveSource p sel lines
  else (p, None).

Definition SetLineSelection (p : SourceViewPage) (line : Z) :=
  if line <=? 0 then p
  else
    call p (Call_SetSelection (PositionFromLine (line - 1))
              (GetLineEndPosition (line - 1))).

Section Widget.

(** Whether the widget, as the page has it, accepts a marker on a
    line. *)
Variable accepts_marker : SourceViewPage -> Z -> bool.

Definition MarkerAdd (p : SourceViewPage) (line markerNumber : Z) :=
  if accepts_marker p line then
    set_markers p (sci_markers p ++ [(line, markerNumber)])
  else p.

Definition SetCurrentLine (p : SourceViewPage) (line : Z)
    (isCurrentRunning : bool) : SourceViewPage :=
  let p1 :=
    if isCurrentRunning && (0 <=? m_currentLine p) then
      set_currentLine (MarkerDelete p (m_currentLine p) MARKNUM_RUNNING) (-1)
    else p in
  let p2 :=
    if 0 <=? m_markedLine p1 then
      set_markedLine (MarkerDeleteAll p1 MARKNUM_BACKTRACE) (-1)
    else p1 in
  let '(p3, line) :=
    if 0 <? line then
      let line := line - 1 in
      let p := call p2 (Call_EnsureVisible line) in
      let pos := PositionFromLine line in
      let p := call p (Call_SetSelection pos pos) in
      (if isCurrentRunning then MarkerAdd p line MARKNUM_RUNNING
       else MarkerAdd p line MARKNUM_BACKTRACE, line)
    else (p2, line) in
  if isCurrentRunning then set_currentLine p3 line
  else set_markedLine p3 line.

Definition OnChangedBreakpoints (p : SourceViewPage)
    (bps : list Breakpoint) : SourceViewPage :=
  fold_left
    (fun p bp => MarkerAdd p (Breakpoint_GetLine bp) MARKNUM_BREAKPOINT)
    (breakpoints_of (GetKey p) bps)
    (MarkerDeleteAll p MARKNUM_BREAKPOINT).

Definition ChangeEnable (p : SourceViewPage) (enable : bool) :=
  if negb enable then SetCurrentLine p (-1) true else p.

(** [AddTextRaw] on a widget that is not read-only inserts the text and,
    when there is text, notifies [OnModified] of the insertion. *)
Definition AddTextRaw (p : SourceViewPage) (sel : option nat)
    (text : std_string) : SourceViewPage * option (nat * wxString) :=
  let p1 := call p (Call_AddTextRaw text) in
  match text with
  | [] => (p1, None)
  | _ :: _ =>
      if sci_read_only p then (p1, None)
      else OnModified p1 sel (Z.lor wxSCI_MOD_INSERTTEXT wxSCI_PERFORMED_USER)
  end.

Definition Initialize (p : SourceViewPage) (sel : option nat)
    (source : Source) (bps : list Breakpoint)
  : SourceViewPage * option (nat * wxString) :=
  let str := Initialize_text source in
  let '(p1, text) := AddTextRaw p sel (c_str str) in
  let p2 :=
    SetReadOnly p1
      (match Source_GetPath source with [] => true | _ :: _ => false end) in
  let p3 :=
    mkPage true (m_wasTitleChanged p2) (Source_GetKey source)
      (wxConvFromUTF8 (Source_GetTitle source))
      (wxConvFromUTF8 (Source_GetPath source))
      (-1) (m_markedLine p2)
      (sci_markers p2) (sci_read_only p2) (sci_calls p2) in
  (OnChangedBreakpoints p3 bps, text).

(** What can happen to a page: the calls of its public functions and
    the widget's events. *)
Inductive PageEvent :=
| P_SetCurrentLine (line : Z) (isCurrentRunning : bool)
| P_SetLineSelection (line : Z)
| P_OnChangedBreakpoints (bps : list Breakpoint)
| P_ChangeEnable (enable : bool)
| P_SaveSource (lines : list std_string)
| P_OnModified (modificationType : Z)
| P_OnKeyDown (ControlDown : bool) (KeyCode : Z) (lines : list std_string).

Definition page_event (sel : option nat) (ev : PageEvent)
    (p : SourceViewPage) : SourceViewPage * option (nat * wxString) :=
  match ev with
  | P_SetCurrentLine line running => (SetCurrentLine p line running, None)
  | P_SetLineSelection line => (SetLineSelection p line, None)
  | P_OnChangedBreakpoints bps => (OnChangedBreakpoints p bps, None)
  | P_ChangeEnable enable => (ChangeEnable p enable, None)
  | P_SaveSource lines => SaveSource p sel lines
  | P_OnModified type => OnModified p sel type
  | P_OnKeyDown ctrl key lines => OnKeyDown p sel ctrl key lines
  end.

Fixpoint page_events (sel : option nat) (evs : list PageEvent)
    (p : SourceViewPage) : SourceViewPage :=
  match evs with
  | [] => p
  | ev :: rest => page_events sel rest (fst (page_event sel ev p))
  end.

(** ** The notebook *)

Record SourceView := mkView {
  nb_pages : list (SourceViewPage * wxString);
  nb_selection : option nat
}.

Definition GetPageCount (v : SourceView) : nat := length (nb_pages v).

Definition GetPage (v : SourceView) (i : nat) : option SourceViewPage :=
  option_map fst (nth_error (nb_pages v) i).

Definition GetSelection (v : SourceView) : option nat := nb_selection v.

Fixpoint update_nth {A : Type} (i : nat) (f : A -> A) (l : list A)
  : list A :=
  match l, i with
  | [], _ => []
  | x :: rest, O => f x :: rest
  | x :: rest, S i' => x :: update_nth i' f rest
  end.

(** Writing back page [i] after a call on it. *)
Definition SetPage (v : SourceView) (i : nat) (p : SourceViewPage) :=
  mkView (update_nth i (fun t => (p, snd t)) (nb_pages v)) (nb_selection v).

Definition SetPageText (v : SourceView) (i : nat) (text : wxString) :=
  mkView (update_nth i (fun t => (fst t, text)) (nb_pages v))
    (nb_selection v).

Definition SetSelection (v : SourceView) (i : nat) :=
  if (i <? GetPageCount v)%nat then mkView (nb_pages v) (Some i) else v.

(** [AddPage(page, caption, true)]. *)
Definition AddPage (v : SourceView) (p : SourceViewPage) (caption : wxString) :=
  SetSelection (mkView (nb_pages v ++ [(p, caption)]) (nb_selection v))
    (GetPageCount v).

(** The loop of [FindPageFromKey], from index [i] with [n] rounds to
    go.  The notebook has a page for every index below [GetPageCount];
    in the loops over the pages the branch without a page stands for
    the null pointer the source would go through. *)
Fixpoint FindPageFromKey_loop (v : SourceView) (key : std_string)
    (n i : nat) : option nat :=
  match n with
  | O => None
  | S n' =>
      match GetPage v i with
      | Some page =>
          if string_eqb (GetKey page) key then Some i
          else FindPageFromKey_loop v key n' (S i)
      | None => None
      end
  end.

Definition FindPageFromKey (v : SourceView) (key : std_string) : option nat :=
  FindPageFromKey_loop v key (GetPageCount v) 0%nat.

Definition GetSelected (v : SourceView) : option SourceViewPage :=
  match GetSelection v with
  | None => None
  | Some sel => GetPage v sel
  end.

(** The new page is not yet a page of the notebook when it is
    initialized. *)
Definition CreatePage (v : SourceView) (source : Source)
    (bps : list Breakpoint) : SourceView :=
  let page := fst (Initialize SourceViewPage_new None source bps) in
  AddPage v page (GetTitle page).

Definition CreateGUIControls (v : SourceView) (sources : list Source)
    (bps : list Breakpoint) : SourceView :=
  fold_left (fun v source => CreatePage v source bps) sources v.

Definition SourceView_new (sources : list Source) (bps : list Breakpoint)
  : SourceView :=
  CreateGUIControls (mkView [] None) sources bps.

Definition OnChangedState (v : SourceView) (IsBreak : bool) : SourceView :=
  match GetSelection v with
  | None => v
  | Some sel =>
      match GetPage v sel with
      | Some page => SetPage v sel (ChangeEnable page IsBreak)
      | None => v
      end
  end.

Fixpoint OnUpdateSource_loop (key : std_string) (line : Z) (n i : nat)
    (v : SourceView) : SourceView :=
  match n with
  | O => v
  | S n' =>
      match GetPage v i with
      | Some page =>
          OnUpdateSource_loop key line n' (S i)
            (if string_eqb (GetKey page) key then
               SetSelection (SetPage v i (SetCurrentLine page line true)) i
             else SetPage v i (SetCurrentLine page (-1) true))
      | None => v
      end
  end.

Definition OnUpdateSource (v : SourceView) (key : std_string) (line : Z) :=
  OnUpdateSource_loop key line (GetPageCount v) 0%nat v.

Definition OnAddedSource (v : SourceView) (source : Source)
    (bps : list Breakpoint) : SourceView :=
  CreatePage v source bps.

Fixpoint View_OnChangedBreakpoints_loop (bps : list Breakpoint) (n i : nat)
    (v : SourceView) : SourceView :=
  match n with
  | O => v
  | S n' =>
      match GetPage v i with
      | Some page =>
          View_OnChangedBreakpoints_loop bps n' (S i)
            (SetPage v i (OnChangedBreakpoints page bps))
      | None => v
      end
  end.

Definition View_OnChangedBreakpoints (v : SourceView)
    (bps : list Breakpoint) : SourceView :=
  View_OnChangedBreakpoints_loop bps (GetPageCount v) 0%nat v.

Fixpoint OnShowSourceLine_loop (key : std_string) (line : Z) (n i : nat)
    (v : SourceView) : SourceView :=
  match n with
  | O => v
  | S n' =>
      match GetPage v i with
      | Some page =>
          if string_eqb (GetKey page) key then
            SetSelection (SetPage v i (SetLineSelection page line)) i
          else OnShowSourceLine_loop key line n' (S i) v
      | None => v
      end
  end.

Definition OnShowSourceLine (v : SourceView) (key : std_string) (line : Z) :=
  OnShowSourceLine_loop key line (GetPageCount v) 0%nat v.

(** An event of the widget of page [i], handled by the page. *)
Definition on_page (v : SourceView) (i : nat) (ev : PageEvent) : SourceView :=
  match GetPage v i with
  | None => v
  | Some page =>
      let '(page1, text) := page_event (Some i) ev page in
      let v1 := SetPage v i page1 in
      match text with
      | Some (sel, t) => SetPageText v1 sel t
      | None => v1
      end
  end.

Inductive ViewEvent :=
| V_OnChangedState (IsBreak : bool)
| V_OnUpdateSource (key : std_string) (line : Z)
| V_OnAddedSource (source : Source) (bps : list Breakpoint)
| V_OnChangedBreakpoints (bps : list Breakpoint)
| V_OnShowSourceLine (key : std_string) (line : Z)
| V_on_page (i : nat) (ev : PageEvent).

Definition view_event (ev : ViewEvent) (v : SourceView) : SourceView :=
  match ev with
  | V_OnChangedState b => OnChangedState v b
  | V_OnUpdateSource key line => OnUpdateSource v key line
  | V_OnAddedSource source bps => OnAddedSource v source bps
  | V_OnChangedBreakpoints bps => View_OnChangedBreakpoints v bps
  | V_OnShowSourceLine key line => OnShowSourceLine v key line
  | V_on_page i ev => on_page v i ev
  end.

Definition view_events (evs : list ViewEvent) (v : SourceView) : SourceView :=
  fold_left (fun v ev => view_event ev v) evs v.

End Widget.

(** ** Vocabulary for the source view *)

(** The lines that carry a marker of a number, one entry per marker. *)
Definition marked (markerNumber : Z) (p : SourceViewPage) : list Z :=
  map fst (filter (fun m => snd m =? markerNumber) (sci_markers p)).

(** At most one marker of the number, and then on line [line]. *)
Definition at_most_on (markerNumber : Z) (line : Z) (p : SourceViewPage)
  : Prop :=
  marked markerNumber p = [] \/ (0 <= line /\ marked markerNumber p = [line]).

Definition markers_invariant (p : SourceViewPage) : Prop :=
  at_most_on MARKNUM_RUNNING (m_currentLine p) p /\
  at_most_on MARKNUM_BACKTRACE (m_markedLine p) p.

(** A line of text as a source holds it: no NUL and no line end. *)
Definition plain (line : std_string) : Prop :=
  Forall (fun c => c <> Byte.x00 /\ is_newline c = false) line.

(** The tab of a page shows its title, with a star while the page counts
    as modified. *)
Definition tab_shows_title (t : SourceViewPage * wxString) : Prop :=
  snd t =
  if m_wasTitleChanged (fst t) then m_title (fst t) ++ [Byte.x2a]
  else m_title (fst t).

(** What holds of every tab of the notebook. *)
Definition tab_invariant (t : SourceViewPage * wxString) : Prop :=
  markers_invariant (fst t) /\ tab_shows_title t /\
  m_initialized (fst t) = true.

(** A widget that takes markers on the first hundred lines. *)
Definition hundred_lines (p : SourceViewPage) (line : Z) : bool :=
  (0 <=? line) && (line <? 100).

Definition src_main : Source :=
  mkSource [Byte.x6d] [Byte.x6d; Byte.x61; Byte.x69; Byte.x6e]
    [Byte.x2f; Byte.x6d]
    [[Byte.x61; Byte.x3d; Byte.x31]; [Byte.x62; Byte.x3d; Byte.x32]; []].

Definition src_chunk : Source :=
  mkSource [Byte.x63] [Byte.x63; Byte.x68] [] [[Byte.x78]].

(** * Properties *)

(** ** Fixed-width conversions *)

Lemma to_uint32_range (z : Z) : is_uint32 (to_uint32 z).
Proof.
  unfold is_uint32, to_uint32, uint32_modulus.
  apply Z.mod_pos_bound. lia.
Qed.

Lemma to_uint32_small (z : Z) : is_uint32 z -> to_uint32 z = z.
Proof.
  unfold is_uint32, to_uint32. intros H. now apply Z.mod_small.
Qed.

(** A [uint32_t] passed through an [int] parameter and stored back in a
    [uint32_t] is unchanged. *)
Lemma to_uint32_to_int (z : Z) : to_uint32 (to_int z) = to_uint32 z.
Proof.
  unfold to_uint32, to_int, uint32_modulus.
  rewrite Zminus_mod_idemp_l.
  f_equal. lia.
Qed.

Lemma to_int_zero (z : Z) : is_uint32 z -> (to_int z =? 0) = (z =? 0).
Proof.
  unfold is_uint32, to_int, uint32_modulus. intros H.
  destruct (Z.eqb_spec z 0) as [->|Hz]; [reflexivity|].
  apply Z.eqb_neq.
  destruct (Z_lt_le_dec z (2 ^ 31)) as [Hlt|Hge].
  - rewrite Z.mod_small by lia. lia.
  - replace (z + 2 ^ 31) with ((z - 2 ^ 31) + 1 * 2 ^ 32) by lia.
    rewrite Z.mod_add by lia.
    rewrite Z.mod_small by lia. lia.
Qed.

Lemma to_uint32_parity (z : Z) : Z.odd (to_uint32 z) = Z.odd z.
Proof.
  unfold to_uint32, uint32_modulus.
  rewrite (Z.div_mod z (2 ^ 32)) at 2 by lia.
  replace (2 ^ 32 * (z / 2 ^ 32) + z mod 2 ^ 32)
    with (z mod 2 ^ 32 + 2 * (2 ^ 31 * (z / 2 ^ 32))) by lia.
  now rewrite Z.odd_add_mul_2.
Qed.

(** ** Receiving a command: [HandleReadCommand] *)

Lemma matches_same_pair (command : RemoteCommand) (w : WaitResponseCommand) :
  matches command w = true <-> same_pair command w.
Proof.
  unfold matches, same_pair. rewrite andb_true_iff, !Z.eqb_eq.
  split.
  - intros [-> ->]. reflexivity.
  - intros H. injection H as H1 H2. now split.
Qed.

Lemma matches_not_same_pair (command : RemoteCommand)
  (w : WaitResponseCommand) :
  matches command w = false <-> ~ same_pair command w.
Proof.
  rewrite <- matches_same_pair. destruct (matches command w); split;
    intros H; try discriminate; try reflexivity; congruence.
Qed.

(** The search either finds nothing and keeps the list, or splits the
    list at the first entry with the command's pair. *)
Lemma find_response_spec (command : RemoteCommand)
  (l : list WaitResponseCommand) :
  (Forall (fun w => ~ same_pair command w) l
   /\ find_response command l = (command, l))
  \/ (exists l1 w l2,
        l = l1 ++ w :: l2
        /\ Forall (fun x => ~ same_pair command x) l1
        /\ same_pair command w
        /\ find_response command l
           = (SetResponse command (wait_response w), l1 ++ l2)).
Proof.
  induction l as [|w l IH]; simpl.
  - left. split; [constructor | reflexivity].
  - destruct (matches command w) eqn:Hm.
    + right. exists [], w, l. simpl.
      repeat split; try constructor. now apply matches_same_pair.
    + apply matches_not_same_pair in Hm.
      destruct IH as [[Hall Heq] | (l1 & x & l2 & Hl & Hall & Hx & Heq)].
      * left. rewrite Heq. split; [now constructor | reflexivity].
      * right. exists (w :: l1), x, l2. rewrite Heq. subst l. simpl.
        repeat split; try assumption. now constructor.
Qed.

Lemma SetCtxId_ctxId (e : RemoteEngine) (c : Z) : m_ctxId (SetCtxId e c) = c.
Proof.
  unfold SetCtxId. destruct (Z.eqb_spec (m_ctxId e) c); simpl; congruence.
Qed.

Lemma SetCtxId_counter (e : RemoteEngine) (c : Z) :
  m_commandIdCounter (SetCtxId e c) = m_commandIdCounter e.
Proof. unfold SetCtxId. now destruct (negb (m_ctxId e =? c)). Qed.

Lemma SetCtxId_waits (e : RemoteEngine) (c : Z) :
  m_waitResponseCommandList (SetCtxId e c) = m_waitResponseCommandList e.
Proof. unfold SetCtxId. now destruct (negb (m_ctxId e =? c)). Qed.

Lemma SetCtxId_queue (e : RemoteEngine) (c : Z) :
  m_readCommandQueue (SetCtxId e c) = m_readCommandQueue e.
Proof. unfold SetCtxId. now destruct (negb (m_ctxId e =? c)). Qed.

Lemma SetCtxId_socket (e : RemoteEngine) (c : Z) :
  m_socket (SetCtxId e c) = m_socket e.
Proof. unfold SetCtxId. now destruct (negb (m_ctxId e =? c)). Qed.

Lemma SetCtxId_ids (e : RemoteEngine) (c : Z) :
  allocated_ids (SetCtxId e c) = allocated_ids e.
Proof. unfold SetCtxId. now destruct (negb (m_ctxId e =? c)). Qed.

Create Rewrite HintDb engine.
#[local] Hint Rewrite SetCtxId_ctxId SetCtxId_counter SetCtxId_waits
  SetCtxId_queue SetCtxId_socket SetCtxId_ids : engine.

(** [HandleReadCommand], field by field, in terms of the search result. *)
Lemma HandleReadCommand_fields (e : RemoteEngine) (command_ : RemoteCommand) :
  let found := find_response command_ (m_waitResponseCommandList e) in
  let e' := HandleReadCommand e command_ in
  m_waitResponseCommandList e' = snd found
  /\ m_readCommandQueue e' = m_readCommandQueue e ++ [fst found]
  /\ m_ctxId e' = ctxId_after e command_
  /\ m_commandIdCounter e' = m_commandIdCounter e
  /\ allocated_ids e' = allocated_ids e
  /\ m_socket e' = m_socket e.
Proof.
  unfold HandleReadCommand, ctxId_after.
  destruct (find_response_spec command_ (m_waitResponseCommandList e))
    as [[_ Heq] | (l1 & w & l2 & _ & _ & _ & Heq)]; rewrite Heq; simpl.
  - unfold GetType.
    destruct (type (header command_)); simpl;
      try destruct (m_ctxId e <? 0); simpl;
      autorewrite with engine; simpl; repeat split; reflexivity.
  - unfold GetType, GetCtxId. simpl.
    destruct (type (header command_)); simpl;
      try destruct (m_ctxId e <? 0); simpl;
      autorewrite with engine; simpl; repeat split; reflexivity.
Qed.

(** C3. On receipt of a command the list of commands waiting for a
    response is walked in order. Either an entry carries the command's
    (ctxId, commandId) pair: then the first such entry, and only it, is
    removed, its callback is attached to the command, and the command is
    appended to the queue of received commands. Or no entry does: then the
    list is kept as it is and the command is appended to the queue all the
    same, unchanged. *)
Theorem HandleReadCommand_first_match
  (e : RemoteEngine) (command : RemoteCommand) :
  let e' := HandleReadCommand e command in
  (exists l1 w l2,
      m_waitResponseCommandList e = l1 ++ w :: l2
      /\ Forall (fun x => ~ same_pair command x) l1
      /\ same_pair command w
      /\ m_waitResponseCommandList e' = l1 ++ l2
      /\ m_readCommandQueue e'
         = m_readCommandQueue e
             ++ [SetResponse command (wait_response w)])
  \/ (Forall (fun x => ~ same_pair command x) (m_waitResponseCommandList e)
      /\ m_waitResponseCommandList e' = m_waitResponseCommandList e
      /\ m_readCommandQueue e' = m_readCommandQueue e ++ [command]).
Proof.
  intros e'.
  destruct (HandleReadCommand_fields e command) as (Hw & Hq & _).
  fold e' in Hw, Hq.
  destruct (find_response_spec command (m_waitResponseCommandList e))
    as [[Hall Heq] | (l1 & w & l2 & Hl & Hall & Hx & Heq)];
    rewrite Heq in Hw, Hq; simpl in Hw, Hq.
  - right. auto.
  - left. exists l1, w, l2. auto.
Qed.

(** Two entries with the pair (7, 5): the first is taken, the second
    stays. *)
Example HandleReadCommand_duplicate_pair :
  let w1 := mkWait (mkHeader REMOTECOMMANDTYPE_EVAL 7 3 0) 10%nat in
  let w2 := mkWait (mkHeader REMOTECOMMANDTYPE_EVAL 7 5 0) 11%nat in
  let w3 := mkWait (mkHeader REMOTECOMMANDTYPE_EVAL 7 5 0) 12%nat in
  let e :=
    set_waitResponseCommandList (set_ctxId RemoteEngine_new 7) [w1; w2; w3] in
  let reply :=
    mkCommand (mkHeader REMOTECOMMANDTYPE_VALUE_STRING 7 5 0) [] None in
  let e' := HandleReadCommand e reply in
  m_waitResponseCommandList e' = [w1; w3]
  /\ m_readCommandQueue e' = [SetResponse reply 11%nat].
Proof. split; reflexivity. Qed.

(** A reply nobody waits for is queued like any other command. *)
Example HandleReadCommand_unsolicited :
  let w1 := mkWait (mkHeader REMOTECOMMANDTYPE_EVAL 7 3 0) 10%nat in
  let e := set_waitResponseCommandList (set_ctxId RemoteEngine_new 7) [w1] in
  let reply :=
    mkCommand (mkHeader REMOTECOMMANDTYPE_VALUE_STRING 7 9 0) [] None in
  let e' := HandleReadCommand e reply in
  m_waitResponseCommandList e' = [w1] /\ m_readCommandQueue e' = [reply].
Proof. split; reflexivity. Qed.

(** C6. A received START_CONNECTION sets the context id to the command's
    ctxId; a received END_CONNECTION sets it to -1, the value of an engine
    that has none; any other command, received while the context id is
    negative, makes the command's ctxId the context id. *)
Theorem HandleReadCommand_ctxId (e : RemoteEngine) (command : RemoteCommand) :
  (GetType command = REMOTECOMMANDTYPE_START_CONNECTION ->
   m_ctxId (HandleReadCommand e command) = GetCtxId command)
  /\ (GetType command = REMOTECOMMANDTYPE_END_CONNECTION ->
      m_ctxId (HandleReadCommand e command) = -1
      /\ m_ctxId RemoteEngine_new = -1)
  /\ (GetType command <> REMOTECOMMANDTYPE_START_CONNECTION ->
      GetType command <> REMOTECOMMANDTYPE_END_CONNECTION ->
      m_ctxId e < 0 ->
      m_ctxId (HandleReadCommand e command) = GetCtxId command).
Proof.
  destruct (HandleReadCommand_fields e command) as (_ & _ & Hc & _).
  rewrite Hc. unfold ctxId_after.
  split; [|split].
  - intros ->. reflexivity.
  - intros ->. split; reflexivity.
  - intros Hs He Hneg.
    apply Z.ltb_lt in Hneg. rewrite Hneg.
    destruct (GetType command); congruence.
Qed.

Lemma HandleReadCommand_ctxId_witness :
  let e := RemoteEngine_new in
  let start := mkCommand (mkHeader REMOTECOMMANDTYPE_START_CONNECTION 7 1 0)
                 [] None in
  let stop := mkCommand (mkHeader REMOTECOMMANDTYPE_END_CONNECTION 7 9 0)
                [] None in
  let other := mkCommand (mkHeader REMOTECOMMANDTYPE_CHANGED_STATE 4 3 0)
                 [] None in
  m_ctxId (HandleReadCommand e start) = 7
  /\ m_ctxId (HandleReadCommand (HandleReadCommand e start) stop) = -1
  /\ m_ctxId (HandleReadCommand e other) = 4.
Proof.
  intros e start stop other.
  split; [|split].
  - apply (proj1 (HandleReadCommand_ctxId e start)). reflexivity.
  - apply (proj1 (proj2 (HandleReadCommand_ctxId
                           (HandleReadCommand e start) stop))).
    reflexivity.
  - apply (proj2 (proj2 (HandleReadCommand_ctxId e other)));
      simpl; [discriminate | discriminate | lia].
Defined.

(** ** The two example sessions *)

Example server_start_ok : server_start = Some (0, server_session).
Proof. vm_compute. reflexivity. Qed.

Example server_session_state :
  m_ctxId server_session = 7
  /\ m_commandIdCounter server_session = 3
  /\ allocated_ids server_session = [1]
  /\ Engine_IsConnected server_session = true.
Proof. vm_compute. repeat split; reflexivity. Qed.

Example client_start_ok : client_start = Some (0, client_session).
Proof. vm_compute. reflexivity. Qed.

Example client_session_state :
  m_ctxId client_session = 7
  /\ m_commandIdCounter client_session = 2
  /\ allocated_ids client_session = []
  /\ Engine_IsConnected client_session = true.
Proof. vm_compute. repeat split; reflexivity. Qed.

(** ** Building headers and sending *)

Lemma InitCommandHeader_new (e : RemoteEngine) (t : RemoteCommandType)
  (d : Z) :
  InitCommandHeader e t d 0
  = (mkHeader t (m_ctxId e) (m_commandIdCounter e) (to_uint32 d),
     log_allocated
       (set_commandIdCounter e (to_uint32 (m_commandIdCounter e + 2)))
       (m_commandIdCounter e)).
Proof. reflexivity. Qed.

Lemma InitCommandHeader_given (e : RemoteEngine) (t : RemoteCommandType)
  (d c : Z) :
  c <> 0 ->
  InitCommandHeader e t d c
  = (mkHeader t (m_ctxId e) (to_uint32 c) (to_uint32 d), e).
Proof.
  intros Hc. unfold InitCommandHeader.
  apply Z.eqb_neq in Hc. now rewrite Hc.
Qed.

(** Whatever the command id asked for, the header carries the engine's
    context id, and only the counter and its history may change. *)
Lemma InitCommandHeader_frame (e : RemoteEngine) (t : RemoteCommandType)
  (d c : Z) :
  let r := InitCommandHeader e t d c in
  ctxId (fst r) = m_ctxId e
  /\ type (fst r) = t
  /\ m_ctxId (snd r) = m_ctxId e
  /\ m_socket (snd r) = m_socket e
  /\ m_waitResponseCommandList (snd r) = m_waitResponseCommandList e
  /\ m_readCommandQueue (snd r) = m_readCommandQueue e.
Proof.
  unfold InitCommandHeader. destruct (c =? 0); simpl; repeat split.
Qed.

(** A header built for a new command, or around a given command id,
    either takes the counter's value and moves the counter on by 2, or
    leaves the counter alone. *)
Lemma InitCommandHeader_counter (e : RemoteEngine) (t : RemoteCommandType)
  (d c : Z) :
  let r := InitCommandHeader e t d c in
  (m_commandIdCounter (snd r) = m_commandIdCounter e
   /\ allocated_ids (snd r) = allocated_ids e)
  \/ (m_commandIdCounter (snd r) = to_uint32 (m_commandIdCounter e + 2)
      /\ allocated_ids (snd r) = allocated_ids e ++ [m_commandIdCounter e]).
Proof.
  unfold InitCommandHeader. destruct (c =? 0); simpl; auto.
Qed.

Lemma socket_Write_some (e : RemoteEngine) (s : SocketBase)
  (h : RemoteCommandHeader) (d : RemoteCommandData) :
  m_socket e = Some s ->
  socket_Write e h d = Some (set_socket e (Some (Write s h d))).
Proof. unfold socket_Write. now intros ->. Qed.

Lemma socket_Write_inv (e e' : RemoteEngine) (h : RemoteCommandHeader)
  (d : RemoteCommandData) :
  socket_Write e h d = Some e' ->
  exists s, m_socket e = Some s /\ e' = set_socket e (Some (Write s h d)).
Proof.
  unfold socket_Write. destruct (m_socket e) as [s|]; [|discriminate].
  intros H. injection H as <-. now exists s.
Qed.

(** The effect of an event on the engine is the delivery of a command to
    [HandleReadCommand], or nothing. *)
Lemma poll_one_engine (ev : Event) (e : RemoteEngine) (s : SocketBase) :
  fst (poll_one ev (e, s))
  = match delivered ev s with
    | Some c => HandleReadCommand e c
    | None => e
    end.
Proof.
  unfold poll_one, delivered.
  destruct ev as [|err|h err|d err|err|err]; simpl.
  - reflexivity.
  - now destruct (writes_in_flight s).
  - destruct (reads_in_flight s) as [|[|c] rest]; try now destruct err.
    destruct err; simpl; [reflexivity|].
    unfold GetDataSize; simpl.
    now destruct (dataSize h >? 0).
  - destruct (reads_in_flight s) as [|[|c] rest]; now destruct err.
  - now destruct (accepts_in_flight s).
  - now destruct (connects_in_flight s).
Qed.

(** The reads in flight after an event: the completed one is gone, and
    what is added is a header read, or the payload read of the command
    whose header has just arrived. *)
Lemma poll_one_reads (ev : Event) (e : RemoteEngine) (s : SocketBase) :
  let s' := snd (poll_one ev (e, s)) in
  reads_in_flight s' = reads_in_flight s
  \/ reads_in_flight s' = reads_in_flight s ++ [ReadHeader]
  \/ reads_in_flight s' = tl (reads_in_flight s)
  \/ reads_in_flight s' = tl (reads_in_flight s) ++ [ReadHeader]
  \/ (exists h err,
         ev = Ev_header_read h err
         /\ reads_in_flight s'
            = tl (reads_in_flight s) ++ [ReadData (mkCommand h [] None)]).
Proof.
  destruct s as [ic so q p wf wi rf af cf].
  unfold poll_one.
  destruct ev as [|err|h err|d err|err|err]; simpl.
  - unfold run_posted; simpl. destruct p as [|[c| |] rest]; simpl; auto.
    + unfold doWrite; simpl.
      destruct q; simpl; auto.
      unfold asyncWrite. destruct (GetDataSize c =? 0); simpl; auto.
    + unfold connected; simpl. destruct ic; simpl; auto.
  - destruct wf as [|w rest]; simpl; auto.
    unfold handleWrite.
    destruct err; simpl; auto.
    destruct (deleteCommand w); simpl; auto.
    destruct (tl q) as [|c q']; simpl; auto.
    unfold asyncWrite. destruct (GetDataSize c =? 0); simpl; auto.
  - destruct rf as [|[|c] rest]; simpl; auto.
    destruct err; simpl; auto.
    unfold GetDataSize, GetCtxId; simpl.
    destruct (dataSize h >? 0); destruct (ctxId h <? 0); simpl; auto;
      right; right; right; right; exists h, false; auto.
  - destruct rf as [|[|c] rest]; simpl; auto.
    destruct err; simpl; auto.
  - destruct af; simpl; auto.
    destruct err; simpl; auto.
  - destruct cf; simpl; auto.
    destruct err; simpl; auto.
Qed.

Lemma service_unfold (ev : Event) (e : RemoteEngine) (s : SocketBase) :
  m_socket e = Some s ->
  service ev e
  = set_socket
      (match delivered ev s with
       | Some c => HandleReadCommand e c
       | None => e
       end)
      (Some (snd (poll_one ev (e, s)))).
Proof.
  intros Hs. unfold service. rewrite Hs.
  rewrite <- poll_one_engine.
  now destruct (poll_one ev (e, s)).
Qed.

(** The service thread never touches the counter. *)
Lemma service_counter (ev : Event) (e : RemoteEngine) :
  m_commandIdCounter (service ev e) = m_commandIdCounter e
  /\ allocated_ids (service ev e) = allocated_ids e.
Proof.
  destruct (m_socket e) as [s|] eqn:Hs.
  - rewrite (service_unfold ev e s Hs). simpl.
    destruct (delivered ev s) as [c|]; [|auto].
    destruct (HandleReadCommand_fields e c) as (_ & _ & _ & Hc & Hi & _).
    auto.
  - unfold service. rewrite Hs. auto.
Qed.

Lemma service_all_counter (evs : list Event) (e : RemoteEngine) :
  m_commandIdCounter (service_all evs e) = m_commandIdCounter e
  /\ allocated_ids (service_all evs e) = allocated_ids e.
Proof.
  revert e. induction evs as [|ev evs IH]; intros e; simpl; [auto|].
  destruct (IH (service ev e)) as [H1 H2].
  destruct (service_counter ev e) as [H3 H4].
  unfold service_all in *. simpl. split; congruence.
Qed.

(** One action leaves the counter alone or takes one value from it. *)
Lemma act_counter (a : Action) (e e' : RemoteEngine) :
  act a e = Some e' ->
  (m_commandIdCounter e' = m_commandIdCounter e
   /\ allocated_ids e' = allocated_ids e)
  \/ (m_commandIdCounter e' = to_uint32 (m_commandIdCounter e + 2)
      /\ allocated_ids e' = allocated_ids e ++ [m_commandIdCounter e]).
Proof.
  destruct a as [t d|t d r|c t d| |ev]; simpl.
  - unfold WriteCommand.
    pose proof (InitCommandHeader_counter e t (GetSize d) 0) as Hc.
    destruct (InitCommandHeader e t (GetSize d) 0) as [h e1]. simpl in Hc.
    intros H. apply socket_Write_inv in H. destruct H as (s & _ & ->).
    exact Hc.
  - unfold WriteCommand_response.
    pose proof (InitCommandHeader_counter e t (GetSize d) 0) as Hc.
    destruct (InitCommandHeader e t (GetSize d) 0) as [h e1]. simpl in Hc.
    destruct (socket_Write e1 h d) as [e2|] eqn:Hw; [|discriminate].
    intros H. injection H as <-.
    apply socket_Write_inv in Hw. destruct Hw as (s & _ & ->).
    exact Hc.
  - unfold WriteResponse.
    pose proof (InitCommandHeader_counter e t (GetSize d)
                  (to_int (GetCommandId c))) as Hc.
    destruct (InitCommandHeader e t (GetSize d) (to_int (GetCommandId c)))
      as [h e1]. simpl in Hc.
    intros H. apply socket_Write_inv in H. destruct H as (s & _ & ->).
    exact Hc.
  - intros H. injection H as <-. auto.
  - intros H. injection H as <-. left. apply service_counter.
Qed.

Lemma nth_id_zero (seed : Z) : is_uint32 seed -> nth_id seed 0 = seed.
Proof.
  intros H. unfold nth_id. simpl. rewrite Z.add_0_r.
  now apply to_uint32_small.
Qed.

Lemma nth_id_succ (seed : Z) (i : nat) :
  nth_id seed (S i) = nth_id (to_uint32 (seed + 2)) i.
Proof.
  unfold nth_id, to_uint32.
  rewrite Zplus_mod_idemp_l. f_equal. lia.
Qed.

Lemma ids_from_succ (seed : Z) (n : nat) :
  is_uint32 seed ->
  ids_from seed (S n) = seed :: ids_from (to_uint32 (seed + 2)) n.
Proof.
  intros H. unfold ids_from. simpl.
  rewrite (nth_id_zero seed H). f_equal.
  rewrite <- seq_shift, map_map.
  apply map_ext. intros i. apply nth_id_succ.
Qed.

(** The values taken from the counter during a run are the next values
    of the sequence seed, seed + 2, seed + 4, ... (modulo 2^32). *)
Lemma run_ids (acts : list Action) (e e' : RemoteEngine) :
  is_uint32 (m_commandIdCounter e) ->
  run acts e = Some e' ->
  exists n,
    allocated_ids e' = allocated_ids e ++ ids_from (m_commandIdCounter e) n
    /\ m_commandIdCounter e' = nth_id (m_commandIdCounter e) n.
Proof.
  revert e. induction acts as [|a acts IH]; intros e Hr; simpl.
  - intros H. injection H as <-. exists 0%nat. simpl.
    rewrite app_nil_r. split; [reflexivity|].
    symmetry. now apply nth_id_zero.
  - destruct (act a e) as [e1|] eqn:Ha; [|discriminate].
    intros Hrun.
    destruct (act_counter a e e1 Ha) as [[Hc Hi]|[Hc Hi]].
    + rewrite <- Hc, <- Hi. apply IH; [congruence | exact Hrun].
    + assert (Hr1 : is_uint32 (m_commandIdCounter e1))
        by (rewrite Hc; apply to_uint32_range).
      destruct (IH e1 Hr1 Hrun) as (n & Hids & Hcnt).
      exists (S n). rewrite (ids_from_succ _ n Hr), nth_id_succ.
      rewrite Hids, Hcnt, Hi, Hc, <- app_assoc. now split.
Qed.

Lemma nth_id_parity (seed : Z) (i : nat) : Z.odd (nth_id seed i) = Z.odd seed.
Proof.
  unfold nth_id. rewrite to_uint32_parity.
  apply Z.odd_add_mul_2.
Qed.

Lemma in_ids_from (seed : Z) (n : nat) (x : Z) :
  In x (ids_from seed n) -> exists i, (i < n)%nat /\ x = nth_id seed i.
Proof.
  unfold ids_from. rewrite in_map_iff.
  intros (i & <- & Hi). apply in_seq in Hi. exists i. split; [lia|reflexivity].
Qed.

(** Two of the first 2^31 values of a counter are different. *)
Lemma nth_id_inj (seed : Z) (i j : nat) :
  Z.of_nat i < 2 ^ 31 -> Z.of_nat j < 2 ^ 31 ->
  nth_id seed i = nth_id seed j -> i = j.
Proof.
  unfold nth_id, to_uint32, uint32_modulus. intros Hi Hj Heq.
  assert (Hd : (2 * Z.of_nat i - 2 * Z.of_nat j) mod 2 ^ 32 = 0).
  { replace (2 * Z.of_nat i - 2 * Z.of_nat j)
      with ((seed + 2 * Z.of_nat i) - (seed + 2 * Z.of_nat j)) by lia.
    rewrite Zminus_mod, Heq, Z.sub_diag. reflexivity. }
  apply Z.mod_divide in Hd; [|lia].
  destruct Hd as [k Hk].
  assert (k = 0) by lia. lia.
Qed.

Lemma ids_from_NoDup (seed : Z) (n : nat) :
  Z.of_nat n <= 2 ^ 31 -> NoDup (ids_from seed n).
Proof.
  intros Hn. unfold ids_from.
  apply NoDup_map_NoDup_ForallPairs; [|apply seq_NoDup].
  intros i j Hi Hj Heq. apply in_seq in Hi, Hj.
  apply (nth_id_inj seed); [lia | lia | exact Heq].
Qed.

(** ** The seeds: [StartContext] and [StartFrame] *)

Lemma poll_one_opt_counter (r : option Event)
  (es : RemoteEngine * SocketBase) :
  m_commandIdCounter (fst (poll_one_opt r es)) = m_commandIdCounter (fst es)
  /\ allocated_ids (fst (poll_one_opt r es)) = allocated_ids (fst es).
Proof.
  destruct es as [e s]. destruct r as [ev|]; unfold poll_one_opt; [|auto].
  rewrite poll_one_engine. cbn [fst].
  destruct (delivered ev s) as [c|]; [|auto].
  destruct (HandleReadCommand_fields e c) as (_ & _ & _ & Hc & Hi & _).
  auto.
Qed.

Lemma wait_connected_counter (end_ : xtime) (ticks : list Tick)
  (es : RemoteEngine * SocketBase) :
  let r := wait_connected end_ ticks es in
  m_commandIdCounter (fst (snd r)) = m_commandIdCounter (fst es)
  /\ allocated_ids (fst (snd r)) = allocated_ids (fst es).
Proof.
  revert es. induction ticks as [|t ticks IH]; intros es; simpl.
  - destruct (negb (IsConnected (snd es))); simpl; auto.
  - destruct (negb (IsConnected (snd es))); simpl; auto.
    destruct (xtime_cmp (now t) end_ >=? 0); simpl; auto.
    destruct (IH (poll_one_opt (ready t) es)) as [H1 H2].
    destruct (poll_one_opt_counter (ready t) es) as [H3 H4].
    split; congruence.
Qed.

Lemma wait_ctxId_counter (during_wait : list Event) (e : RemoteEngine) :
  m_commandIdCounter (snd (wait_ctxId during_wait e)) = m_commandIdCounter e
  /\ allocated_ids (snd (wait_ctxId during_wait e)) = allocated_ids e.
Proof.
  unfold wait_ctxId.
  destruct (m_ctxId e <? 0); simpl; [|auto].
  destruct (m_ctxId (service_all during_wait e) <? 0); simpl;
    apply service_all_counter.
Qed.

(** A server that has started has sent its START_CONNECTION with command
    id 1 and will give 3 to its next command. *)
Lemma StartContext_seed (e es : RemoteEngine) (ctxId waitSeconds rc : Z)
  (start : xtime) (ticks : list Tick) (during_wait : list Event) :
  StartContext e ctxId waitSeconds start ticks during_wait = Some (rc, es) ->
  rc = 0 ->
  m_commandIdCounter es = 3 /\ allocated_ids es = allocated_ids e ++ [1].
Proof.
  unfold StartContext, ContextSocket_Start.
  set (es1 := (fst (e, SocketBase_new), async_accept (snd (e, SocketBase_new)))).
  intros H Hrc. subst rc.
  assert (Hloop :
    forall r, (r = wait_connected (deadline start waitSeconds) ticks es1 \/ r = (Some 0, es1)) ->
              allocated_ids (fst (snd r)) = allocated_ids e).
  { intros r [-> | ->]; [|reflexivity].
    apply (wait_connected_counter _ ticks es1). }
  destruct (if waitSeconds >=? 0
            then wait_connected (deadline start waitSeconds) ticks es1
            else (Some 0, es1)) as [[rc|] [e0 socket]] eqn:Hst;
    [|discriminate].
  assert (Hids : allocated_ids e0 = allocated_ids e).
  { apply (Hloop (Some rc, (e0, socket))).
    destruct (waitSeconds >=? 0); [left | right]; now rewrite Hst. }
  destruct (negb (rc =? 0)).
  { injection H as H _. discriminate. }
  unfold DoStartConnection in H.
  rewrite InitCommandHeader_new in H.
  rewrite (socket_Write_some _ socket) in H by reflexivity.
  injection H as H.
  match type of H with
  | wait_ctxId _ ?e4 = _ =>
      destruct (wait_ctxId_counter during_wait e4) as [Hc Hi];
      rewrite H in Hc, Hi; simpl in Hc, Hi
  end.
  rewrite Hc, Hi. unfold StartThread.
  destruct (negb (m_isThreadActive e0)); simpl; rewrite Hids; auto.
Qed.

(** A client that has started has sent nothing and will give 2 to its
    first command. *)
Lemma StartFrame_seed (e ec : RemoteEngine) (waitSeconds rc : Z)
  (start : xtime) (ticks : list Tick) (during_wait : list Event) :
  StartFrame e waitSeconds start ticks during_wait = Some (rc, ec) ->
  rc = 0 ->
  m_commandIdCounter ec = 2 /\ allocated_ids ec = allocated_ids e.
Proof.
  unfold StartFrame, FrameSocket_Start.
  set (es1 :=
         (fst (e, SocketBase_new), async_connect (snd (e, SocketBase_new)))).
  intros H Hrc. subst rc.
  assert (Hloop :
    forall r, (r = wait_connected (deadline start waitSeconds) ticks es1 \/ r = (Some 0, es1)) ->
              allocated_ids (fst (snd r)) = allocated_ids e).
  { intros r [-> | ->]; [|reflexivity].
    apply (wait_connected_counter _ ticks es1). }
  destruct (if waitSeconds >=? 0
            then wait_connected (deadline start waitSeconds) ticks es1
            else (Some 0, es1)) as [[rc|] [e0 socket]] eqn:Hst;
    [|discriminate].
  assert (Hids : allocated_ids e0 = allocated_ids e).
  { apply (Hloop (Some rc, (e0, socket))).
    destruct (waitSeconds >=? 0); [left | right]; now rewrite Hst. }
  destruct (negb (rc =? 0)).
  { injection H as H _. discriminate. }
  injection H as H.
  match type of H with
  | wait_ctxId _ ?e3 = _ =>
      destruct (wait_ctxId_counter during_wait e3) as [Hc Hi];
      rewrite H in Hc, Hi; simpl in Hc, Hi
  end.
  rewrite Hc, Hi. unfold StartThread.
  destruct (negb (m_isThreadActive e0)); simpl; rewrite Hids; auto.
Qed.

Example server_later_ids :
  run server_actions server_session = Some server_later
  /\ allocated_ids server_later = [1; 3; 5]
  /\ m_commandIdCounter server_later = 7.
Proof. vm_compute. repeat split; reflexivity. Qed.

Example client_later_ids :
  run client_actions client_session = Some client_later
  /\ allocated_ids client_later = [2; 4]
  /\ m_commandIdCounter client_later = 6.
Proof. vm_compute. repeat split; reflexivity. Qed.

(** C2, as the code has it. [StartContext] sets the counter to 1 and
    [StartFrame] to 2; every header built for a new command takes the
    counter's value and adds 2 to the counter, modulo 2^32. So the ids a
    server hands out in a session are the first values of 1, 3, 5, ... and
    those of a client the first values of 2, 4, 6, ..., both modulo 2^32:
    server ids are odd and client ids even, an id of one role is never
    an id of the other, and the first 2^31 ids of a session are pairwise
    different. *)
Theorem command_ids_partition :
  (forall e ctxId w start ticks dw es acts es',
      StartContext e ctxId w start ticks dw = Some (0, es) ->
      run acts es = Some es' ->
      exists n, allocated_ids es' = allocated_ids e ++ ids_from 1 n)
  /\ (forall e w start ticks dw ec acts ec',
         StartFrame e w start ticks dw = Some (0, ec) ->
         run acts ec = Some ec' ->
         exists n, allocated_ids ec' = allocated_ids e ++ ids_from 2 n)
  /\ (forall e t d,
         m_commandIdCounter (snd (InitCommandHeader e t d 0))
         = to_uint32 (m_commandIdCounter e + 2))
  /\ (forall n x, In x (ids_from 1 n) -> Z.odd x = true)
  /\ (forall n x, In x (ids_from 2 n) -> Z.even x = true)
  /\ (forall n m x, In x (ids_from 1 n) -> ~ In x (ids_from 2 m))
  /\ (forall seed n, Z.of_nat n <= 2 ^ 31 -> NoDup (ids_from seed n)).
Proof.
  assert (Hodd : forall n x, In x (ids_from 1 n) -> Z.odd x = true).
  { intros n x Hx. apply in_ids_from in Hx. destruct Hx as (i & _ & ->).
    now rewrite nth_id_parity. }
  assert (Heven : forall n x, In x (ids_from 2 n) -> Z.even x = true).
  { intros n x Hx. apply in_ids_from in Hx. destruct Hx as (i & _ & ->).
    rewrite <- Z.negb_odd. now rewrite nth_id_parity. }
  split; [|split; [|split; [|split; [|split; [|split]]]]].
  - intros e ctxId w start ticks dw es acts es' Hstart Hrun.
    destruct (StartContext_seed _ _ _ _ _ _ _ _ Hstart eq_refl) as [Hc Hi].
    assert (Hr : is_uint32 (m_commandIdCounter es))
      by (rewrite Hc; unfold is_uint32, uint32_modulus; lia).
    destruct (run_ids acts es es' Hr Hrun) as (n & Hids & _).
    exists (S n). rewrite Hids, Hi, Hc, <- app_assoc.
    rewrite (ids_from_succ 1 n)
      by (unfold is_uint32, uint32_modulus; lia).
    reflexivity.
  - intros e w start ticks dw ec acts ec' Hstart Hrun.
    destruct (StartFrame_seed _ _ _ _ _ _ _ Hstart eq_refl) as [Hc Hi].
    assert (Hr : is_uint32 (m_commandIdCounter ec))
      by (rewrite Hc; unfold is_uint32, uint32_modulus; lia).
    destruct (run_ids acts ec ec' Hr Hrun) as (n & Hids & _).
    exists n. now rewrite Hids, Hi, Hc.
  - intros e t d. reflexivity.
  - exact Hodd.
  - exact Heven.
  - intros n m x H1 H2.
    apply Hodd in H1. apply Heven in H2.
    rewrite <- Z.negb_odd, H1 in H2. discriminate.
  - exact ids_from_NoDup.
Qed.

Lemma command_ids_partition_witness :
  (exists n, allocated_ids server_later = [] ++ ids_from 1 n)
  /\ (exists n, allocated_ids client_later = [] ++ ids_from 2 n)
  /\ Z.odd 5 = true
  /\ Z.even 4 = true
  /\ ~ In 5 (ids_from 2 4)
  /\ NoDup (ids_from 1 3).
Proof.
  destruct command_ids_partition
    as (Hserver & Hclient & _ & Hodd & Heven & Hdisjoint & Hnodup).
  split; [|split; [|split; [|split; [|split]]]].
  - apply (Hserver RemoteEngine_new 7 (-1) clock0 []
             [Ev_accept_completes false; Ev_run_posted; Ev_run_posted;
              Ev_write_completes false;
              Ev_header_read (mkHeader REMOTECOMMANDTYPE_SUCCESSED 7 1 0)
                false]
             server_session server_actions server_later);
      vm_compute; reflexivity.
  - apply (Hclient RemoteEngine_new 2 clock0
             [mkTick (mkXtime 100 1000) (Some (Ev_connect_completes false));
              mkTick (mkXtime 100 100001000) (Some Ev_run_posted)]
             [Ev_header_read
                (mkHeader REMOTECOMMANDTYPE_START_CONNECTION 7 1 0) false]
             client_session client_actions client_later);
      vm_compute; reflexivity.
  - apply (Hodd 3%nat 5). vm_compute. auto.
  - apply (Heven 3%nat 4). vm_compute. auto.
  - apply (Hdisjoint 3%nat 4%nat 5). vm_compute. auto.
  - apply (Hnodup 1 3%nat). vm_compute. discriminate.
Defined.

(** [Break()] on an engine that has a socket: the command takes the
    counter's value as its id. *)
Lemma Break_some (e : RemoteEngine) (s : SocketBase) :
  m_socket e = Some s ->
  exists e',
    Break e = Some e'
    /\ m_socket e' <> None
    /\ m_commandIdCounter e' = to_uint32 (m_commandIdCounter e + 2)
    /\ allocated_ids e' = allocated_ids e ++ [m_commandIdCounter e].
Proof.
  intros Hs. unfold Break, WriteCommand.
  rewrite InitCommandHeader_new.
  rewrite (socket_Write_some _ s) by exact Hs.
  eexists. split; [reflexivity|]. simpl. repeat split. discriminate.
Qed.

(** After [k] calls of [Break()] the counter is 2k further, modulo
    2^32. *)
Lemma Break_times_counter (k : N) (e : RemoteEngine) :
  m_socket e <> None ->
  is_uint32 (m_commandIdCounter e) ->
  exists e',
    Break_times k e = Some e'
    /\ m_socket e' <> None
    /\ m_commandIdCounter e'
       = to_uint32 (m_commandIdCounter e + 2 * Z.of_N k).
Proof.
  intros Hs Hr. unfold Break_times.
  induction k as [|k IH] using N.peano_ind.
  - exists e. simpl. repeat split; [exact Hs|].
    rewrite Z.add_0_r. symmetry. now apply to_uint32_small.
  - destruct IH as (e1 & Hk & Hs1 & Hc1).
    rewrite N.iter_succ, Hk.
    destruct (m_socket e1) as [s1|] eqn:Hsock; [|congruence].
    destruct (Break_some e1 s1 Hsock) as (e2 & Hb & Hs2 & Hc2 & _).
    exists e2. repeat split; [exact Hb | exact Hs2 |].
    rewrite Hc2, Hc1. unfold to_uint32.
    rewrite Zplus_mod_idemp_l. f_equal. lia.
Qed.

(** C2 as stated does not hold: a session can produce the same
    command id twice. On the example server the first [Break()] is sent
    with command id 3; after 2^31 - 1 more calls the counter is back at
    3, and the next [Break()] is sent with command id 3 again. *)
Lemma command_id_repeats :
  exists e1 e2 e3,
    Break server_session = Some e1
    /\ Break_times (2 ^ 31 - 1) e1 = Some e2
    /\ Break e2 = Some e3
    /\ last (allocated_ids e1) 0 = 3
    /\ last (allocated_ids e3) 0 = 3.
Proof.
  destruct (m_socket server_session) as [s|] eqn:Hs;
    [|vm_compute in Hs; discriminate].
  destruct (Break_some server_session s Hs) as (e1 & Hb1 & Hs1 & Hc1 & Hi1).
  assert (Hr1 : is_uint32 (m_commandIdCounter e1))
    by (rewrite Hc1; apply to_uint32_range).
  destruct (Break_times_counter (2 ^ 31 - 1) e1 Hs1 Hr1)
    as (e2 & Hbt & Hs2 & Hc2).
  destruct (m_socket e2) as [s2|] eqn:Hsock2; [|congruence].
  destruct (Break_some e2 s2 Hsock2) as (e3 & Hb3 & _ & _ & Hi3).
  exists e1, e2, e3.
  split; [exact Hb1|]. split; [exact Hbt|]. split; [exact Hb3|].
  rewrite Hi1, Hi3, !last_last, Hc2, Hc1.
  assert (Hcnt : m_commandIdCounter server_session = 3)
    by (vm_compute; reflexivity).
  rewrite Hcnt. split; vm_compute; reflexivity.
Qed.

(** ** Responses: [WriteResponse] *)

(** C8 as stated does not hold for a received command whose
    command id is 0: the response to it is given a new id by the counter
    (3 on the example server), and the counter moves on. *)
Lemma WriteResponse_to_id_zero :
  let readCommand :=
    mkCommand (mkHeader REMOTECOMMANDTYPE_BREAK 7 0 0) [] None in
  exists e' s',
    WriteResponse server_session readCommand REMOTECOMMANDTYPE_SUCCESSED []
    = Some e'
    /\ m_socket e' = Some s'
    /\ posted s'
       = [H_doWrite
            (mkCommand (mkHeader REMOTECOMMANDTYPE_SUCCESSED 7 3 0) [] None)]
    /\ GetCommandId readCommand = 0
    /\ m_commandIdCounter server_session = 3
    /\ m_commandIdCounter e' = 5.
Proof.
  intros readCommand.
  destruct (WriteResponse server_session readCommand
              REMOTECOMMANDTYPE_SUCCESSED []) as [e'|] eqn:H;
    vm_compute in H; [|discriminate].
  injection H as <-.
  eexists. eexists.
  split; [reflexivity|]. split; [reflexivity|].
  vm_compute. repeat split; reflexivity.
Qed.

(** C8, as the code has it. The response to a received command whose
    command id is not 0 carries that command id, and the counter is
    neither read nor changed. The response to a received command whose
    command id is 0 takes a new id from the counter. *)
Theorem WriteResponse_commandId (e : RemoteEngine) (s : SocketBase)
  (readCommand : RemoteCommand) (t : RemoteCommandType)
  (d : RemoteCommandData) :
  m_socket e = Some s ->
  is_uint32 (GetCommandId readCommand) ->
  exists e' h,
    WriteResponse e readCommand t d = Some e'
    /\ m_socket e' = Some (post s (H_doWrite (RemoteCommand_of h d)))
    /\ (GetCommandId readCommand <> 0 ->
        commandId h = GetCommandId readCommand
        /\ m_commandIdCounter e' = m_commandIdCounter e
        /\ allocated_ids e' = allocated_ids e)
    /\ (GetCommandId readCommand = 0 ->
        commandId h = m_commandIdCounter e
        /\ m_commandIdCounter e' = to_uint32 (m_commandIdCounter e + 2)
        /\ allocated_ids e' = allocated_ids e ++ [m_commandIdCounter e]).
Proof.
  intros Hs Hr. unfold WriteResponse.
  destruct (Z.eq_dec (GetCommandId readCommand) 0) as [Hz|Hnz].
  - rewrite Hz. change (to_int 0) with 0.
    rewrite InitCommandHeader_new.
    rewrite (socket_Write_some _ s) by exact Hs.
    eexists. eexists. split; [reflexivity|]. split; [reflexivity|].
    split; [congruence|]. intros _. simpl. auto.
  - assert (Hi : to_int (GetCommandId readCommand) <> 0).
    { apply Z.eqb_neq. rewrite (to_int_zero _ Hr). now apply Z.eqb_neq. }
    rewrite (InitCommandHeader_given _ _ _ _ Hi).
    rewrite (socket_Write_some _ s) by exact Hs.
    eexists. eexists. split; [reflexivity|]. split; [reflexivity|].
    split; [|congruence]. intros _. simpl.
    rewrite to_uint32_to_int, (to_uint32_small _ Hr). auto.
Qed.

Lemma WriteResponse_commandId_witness :
  let readCommand :=
    mkCommand (mkHeader REMOTECOMMANDTYPE_EVAL 7 4294967294 0) [] None in
  exists e' h,
    WriteResponse client_session readCommand
      REMOTECOMMANDTYPE_VALUE_STRING [Byte.x41] = Some e'
    /\ commandId h = 4294967294
    /\ m_commandIdCounter e' = m_commandIdCounter client_session.
Proof.
  intros readCommand.
  destruct (m_socket client_session) as [s|] eqn:Hs;
    [|vm_compute in Hs; discriminate].
  destruct (WriteResponse_commandId client_session s readCommand
              REMOTECOMMANDTYPE_VALUE_STRING [Byte.x41] Hs)
    as (e' & h & Hw & _ & Hnz & _).
  - vm_compute. split; [discriminate | reflexivity].
  - exists e', h. split; [exact Hw|].
    destruct Hnz as (Hid & Hc & _); [vm_compute; discriminate|].
    split; [exact Hid | exact Hc].
Defined.

(** ** The context id in the headers sent *)

(** A header with a negative ctxId, read with or without error, leaves
    the connection closed. *)
Lemma handleReadCommand_negative_ctxId (e : RemoteEngine) (s : SocketBase)
  (command : RemoteCommand) (error : bool) :
  GetCtxId command < 0 ->
  let s' := snd (handleReadCommand (e, s) command error) in
  IsConnected s' = false /\ socket_open s' = false.
Proof.
  intros Hneg. apply Z.ltb_lt in Hneg.
  unfold handleReadCommand. rewrite Hneg.
  destruct error; simpl; [auto|].
  destruct (GetDataSize command >? 0); simpl; auto.
Qed.

(** C10. A command sent with [WriteCommand], with or without a response
    callback, is handed to the connection with the engine's context id
    of that moment in its header; a new engine has context id -1, so a
    command sent before the context id is known carries -1; and the
    connection that reads a header with a negative ctxId closes. *)
Theorem WriteCommand_carries_ctxId (e : RemoteEngine) (s : SocketBase)
  (t : RemoteCommandType) (d : RemoteCommandData)
  (response : RemoteCommandCallback) :
  m_socket e = Some s ->
  (exists e' h,
      WriteCommand e t d = Some e'
      /\ m_socket e' = Some (post s (H_doWrite (RemoteCommand_of h d)))
      /\ ctxId h = m_ctxId e)
  /\ (exists e' h,
         WriteCommand_response e t d response = Some e'
         /\ m_socket e' = Some (post s (H_doWrite (RemoteCommand_of h d)))
         /\ ctxId h = m_ctxId e)
  /\ m_ctxId RemoteEngine_new = -1
  /\ (forall e2 s2 h,
         ctxId h = -1 ->
         let s2' :=
           snd (handleReadCommand (e2, s2) (mkCommand h [] None) false) in
         IsConnected s2' = false /\ socket_open s2' = false).
Proof.
  intros Hs. split; [|split; [|split]].
  - unfold WriteCommand. rewrite InitCommandHeader_new.
    rewrite (socket_Write_some _ s) by exact Hs.
    eexists. eexists. repeat split.
  - unfold WriteCommand_response. rewrite InitCommandHeader_new.
    rewrite (socket_Write_some _ s) by exact Hs.
    eexists. eexists. repeat split.
  - reflexivity.
  - intros e2 s2 h Hh.
    apply handleReadCommand_negative_ctxId. unfold GetCtxId. simpl. lia.
Qed.

(** An engine whose socket exists and whose context id is still -1: the
    command it sends carries -1. *)
Lemma WriteCommand_carries_ctxId_witness :
  let e := set_socket RemoteEngine_new (Some SocketBase_new) in
  exists e' h,
    WriteCommand e REMOTECOMMANDTYPE_BREAK [] = Some e'
    /\ m_socket e'
       = Some (post SocketBase_new (H_doWrite (RemoteCommand_of h [])))
    /\ ctxId h = -1.
Proof.
  intros e.
  destruct (WriteCommand_carries_ctxId e SocketBase_new
              REMOTECOMMANDTYPE_BREAK [] 0%nat eq_refl)
    as ((e' & h & Hw & Hp & Hc) & _).
  exists e', h. repeat split; assumption.
Defined.

(** ** The context id over a session *)

Lemma ctxId_after_stable (e : RemoteEngine) (command : RemoteCommand) :
  0 <= m_ctxId e ->
  is_handshake (GetType command) = false ->
  ctxId_after e command = m_ctxId e.
Proof.
  intros Hpos Hh. unfold ctxId_after.
  assert (Hlt : (m_ctxId e <? 0) = false) by (apply Z.ltb_ge; exact Hpos).
  rewrite Hlt. destruct (GetType command); try reflexivity; discriminate.
Qed.

Lemma delivered_no_handshake (ev : Event) (e : RemoteEngine)
  (s : SocketBase) (c : RemoteCommand) :
  m_socket e = Some s ->
  receives_handshake (A_service ev) = false ->
  no_handshake_in_flight e ->
  delivered ev s = Some c ->
  is_handshake (GetType c) = false.
Proof.
  intros Hs Hrh Hfl. unfold no_handshake_in_flight in Hfl.
  rewrite Hs in Hfl. unfold delivered.
  destruct ev as [|err|h err|d err|err|err]; try discriminate.
  - destruct err; [discriminate|].
    destruct (reads_in_flight s) as [|[|c0] rest]; try discriminate.
    destruct (dataSize h >? 0); [discriminate|].
    intros H. injection H as <-. exact Hrh.
  - destruct err; [discriminate|].
    destruct (reads_in_flight s) as [|[|c0] rest]; try discriminate.
    intros H. injection H as <-.
    inversion Hfl as [|x l Hx Hl]; subst. exact Hx.
Qed.

Lemma act_ctxId (a : Action) (e e' : RemoteEngine) :
  act a e = Some e' ->
  receives_handshake a = false ->
  no_handshake_in_flight e ->
  0 <= m_ctxId e ->
  m_ctxId e' = m_ctxId e /\ no_handshake_in_flight e'.
Proof.
  intros Hact Hrh Hfl Hpos.
  destruct a as [t d|t d r|c t d| |ev]; simpl in Hact.
  - unfold WriteCommand in Hact.
    pose proof (InitCommandHeader_frame e t (GetSize d) 0) as Hf.
    destruct (InitCommandHeader e t (GetSize d) 0) as [h e1].
    simpl in Hf. destruct Hf as (_ & _ & Hc & Hsock & _).
    apply socket_Write_inv in Hact. destruct Hact as (s & Hs & ->).
    split; [exact Hc|].
    unfold no_handshake_in_flight in *. simpl.
    rewrite <- Hsock, Hs in Hfl. exact Hfl.
  - unfold WriteCommand_response in Hact.
    pose proof (InitCommandHeader_frame e t (GetSize d) 0) as Hf.
    destruct (InitCommandHeader e t (GetSize d) 0) as [h e1].
    simpl in Hf. destruct Hf as (_ & _ & Hc & Hsock & _).
    destruct (socket_Write e1 h d) as [e2|] eqn:Hw; [|discriminate].
    injection Hact as <-.
    apply socket_Write_inv in Hw. destruct Hw as (s & Hs & ->).
    split; [exact Hc|].
    unfold no_handshake_in_flight in *. simpl.
    rewrite <- Hsock, Hs in Hfl. exact Hfl.
  - unfold WriteResponse in Hact.
    pose proof (InitCommandHeader_frame e t (GetSize d)
                  (to_int (GetCommandId c))) as Hf.
    destruct (InitCommandHeader e t (GetSize d) (to_int (GetCommandId c)))
      as [h e1].
    simpl in Hf. destruct Hf as (_ & _ & Hc & Hsock & _).
    apply socket_Write_inv in Hact. destruct Hact as (s & Hs & ->).
    split; [exact Hc|].
    unfold no_handshake_in_flight in *. simpl.
    rewrite <- Hsock, Hs in Hfl. exact Hfl.
  - injection Hact as <-. split; [reflexivity|exact Hfl].
  - injection Hact as <-.
    destruct (m_socket e) as [s|] eqn:Hs.
    + rewrite (service_unfold ev e s Hs).
      split.
      * simpl. destruct (delivered ev s) as [c|] eqn:Hd; [|reflexivity].
        destruct (HandleReadCommand_fields e c) as (_ & _ & Hc & _).
        rewrite Hc. apply ctxId_after_stable; [exact Hpos|].
        exact (delivered_no_handshake ev e s c Hs Hrh Hfl Hd).
      * unfold no_handshake_in_flight in *. cbn [m_socket set_socket].
        rewrite Hs in Hfl.
        destruct (poll_one_reads ev e s)
          as [H|[H|[H|[H|(h & err & -> & H)]]]]; rewrite H.
        -- exact Hfl.
        -- apply Forall_app. split; [exact Hfl|]. now constructor.
        -- destruct (reads_in_flight s); [constructor|].
           now inversion Hfl.
        -- apply Forall_app. split; [|now constructor].
           destruct (reads_in_flight s); [constructor|]. now inversion Hfl.
        -- apply Forall_app. split.
           ++ destruct (reads_in_flight s); [constructor|].
              now inversion Hfl.
           ++ constructor; [exact Hrh|constructor].
    + unfold service. rewrite Hs. split; [reflexivity|].
      unfold no_handshake_in_flight. now rewrite Hs.
Qed.

(** C7 as stated does not hold: on the example server, whose
    context id is 7, a received END_CONNECTION sets the context id back
    to -1, and a received START_CONNECTION with ctxId 9 sets it to 9. *)
Lemma ctxId_changes_after_assignment :
  m_ctxId server_session = 7
  /\ m_ctxId
       (service
          (Ev_header_read (mkHeader REMOTECOMMANDTYPE_END_CONNECTION 7 4 0)
             false)
          server_session) = -1
  /\ m_ctxId
       (service
          (Ev_header_read (mkHeader REMOTECOMMANDTYPE_START_CONNECTION 9 4 0)
             false)
          server_session) = 9.
Proof. vm_compute. repeat split; reflexivity. Qed.

(** C7, as the code has it. Once the context id is not negative, it is
    changed by a received START_CONNECTION, which sets it to the
    command's ctxId, and by a received END_CONNECTION, which sets it to
    -1, and by nothing else: sending commands and responses, popping
    received commands and every event of the service thread other than
    the arrival of one of these two commands leave it as it is. *)
Theorem ctxId_stable_without_handshake
  (acts : list Action) (e e' : RemoteEngine) :
  0 <= m_ctxId e ->
  no_handshake_in_flight e ->
  forallb (fun a => negb (receives_handshake a)) acts = true ->
  run acts e = Some e' ->
  m_ctxId e' = m_ctxId e
  /\ (forall c,
         GetType c = REMOTECOMMANDTYPE_START_CONNECTION ->
         m_ctxId (HandleReadCommand e' c) = GetCtxId c)
  /\ (forall c,
         GetType c = REMOTECOMMANDTYPE_END_CONNECTION ->
         m_ctxId (HandleReadCommand e' c) = -1).
Proof.
  intros Hpos Hfl Hacts Hrun.
  split.
  - revert e Hpos Hfl Hrun.
    induction acts as [|a acts IH]; intros e Hpos Hfl Hrun;
      simpl in Hrun.
    + now injection Hrun as <-.
    + simpl in Hacts. apply andb_true_iff in Hacts.
      destruct Hacts as [Ha Hrest]. apply negb_true_iff in Ha.
      destruct (act a e) as [e1|] eqn:Hact; [|discriminate].
      destruct (act_ctxId a e e1 Hact Ha Hfl Hpos) as [Hc Hfl1].
      rewrite <- Hc. apply IH; [exact Hrest | lia | exact Hfl1 | exact Hrun].
  - split; intros c Hc;
      destruct (HandleReadCommand_fields e' c) as (_ & _ & Hx & _);
      rewrite Hx; unfold ctxId_after; now rewrite Hc.
Qed.

Lemma ctxId_stable_without_handshake_witness :
  m_ctxId server_later = m_ctxId server_session.
Proof.
  apply (ctxId_stable_without_handshake server_actions
           server_session server_later).
  - vm_compute. discriminate.
  - vm_compute. repeat constructor.
  - vm_compute. reflexivity.
  - vm_compute. reflexivity.
Defined.

(** ** Failures of reads and writes *)

Lemma doClose_fields (s : SocketBase) :
  IsConnected (doClose s) = false
  /\ socket_open (doClose s) = false
  /\ m_writeCommandQueue (doClose s) = m_writeCommandQueue s
  /\ writes_in_flight (doClose s) = writes_in_flight s
  /\ writes_issued (doClose s) = writes_issued s
  /\ reads_in_flight (doClose s) = reads_in_flight s
  /\ posted (doClose s) = posted s.
Proof. repeat split. Qed.

(** C5. A read or a write that completes with an error does one thing:
    the socket is closed and the connected flag cleared. The three
    completion handlers return the connection after [doClose] and the
    engine untouched: nothing is popped from the write queue, no write
    and no read is started, nothing is delivered to the engine. The
    handlers have no other outcome than this state; the engine reports it
    as [IsConnected() == false]. *)
Theorem io_failure_closes (e : RemoteEngine) (s : SocketBase)
  (command : RemoteCommand) (deleteCommand : bool) :
  handleReadCommand (e, s) command true = (e, doClose s)
  /\ handleReadData (e, s) command true = (e, doClose s)
  /\ handleWrite s deleteCommand true = doClose s
  /\ IsConnected (doClose s) = false
  /\ socket_open (doClose s) = false
  /\ m_writeCommandQueue (doClose s) = m_writeCommandQueue s
  /\ writes_issued (doClose s) = writes_issued s
  /\ reads_in_flight (doClose s) = reads_in_flight s
  /\ (forall ev,
         m_socket e = Some s ->
         fails ev s = true ->
         let e' := service ev e in
         Engine_IsConnected e' = false
         /\ m_readCommandQueue e' = m_readCommandQueue e
         /\ m_waitResponseCommandList e' = m_waitResponseCommandList e
         /\ m_ctxId e' = m_ctxId e
         /\ exists s',
             m_socket e' = Some s'
             /\ socket_open s' = false
             /\ m_writeCommandQueue s' = m_writeCommandQueue s
             /\ writes_issued s' = writes_issued s).
Proof.
  repeat (split; [reflexivity|]).
  intros ev Hs Hf e'. subst e'. unfold service. rewrite Hs.
  unfold Engine_IsConnected.
  destruct s as [ic so q p wf wi rf af cf].
  destruct ev as [|[|]|h [|]|d [|]|err|err]; simpl in Hf; try discriminate.
  - destruct wf as [|w rest]; [discriminate|]. simpl.
    repeat split. eexists. repeat split.
  - destruct rf as [|[|c] rest]; try discriminate. simpl.
    repeat split. eexists. repeat split.
  - destruct rf as [|[|c] rest]; try discriminate. simpl.
    repeat split. eexists. repeat split.
Qed.

Lemma io_failure_closes_witness :
  Engine_IsConnected server_session = true
  /\ Engine_IsConnected (service (Ev_header_read
                                    (mkHeader REMOTECOMMANDTYPE_BREAK 0 0 0)
                                    true) server_session) = false.
Proof.
  split; [vm_compute; reflexivity|].
  destruct (m_socket server_session) as [s|] eqn:Hs;
    [|vm_compute in Hs; discriminate].
  destruct (io_failure_closes server_session s break_without_ctxId true)
    as (_ & _ & _ & _ & _ & _ & _ & _ & H).
  apply (H (Ev_header_read (mkHeader REMOTECOMMANDTYPE_BREAK 0 0 0) true)
           Hs).
  vm_compute in Hs. injection Hs as <-. vm_compute. reflexivity.
Defined.

(** ** A header with a negative ctxId *)

(** After the [doClose()] for a negative ctxId the handler goes on: with
    no payload announced the command is delivered to the engine and the
    next header read is started; with a payload announced the payload
    read is started. *)
Lemma handleReadCommand_negative_goes_on (e : RemoteEngine) (s : SocketBase)
  (command : RemoteCommand) :
  GetCtxId command < 0 ->
  handleReadCommand (e, s) command false
  = if GetDataSize command >? 0
    then (e, async_read (doClose s) (ReadData command))
    else (HandleReadCommand e command, asyncReadCommand (doClose s)).
Proof.
  intros Hneg. apply Z.ltb_lt in Hneg.
  unfold handleReadCommand, handleReadData. now rewrite Hneg.
Qed.

(** C4 at a failing input: the connected client reads, without error,
    the header of a BREAK with ctxId -1 and no payload. The connection
    is closed, and the command is processed all the same: it is put in
    the queue of received commands, and a new header read is started on
    the closed socket. *)
Theorem negative_ctxId_still_delivered :
  let e' := service (Ev_header_read (header break_without_ctxId) false)
              client_session in
  Engine_IsConnected client_session = true
  /\ Engine_IsConnected e' = false
  /\ m_readCommandQueue e'
     = m_readCommandQueue client_session ++ [break_without_ctxId]
  /\ exists s',
      m_socket e' = Some s'
      /\ socket_open s' = false
      /\ reads_in_flight s' = [ReadHeader].
Proof.
  vm_compute. repeat split. eexists. repeat split.
Qed.

(** ** The write queue *)

Lemma asyncWrite_in_flight (s : SocketBase) (c : RemoteCommand) :
  writes_in_flight (asyncWrite s c)
  = writes_in_flight s ++ asyncWrite_calls c.
Proof.
  unfold asyncWrite, asyncWrite_calls.
  destruct (GetDataSize c =? 0); simpl; now rewrite <- ?app_assoc.
Qed.

Lemma asyncWrite_issued (s : SocketBase) (c : RemoteCommand) :
  writes_issued (asyncWrite s c) = writes_issued s ++ asyncWrite_calls c.
Proof.
  unfold asyncWrite, asyncWrite_calls.
  destruct (GetDataSize c =? 0); simpl; now rewrite <- ?app_assoc.
Qed.

Lemma asyncWrite_queue (s : SocketBase) (c : RemoteCommand) :
  m_writeCommandQueue (asyncWrite s c) = m_writeCommandQueue s.
Proof. unfold asyncWrite. now destruct (GetDataSize c =? 0). Qed.

Lemma asyncWrite_posted (s : SocketBase) (c : RemoteCommand) :
  posted (asyncWrite s c) = posted s.
Proof. unfold asyncWrite. now destruct (GetDataSize c =? 0). Qed.

Ltac asyncWrite_simpl :=
  rewrite ?asyncWrite_in_flight, ?asyncWrite_issued, ?asyncWrite_queue,
    ?asyncWrite_posted; simpl.

Lemma posted_writes_app (l1 l2 : list Handler) :
  posted_writes (l1 ++ l2) = posted_writes l1 ++ posted_writes l2.
Proof.
  induction l1 as [|[c| |] l1 IH]; simpl; congruence.
Qed.

Ltac untouched :=
  apply ws_untouched; simpl; rewrite ?posted_writes_app; simpl;
  rewrite ?app_nil_r; reflexivity.

(** Every action is a step of the write queue. *)
Lemma conn_act_write_step (e : RemoteEngine) (s : SocketBase)
  (a : ConnAction) :
  write_step s (sent [a]) (snd (conn_act (e, s) a)).
Proof.
  destruct s as [ic so q p wf wi rf af cf].
  destruct a as [h d| | |ev]; simpl.
  - apply ws_Write; simpl; try reflexivity. apply posted_writes_app.
  - untouched.
  - untouched.
  - destruct ev as [|err|h err|d err|err|err]; simpl.
    + unfold run_posted; simpl.
      destruct p as [|[c| |] rest]; simpl.
      * untouched.
      * unfold doWrite; simpl.
        destruct q as [|c0 q]; simpl.
        -- eapply ws_doWrite_idle; asyncWrite_simpl; reflexivity.
        -- eapply ws_doWrite_busy; simpl; try reflexivity. discriminate.
      * untouched.
      * unfold connected; simpl. destruct ic; untouched.
    + destruct wf as [|w rest]; simpl; [untouched|].
      unfold handleWrite.
      destruct err; simpl; [now eapply ws_handleWrite_keep|].
      destruct (deleteCommand w) eqn:Hdel; simpl;
        [|now eapply ws_handleWrite_keep].
      destruct (tl q) as [|c q'] eqn:Htl; simpl.
      * eapply ws_handleWrite_pop; simpl; eauto.
      * eapply ws_handleWrite_next; asyncWrite_simpl; eauto.
    + destruct rf as [|[|c] rest]; simpl; try untouched.
      destruct err; simpl; [untouched|].
      unfold GetDataSize, GetCtxId; simpl.
      destruct (dataSize h >? 0); destruct (ctxId h <? 0); simpl;
        untouched.
    + destruct rf as [|[|c] rest]; simpl; try untouched.
      destruct err; simpl; untouched.
    + destruct af; simpl; [untouched|].
      destruct err; simpl; untouched.
    + destruct cf; simpl; [untouched|].
      destruct err; simpl; untouched.
Qed.

(** When the oldest write in flight completes, nothing is left in
    flight, unless it was the header of a command with a payload. *)
Lemma in_flight_tail (c : RemoteCommand) (fl rest : list AsyncWrite)
  (w : AsyncWrite) :
  fl = asyncWrite_calls c \/ fl = tl (asyncWrite_calls c) ->
  fl = w :: rest ->
  rest = [] \/ (rest = tl (asyncWrite_calls c) /\ deleteCommand w = false).
Proof.
  unfold asyncWrite_calls.
  destruct (GetDataSize c =? 0); simpl; intros [-> | ->] H;
    try discriminate; injection H as <- <-; auto.
Qed.

Lemma write_step_invariant (cs n : list RemoteCommand) (s s' : SocketBase) :
  write_invariant cs s ->
  write_step s n s' ->
  write_invariant (cs ++ n) s'.
Proof.
  intros (done & k & Hk & Hcs & Hissued & Hfl) Hstep.
  destruct Hstep as
    [s' Hp Hq Hf Hi
    |s' c Hp Hq Hf Hi
    |s' c Hp Hq Hq' Hf Hi
    |s' c Hp Hq Hq' Hf Hi
    |s' w Hp Hq Hf Hi
    |s' w Hdel Hp Hq Hq' Hf Hi
    |s' w rest c Hdel Hp Hq Hhd Hf Hf' Hi].
  - exists done, k. rewrite app_nil_r, Hp, Hq, Hf, Hi. auto.
  - exists done, k. rewrite Hp, Hq, Hf, Hi.
    repeat split; auto. rewrite Hcs, <- !app_assoc. reflexivity.
  - exists done, 1%nat. rewrite app_nil_r, Hq', Hf, Hi.
    rewrite Hq, Hp in Hcs. rewrite Hq in Hissued, Hfl.
    repeat split; auto.
    + rewrite Hissued. destruct k; simpl; rewrite !flat_map_app; simpl;
        now rewrite !app_nil_r.
    + right. exists c, []. repeat split.
      destruct Hfl as [-> | (c0 & q0 & _ & Habs & _)];
        [now left | discriminate].
  - exists done, k. rewrite app_nil_r, Hq', Hf, Hi.
    rewrite Hp in Hcs.
    destruct (m_writeCommandQueue s) as [|c0 q0] eqn:Hqueue; [congruence|].
    repeat split; auto.
    + rewrite Hcs, <- !app_assoc. reflexivity.
    + rewrite Hissued. destruct k as [|[|k]]; simpl; try reflexivity. lia.
    + destruct Hfl as [Hfl | (c1 & q1 & Hk1 & Hq1 & Hfl)]; [now left|].
      right. injection Hq1 as <- <-.
      exists c0, (q0 ++ [c]). auto.
  - rewrite Hf in Hfl.
    destruct Hfl as [Hfl | (c & q & Hk1 & Hqueue & Hfl)]; [discriminate|].
    exists done, k. rewrite app_nil_r, Hp, Hq, Hi.
    repeat split; auto.
    destruct (in_flight_tail c _ _ w Hfl eq_refl) as [Hr | [Hr _]];
      [now left|].
    right. exists c, q. auto.
  - rewrite Hf in Hfl.
    destruct Hfl as [Hfl | (c & q & Hk1 & Hqueue & Hfl)]; [discriminate|].
    rewrite Hqueue in Hq. simpl in Hq. rewrite Hq' in Hq. subst q k.
    rewrite Hqueue in Hcs, Hissued.
    exists (done ++ [c]), 0%nat. rewrite app_nil_r, Hp, Hq', Hi.
    repeat split; auto.
    + rewrite Hcs, <- !app_assoc. reflexivity.
    + rewrite Hissued. simpl. now rewrite app_nil_r.
    + left.
      destruct (in_flight_tail c _ _ w Hfl eq_refl) as [Hr | [_ Hr]];
        [exact Hr | congruence].
  - rewrite Hf in Hfl.
    destruct Hfl as [Hfl | (c0 & q & Hk1 & Hqueue & Hfl)]; [discriminate|].
    rewrite Hqueue in Hq. simpl in Hq. subst k.
    rewrite Hqueue in Hcs, Hissued.
    destruct (m_writeCommandQueue s') as [|c' q'] eqn:Hq2; [discriminate|].
    injection Hhd as ->. subst q.
    assert (Hrest : rest = []).
    { destruct (in_flight_tail c0 _ _ w Hfl eq_refl) as [Hr | [_ Hr]];
        [exact Hr | congruence]. }
    subst rest.
    exists (done ++ [c0]), 1%nat. rewrite app_nil_r, Hp, Hf', Hi, Hq2.
    repeat split; auto.
    + rewrite Hcs, <- !app_assoc. reflexivity.
    + rewrite Hissued. simpl. rewrite !flat_map_app. simpl.
      now rewrite !app_nil_r, <- !app_assoc.
    + right. exists c, q'. auto.
Qed.

Lemma sent_cons (a : ConnAction) (acts : list ConnAction) :
  sent (a :: acts) = sent [a] ++ sent acts.
Proof. destruct a; reflexivity. Qed.

Lemma conn_run_invariant (acts : list ConnAction) (cs : list RemoteCommand)
  (e : RemoteEngine) (s : SocketBase) :
  write_invariant cs s ->
  write_invariant (cs ++ sent acts) (snd (conn_run acts (e, s))).
Proof.
  revert cs e s. induction acts as [|a acts IH]; intros cs e s Hinv.
  - simpl. now rewrite app_nil_r.
  - rewrite sent_cons, app_assoc. unfold conn_run. simpl fold_left.
    destruct (conn_act (e, s) a) as [e1 s1] eqn:Hact.
    apply IH.
    replace s1 with (snd (conn_act (e, s) a)) by now rewrite Hact.
    apply (write_step_invariant cs (sent [a]) s); [exact Hinv|].
    apply conn_act_write_step.
Qed.

Lemma write_invariant_new : write_invariant [] SocketBase_new.
Proof.
  exists [], 0%nat. simpl. repeat split; auto.
Qed.

(** C1 as stated does not hold for the [async_write]
    operations: for a command with a payload [asyncWrite] issues the
    write of the header and the write of the payload one after the other
    without waiting, so two writes are in flight at once. *)
Lemma two_writes_in_flight :
  IsConnected writing_one_command = true
  /\ writes_in_flight writing_one_command
     = [mkAsyncWrite (HeaderBuffer changed_state_header) false;
        mkAsyncWrite (DataBuffer [Byte.x01]) true]
  /\ (length (writes_in_flight writing_one_command) > 1)%nat.
Proof. vm_compute. repeat split. lia. Qed.

Lemma doWrite_fields (s : SocketBase) (c : RemoteCommand) :
  m_writeCommandQueue (doWrite s c) = m_writeCommandQueue s ++ [c]
  /\ writes_issued (doWrite s c)
     = writes_issued s
         ++ (if queue_empty (m_writeCommandQueue s)
             then asyncWrite_calls c else []).
Proof.
  unfold doWrite.
  destruct (m_writeCommandQueue s) as [|c0 q] eqn:Hq; simpl.
  - asyncWrite_simpl. auto.
  - rewrite app_nil_r. auto.
Qed.

(** C1, as the code has it. On a connection, whatever is asked of it and
    whatever completes, with or without errors:
    - the writes in flight are those of one command, the head of the
      queue: at most two [async_write] operations, the header and the
      payload, and one when the command has no payload or its header has
      been written;
    - the writes issued are those of the first commands handed to
      [Write], command by command in the order of the calls, header
      before payload;
    - the commands handed to [Write] are, in the order of the calls,
      those already popped, those in the queue, and those whose [doWrite]
      is still posted;
    - [doWrite] appends the command to the queue and issues its writes
      only if the queue was empty;
    - an action that issues writes issues those of the command at the
      head of the queue, and nothing else is in flight then: the writes
      of the command before it have completed and it has been popped. *)
Theorem write_queue_fifo (e : RemoteEngine) (acts : list ConnAction) :
  let es := conn_run acts (e, SocketBase_new) in
  let s := snd es in
  one_command_in_flight s
  /\ (length (writes_in_flight s) <= 2)%nat
  /\ (forall c q,
         m_writeCommandQueue s = c :: q ->
         GetDataSize c = 0 ->
         (length (writes_in_flight s) <= 1)%nat)
  /\ (exists n,
         writes_issued s = flat_map asyncWrite_calls (firstn n (sent acts)))
  /\ (exists done,
         sent acts
         = done ++ m_writeCommandQueue s ++ posted_writes (posted s))
  /\ (forall s0 c,
         m_writeCommandQueue (doWrite s0 c) = m_writeCommandQueue s0 ++ [c]
         /\ writes_issued (doWrite s0 c)
            = writes_issued s0
                ++ (if queue_empty (m_writeCommandQueue s0)
                    then asyncWrite_calls c else []))
  /\ (forall a,
         let s' := snd (conn_act es a) in
         writes_issued s' = writes_issued s
         \/ exists c,
             writes_issued s' = writes_issued s ++ asyncWrite_calls c
             /\ writes_in_flight s' = asyncWrite_calls c
             /\ hd_error (m_writeCommandQueue s') = Some c).
Proof.
  intros es s.
  pose proof (conn_run_invariant acts [] e SocketBase_new
                write_invariant_new) as Hinv.
  fold es in Hinv. fold s in Hinv. simpl in Hinv.
  destruct Hinv as (done & k & Hk & Hcs & Hissued & Hfl).
  assert (Hone : one_command_in_flight s).
  { destruct Hfl as [Hfl | (c & q & _ & Hq & Hfl)]; [now left|].
    right. exists c, q. auto. }
  split; [exact Hone|].
  split.
  { destruct Hone as [-> | (c & q & _ & [-> | ->])]; simpl; try lia;
      unfold asyncWrite_calls; destruct (GetDataSize c =? 0); simpl; lia. }
  split.
  { intros c q Hq Hsize.
    destruct Hone as [-> | (c0 & q0 & Hq0 & Hc)]; simpl; try lia.
    rewrite Hq in Hq0. injection Hq0 as <- <-.
    unfold asyncWrite_calls in Hc. rewrite Hsize in Hc. simpl in Hc.
    destruct Hc as [-> | ->]; simpl; lia. }
  split.
  { exists (length (done ++ firstn k (m_writeCommandQueue s))).
    rewrite Hissued. f_equal.
    rewrite Hcs.
    rewrite <- (firstn_skipn k (m_writeCommandQueue s)) at 3.
    rewrite <- !app_assoc, (app_assoc done).
    rewrite firstn_app, firstn_all, Nat.sub_diag. simpl.
    now rewrite app_nil_r. }
  split; [now exists done|].
  split; [exact doWrite_fields|].
  intros a s'. subst s'.
  destruct es as [e1 s1] eqn:Hes. simpl in s. subst s.
  pose proof (conn_act_write_step e1 s1 a) as Hstep.
  remember (snd (conn_act (e1, s1) a)) as s2.
  remember (sent [a]) as n.
  destruct Hstep as
    [s' Hp Hq Hf Hi
    |s' c Hp Hq Hf Hi
    |s' c Hp Hq Hq' Hf Hi
    |s' c Hp Hq Hq' Hf Hi
    |s' w Hp Hq Hf Hi
    |s' w Hdel Hp Hq Hq' Hf Hi
    |s' w rest c Hdel Hp Hq Hhd Hf Hf' Hi]; auto.
  - right. exists c. rewrite Hi, Hf, Hq'. repeat split.
    destruct Hfl as [-> | (c0 & q0 & _ & Habs & _)];
      [reflexivity | congruence].
  - right. exists c. rewrite Hi, Hf'. repeat split; [|exact Hhd].
    rewrite Hf in Hfl.
    destruct Hfl as [Hfl | (c0 & q0 & _ & _ & Hfl)]; [discriminate|].
    destruct (in_flight_tail c0 _ _ w Hfl eq_refl) as [-> | [_ Hr]];
      [reflexivity | congruence].
Qed.

(** ** Waiting for the connection: [ContextSocket::Start] *)

Example Start_accept_retried :
  fst (ContextSocket_Start 1 clock0 accept_retried
         (RemoteEngine_new, SocketBase_new)) = Some 0.
Proof. vm_compute. reflexivity. Qed.

Example Start_nobody_connects :
  fst (ContextSocket_Start 1 clock0 nobody_connects
         (RemoteEngine_new, SocketBase_new)) = Some (-1).
Proof. vm_compute. reflexivity. Qed.

Example Start_zero_timeout :
  fst (ContextSocket_Start 0 clock0 accept_retried
         (RemoteEngine_new, SocketBase_new)) = Some (-1).
Proof. vm_compute. reflexivity. Qed.

Example Start_no_wait :
  ContextSocket_Start (-1) clock0 accept_retried
    (RemoteEngine_new, SocketBase_new)
  = (Some 0, (RemoteEngine_new, async_accept SocketBase_new)).
Proof. vm_compute. reflexivity. Qed.

Lemma waiting_zero (end_ : xtime) (ticks : list Tick)
  (es : RemoteEngine * SocketBase) :
  waiting end_ 0 ticks es.
Proof. intros i Hi. lia. Qed.

Lemma waiting_succ (end_ : xtime) (j : nat) (t : Tick) (rest : list Tick)
  (es : RemoteEngine * SocketBase) :
  waiting end_ (S j) (t :: rest) es
  <-> IsConnected (snd es) = false
      /\ expired end_ t = false
      /\ waiting end_ j rest (poll_one_opt (ready t) es).
Proof.
  unfold waiting. split.
  - intros H. destruct (H 0%nat) as (Hc & t0 & Ht0 & He); [lia|].
    simpl in Hc, Ht0. injection Ht0 as <-.
    split; [exact Hc|]. split; [exact He|].
    intros i Hi. apply (H (S i)). lia.
  - intros (Hc & He & H) [|i] Hi; simpl.
    + split; [exact Hc|]. now exists t.
    + apply H. lia.
Qed.

(** The loop returns what the first decisive turn decides. *)
Lemma wait_connected_decides (end_ : xtime) (ticks : list Tick)
  (es : RemoteEngine * SocketBase) :
  exists j,
    waiting end_ j ticks es
    /\ snd (wait_connected end_ ticks es) = turns j ticks es
    /\ match fst (wait_connected end_ ticks es) with
       | Some rc =>
           if IsConnected (snd (turns j ticks es)) then rc = 0
           else rc = -1
                /\ exists t, nth_error ticks j = Some t
                             /\ expired end_ t = true
       | None =>
           j = length ticks
           /\ IsConnected (snd (turns j ticks es)) = false
       end.
Proof.
  revert es. induction ticks as [|t rest IH]; intros es.
  - exists 0%nat. split; [apply waiting_zero|]. simpl.
    destruct (IsConnected (snd es)) eqn:Hc; simpl; rewrite ?Hc; auto.
  - simpl. destruct (IsConnected (snd es)) eqn:Hc; simpl.
    + exists 0%nat. split; [apply waiting_zero|]. simpl. now rewrite Hc.
    + fold (expired end_ t). destruct (expired end_ t) eqn:He.
      * exists 0%nat. split; [apply waiting_zero|]. simpl. rewrite Hc.
        split; [reflexivity|]. split; [reflexivity|]. now exists t.
      * destruct (IH (poll_one_opt (ready t) es)) as (j & Hw & Hs & Hr).
        exists (S j). split; [now apply waiting_succ|].
        simpl. split; [exact Hs|].
        destruct (fst (wait_connected end_ rest (poll_one_opt (ready t) es)))
          as [rc|]; [exact Hr|].
        destruct Hr as [-> Hr]. auto.
Qed.

(** Two decisive turns are the same turn. *)
Lemma waiting_decisive_unique (end_ : xtime) (ticks : list Tick)
  (es : RemoteEngine * SocketBase) (j1 j2 : nat) :
  waiting end_ j1 ticks es ->
  waiting end_ j2 ticks es ->
  (IsConnected (snd (turns j1 ticks es)) = true
   \/ exists t, nth_error ticks j1 = Some t /\ expired end_ t = true) ->
  (IsConnected (snd (turns j2 ticks es)) = true
   \/ exists t, nth_error ticks j2 = Some t /\ expired end_ t = true) ->
  j1 = j2.
Proof.
  intros H1 H2 D1 D2.
  destruct (Nat.lt_total j1 j2) as [Hlt | [Heq | Hlt]]; [|exact Heq|].
  - destruct (H2 j1 Hlt) as (Hc & t & Ht & He).
    destruct D1 as [D1 | (t' & Ht' & He')]; congruence.
  - destruct (H1 j2 Hlt) as (Hc & t & Ht & He).
    destruct D2 as [D2 | (t' & Ht' & He')]; congruence.
Qed.

Lemma waiting_length (end_ : xtime) (j : nat) (ticks : list Tick)
  (es : RemoteEngine * SocketBase) :
  waiting end_ j ticks es -> (j <= length ticks)%nat.
Proof.
  intros H. destruct (Nat.le_gt_cases j (length ticks)) as [Hle|Hgt];
    [exact Hle|].
  destruct (H (length ticks) Hgt) as (_ & t & Ht & _).
  assert (Hn : nth_error ticks (length ticks) = None)
    by (apply nth_error_None; lia).
  congruence.
Qed.

Lemma wait_connected_fails_iff (end_ : xtime) (ticks : list Tick)
  (es : RemoteEngine * SocketBase) :
  fst (wait_connected end_ ticks es) = Some (-1)
  <-> exists j t,
        waiting end_ j ticks es
        /\ IsConnected (snd (turns j ticks es)) = false
        /\ nth_error ticks j = Some t
        /\ expired end_ t = true.
Proof.
  destruct (wait_connected_decides end_ ticks es) as (j & Hw & _ & Hr).
  split.
  - intros Hres. rewrite Hres in Hr.
    destruct (IsConnected (snd (turns j ticks es))) eqn:Hc; [discriminate|].
    destruct Hr as (_ & t & Ht & He). exists j, t. auto.
  - intros (j2 & t2 & Hw2 & Hc2 & Ht2 & He2).
    destruct (fst (wait_connected end_ ticks es)) as [rc|].
    + destruct (IsConnected (snd (turns j ticks es))) eqn:Hc.
      * assert (j = j2)
          by (apply (waiting_decisive_unique end_ ticks es); eauto).
        congruence.
      * destruct Hr as [-> _]. reflexivity.
    + destruct Hr as [-> Hc].
      assert (Hlt : (j2 < length ticks)%nat)
        by (apply nth_error_Some; congruence).
      destruct (Hw j2 Hlt) as (_ & t & Ht & He). congruence.
Qed.

Lemma wait_connected_succeeds_iff (end_ : xtime) (ticks : list Tick)
  (es : RemoteEngine * SocketBase) :
  fst (wait_connected end_ ticks es) = Some 0
  <-> exists j,
        waiting end_ j ticks es
        /\ IsConnected (snd (turns j ticks es)) = true.
Proof.
  destruct (wait_connected_decides end_ ticks es) as (j & Hw & _ & Hr).
  split.
  - intros Hres. rewrite Hres in Hr.
    destruct (IsConnected (snd (turns j ticks es))) eqn:Hc;
      [now exists j | now destruct Hr].
  - intros (j2 & Hw2 & Hc2).
    destruct (fst (wait_connected end_ ticks es)) as [rc|].
    + destruct (IsConnected (snd (turns j ticks es))) eqn:Hc;
        [now subst rc|].
      destruct Hr as (_ & t & Ht & He).
      assert (j = j2)
        by (apply (waiting_decisive_unique end_ ticks es); eauto).
      congruence.
    + destruct Hr as [-> Hc].
      pose proof (waiting_length _ _ _ _ Hw2) as Hle.
      destruct (Nat.eq_dec j2 (length ticks)) as [->|Hne]; [congruence|].
      destruct (Hw j2) as (Hc' & _); [lia | congruence].
Qed.

(** Once the time read has reached [end_], the loop has returned. *)
Lemma wait_connected_returns (end_ : xtime) (ticks : list Tick)
  (es : RemoteEngine * SocketBase) (t : Tick) :
  In t ticks -> expired end_ t = true ->
  fst (wait_connected end_ ticks es) <> None.
Proof.
  intros Hin He Hnone.
  destruct (wait_connected_decides end_ ticks es) as (j & Hw & _ & Hr).
  rewrite Hnone in Hr. destruct Hr as [-> _].
  apply In_nth_error in Hin. destruct Hin as [i Hi].
  assert (Hlt : (i < length ticks)%nat)
    by (apply nth_error_Some; congruence).
  destruct (Hw i Hlt) as (_ & t' & Ht' & He'). congruence.
Qed.

(** However often the accept fails, one accept is outstanding again and
    the connected flag is as it was. *)
Lemma accept_failures (n : nat) (e : RemoteEngine) (s : SocketBase) :
  accepts_in_flight s = 1%nat ->
  let es' :=
    conn_run (repeat (C_poll (Ev_accept_completes true)) n) (e, s) in
  fst es' = e
  /\ accepts_in_flight (snd es') = 1%nat
  /\ IsConnected (snd es') = IsConnected s
  /\ posted (snd es') = posted s.
Proof.
  revert s. induction n as [|n IH]; intros s Hs; simpl.
  - auto.
  - rewrite Hs. simpl.
    destruct (IH (async_accept (set_accepts_in_flight s 0)))
      as (H1 & H2 & H3 & H4); [reflexivity|].
    unfold conn_run in *. simpl in *. auto.
Qed.

(** C9. [ContextSocket::Start(waitSeconds)] issues one accept. With
    [waitSeconds < 0] it returns 0 at once, without a turn of the loop.
    With [waitSeconds >= 0] it returns -1 exactly when, at some turn,
    the time read has reached the deadline while the connection has not
    been found established at that turn or before, and 0 exactly when
    the connection is found established at some turn before the time
    read has reached the deadline; and it has returned as soon as the
    time read has reached the deadline. A failed accept is issued again,
    however often it fails, and leaves the connected flag alone; while
    the time read stays before the deadline, [Start] does not return -1,
    whatever fails. *)
Theorem ContextSocket_Start_result (waitSeconds : Z) (start : xtime)
  (ticks : list Tick) (e : RemoteEngine) (s : SocketBase) :
  let es1 := (e, async_accept s) in
  let end_ := deadline start waitSeconds in
  let result := ContextSocket_Start waitSeconds start ticks (e, s) in
  (waitSeconds < 0 -> result = (Some 0, es1))
  /\ (0 <= waitSeconds ->
      (fst result = Some (-1)
       <-> exists j t,
             waiting end_ j ticks es1
             /\ IsConnected (snd (turns j ticks es1)) = false
             /\ nth_error ticks j = Some t
             /\ xtime_cmp (now t) end_ >= 0)
      /\ (fst result = Some 0
          <-> exists j,
                waiting end_ j ticks es1
                /\ IsConnected (snd (turns j ticks es1)) = true)
      /\ (forall t,
             In t ticks -> xtime_cmp (now t) end_ >= 0 ->
             fst result <> None)
      /\ ((forall t, In t ticks -> xtime_cmp (now t) end_ < 0) ->
          fst result <> Some (-1)))
  /\ handleAccept s true = async_accept s
  /\ (forall n,
         accepts_in_flight s = 1%nat ->
         let es' :=
           conn_run (repeat (C_poll (Ev_accept_completes true)) n) (e, s) in
         accepts_in_flight (snd es') = 1%nat
         /\ IsConnected (snd es') = IsConnected s).
Proof.
  intros es1 end_ result.
  assert (Hexp : forall t,
             xtime_cmp (now t) end_ >= 0 <-> expired end_ t = true).
  { intros t. unfold expired. rewrite Z.geb_le. lia. }
  split; [|split; [|split]].
  - intros Hneg. subst result. unfold ContextSocket_Start.
    assert (Hge : (waitSeconds >=? 0) = false)
      by (rewrite Z.geb_leb; apply Z.leb_gt; lia).
    now rewrite Hge.
  - intros Hpos.
    assert (Hres : result = wait_connected end_ ticks es1).
    { subst result. unfold ContextSocket_Start.
      assert (Hge : (waitSeconds >=? 0) = true)
        by (rewrite Z.geb_leb; apply Z.leb_le; lia).
      now rewrite Hge. }
    rewrite Hres.
    split; [|split; [|split]].
    + rewrite wait_connected_fails_iff.
      split; intros (j & t & Hw & Hc & Ht & He); exists j, t;
        (split; [exact Hw|]); (split; [exact Hc|]); (split; [exact Ht|]);
        now apply Hexp.
    + apply wait_connected_succeeds_iff.
    + intros t Hin He. apply (wait_connected_returns end_ ticks es1 t Hin).
      now apply Hexp.
    + intros Hall Hfail.
      apply wait_connected_fails_iff in Hfail.
      destruct Hfail as (j & t & _ & _ & Ht & He).
      apply nth_error_In in Ht. apply Hall in Ht.
      apply Hexp in He. lia.
  - reflexivity.
  - intros n Hs es'. subst es'.
    destruct (accept_failures n e s Hs) as (_ & H2 & H3 & _). auto.
Qed.

Lemma ContextSocket_Start_result_witness :
  ContextSocket_Start (-1) clock0 accept_retried
    (RemoteEngine_new, SocketBase_new)
  = (Some 0, (RemoteEngine_new, async_accept SocketBase_new))
  /\ fst (ContextSocket_Start 1 clock0 accept_retried
            (RemoteEngine_new, SocketBase_new)) <> Some (-1)
  /\ fst (ContextSocket_Start 1 clock0 nobody_connects
            (RemoteEngine_new, SocketBase_new)) <> None.
Proof.
  split; [|split].
  - apply (proj1 (ContextSocket_Start_result (-1) clock0 accept_retried
                    RemoteEngine_new SocketBase_new)).
    lia.
  - destruct (ContextSocket_Start_result 1 clock0 accept_retried
                RemoteEngine_new SocketBase_new) as (_ & H & _).
    destruct H as (_ & _ & _ & H); [lia|].
    apply H. intros t Hin. simpl in Hin.
    repeat (destruct Hin as [<- | Hin]; [vm_compute; reflexivity|]).
    contradiction.
  - destruct (ContextSocket_Start_result 1 clock0 nobody_connects
                RemoteEngine_new SocketBase_new) as (_ & H & _).
    destruct H as (_ & _ & H & _); [lia|].
    apply (H (mkTick (mkXtime 101 1000) None)).
    + simpl. auto.
    + vm_compute. discriminate.
Defined.

Lemma write_queue_fifo_witness :
  (length (writes_in_flight writing_one_command) <= 2)%nat
  /\ exists n,
      writes_issued writing_one_command
      = flat_map asyncWrite_calls
          (firstn n [RemoteCommand_of changed_state_header [Byte.x01]]).
Proof.
  destruct (write_queue_fifo RemoteEngine_new
              [C_Connected; C_poll Ev_run_posted;
               C_Write changed_state_header [Byte.x01];
               C_poll Ev_run_posted])
    as (_ & Hlen & _ & Hfifo & _).
  split; [exact Hlen | exact Hfifo].
Defined.

(** * Further properties of the transport *)

(** ** Framing: what the senders hand to the connection *)

Lemma GetSize_nonneg (d : RemoteCommandData) : 0 <= GetSize d.
Proof. unfold GetSize. lia. Qed.

(** X1. The command that [WriteCommand], [WriteCommand] with a callback
    and [WriteResponse] hand to the connection carries the payload given,
    the type given and the engine's context id, and, for a payload
    shorter than 2^32 bytes, a header that announces the exact length of
    the payload; so [asyncWrite] writes the header alone for an empty
    payload and the header followed by the payload otherwise. *)
Theorem senders_frame_commands (e : RemoteEngine) (s : SocketBase)
  (t : RemoteCommandType) (d : RemoteCommandData)
  (r : RemoteCommandCallback) (readCommand : RemoteCommand) :
  m_socket e = Some s ->
  GetSize d < 2 ^ 32 ->
  let framed (c : RemoteCommand) :=
    data c = d /\ response c = None /\ GetType c = t
    /\ GetCtxId c = m_ctxId e
    /\ GetDataSize c = GetSize d
    /\ asyncWrite_calls c
       = match d with
         | [] => [mkAsyncWrite (HeaderBuffer (header c)) true]
         | _ :: _ => [mkAsyncWrite (HeaderBuffer (header c)) false;
                      mkAsyncWrite (DataBuffer d) true]
         end in
  (exists e' c,
      WriteCommand e t d = Some e'
      /\ m_socket e' = Some (post s (H_doWrite c)) /\ framed c)
  /\ (exists e' c,
         WriteCommand_response e t d r = Some e'
         /\ m_socket e' = Some (post s (H_doWrite c)) /\ framed c
         /\ m_waitResponseCommandList e'
            = m_waitResponseCommandList e ++ [mkWait (header c) r])
  /\ (exists e' c,
         WriteResponse e readCommand t d = Some e'
         /\ m_socket e' = Some (post s (H_doWrite c)) /\ framed c).
Proof.
  intros Hs Hsize framed.
  assert (Hd : to_uint32 (GetSize d) = GetSize d).
  { apply to_uint32_small. pose proof (GetSize_nonneg d).
    unfold is_uint32, uint32_modulus. lia. }
  assert (Hframed : forall h,
             type h = t -> ctxId h = m_ctxId e ->
             dataSize h = to_uint32 (GetSize d) ->
             framed (RemoteCommand_of h d)).
  { intros h Ht Hc Hds. unfold framed, GetType, GetCtxId, GetDataSize.
    simpl. rewrite Hds, Hd. repeat split; try assumption.
    unfold asyncWrite_calls, GetDataSize. simpl. rewrite Hds, Hd.
    destruct d as [|b d']; [reflexivity|].
    assert (Hnz : (GetSize (b :: d') =? 0) = false).
    { apply Z.eqb_neq. unfold GetSize. simpl length. lia. }
    now rewrite Hnz. }
  split; [|split].
  - unfold WriteCommand. rewrite InitCommandHeader_new.
    rewrite (socket_Write_some _ s) by exact Hs.
    eexists. eexists. split; [reflexivity|]. split; [reflexivity|].
    now apply Hframed.
  - unfold WriteCommand_response. rewrite InitCommandHeader_new.
    rewrite (socket_Write_some _ s) by exact Hs.
    eexists. eexists. split; [reflexivity|]. split; [reflexivity|].
    split; [now apply Hframed | reflexivity].
  - unfold WriteResponse.
    pose proof (InitCommandHeader_frame e t (GetSize d)
                  (to_int (GetCommandId readCommand))) as Hf.
    assert (Hds : dataSize (fst (InitCommandHeader e t (GetSize d)
                                   (to_int (GetCommandId readCommand))))
                  = to_uint32 (GetSize d)).
    { unfold InitCommandHeader.
      now destruct (to_int (GetCommandId readCommand) =? 0). }
    destruct (InitCommandHeader e t (GetSize d)
                (to_int (GetCommandId readCommand))) as [h e1].
    simpl in Hf, Hds. destruct Hf as (Hc & Ht & _ & Hsock & _).
    rewrite (socket_Write_some _ s) by congruence.
    eexists. eexists. split; [reflexivity|]. split; [reflexivity|].
    now apply Hframed.
Qed.

Lemma senders_frame_commands_witness :
  exists e' c,
    WriteCommand server_session REMOTECOMMANDTYPE_CHANGED_STATE [Byte.x01]
    = Some e'
    /\ GetDataSize c = 1
    /\ asyncWrite_calls c
       = [mkAsyncWrite (HeaderBuffer (header c)) false;
          mkAsyncWrite (DataBuffer [Byte.x01]) true].
Proof.
  destruct (m_socket server_session) as [s|] eqn:Hs;
    [|vm_compute in Hs; discriminate].
  destruct (senders_frame_commands server_session s
              REMOTECOMMANDTYPE_CHANGED_STATE [Byte.x01] 0%nat
              break_without_ctxId Hs)
    as ((e' & c & Hw & _ & _ & _ & _ & _ & Hds & Hcalls) & _).
  - vm_compute. reflexivity.
  - exists e', c. repeat split; assumption.
Defined.

(** ** From the writes of one side to the engine of the other *)

Lemma set_socket_same (e : RemoteEngine) (s : SocketBase) :
  m_socket e = Some s -> set_socket e (Some s) = e.
Proof. destruct e. simpl. now intros ->. Qed.

Lemma HandleReadCommand_socket (e : RemoteEngine) (c : RemoteCommand) :
  m_socket (HandleReadCommand e c) = m_socket e.
Proof. apply HandleReadCommand_fields. Qed.

Lemma HandleReadCommand_set_socket (e : RemoteEngine)
  (x : option SocketBase) (c : RemoteCommand) :
  HandleReadCommand (set_socket e x) c
  = set_socket (HandleReadCommand e c) x.
Proof.
  unfold HandleReadCommand. simpl.
  destruct (find_response c (m_waitResponseCommandList e)) as [c' waits].
  destruct (GetType c'); unfold SetCtxId; simpl;
    try destruct (m_ctxId e <? 0); simpl;
    try destruct (negb (m_ctxId e =? GetCtxId c'));
    try destruct (negb (m_ctxId e =? -1)); reflexivity.
Qed.

Lemma set_socket_twice (e : RemoteEngine) (x y : option SocketBase) :
  set_socket (set_socket e x) y = set_socket e y.
Proof. reflexivity. Qed.

(** Reading the writes of one well-framed command hands the command to
    the engine and leaves the connection as it was, waiting for the next
    header. *)
Lemma service_receives_command (e : RemoteEngine) (s : SocketBase)
  (c : RemoteCommand) :
  m_socket e = Some s ->
  reads_in_flight s = [ReadHeader] ->
  well_framed c ->
  service_all (receive_events (asyncWrite_calls c)) e
  = HandleReadCommand e (RemoteCommand_of (header c) (data c)).
Proof.
  intros Hs Hr [Hctx Hsize].
  assert (Hlt : (ctxId (header c) <? 0) = false)
    by (apply Z.ltb_ge; exact Hctx).
  destruct s as [ic so q p wf wi rf af cf]. simpl in Hr. subst rf.
  unfold asyncWrite_calls, GetDataSize in *.
  destruct (data c) as [|b d'] eqn:Hd.
  - assert (Hz : dataSize (header c) = 0) by (rewrite Hsize; reflexivity).
    rewrite Hz. simpl. unfold service. rewrite Hs. simpl.
    unfold GetCtxId, GetDataSize. simpl. rewrite Hlt, Hz. simpl.
    apply set_socket_same. now rewrite HandleReadCommand_socket.
  - assert (Hpos : 0 < dataSize (header c))
      by (rewrite Hsize; unfold GetSize; simpl length; lia).
    assert (Hnz : (dataSize (header c) =? 0) = false)
      by (apply Z.eqb_neq; lia).
    assert (Hgt : (dataSize (header c) >? 0) = true)
      by (apply Z.gtb_lt; lia).
    rewrite Hnz. simpl. unfold service at 2. rewrite Hs. simpl.
    unfold GetCtxId, GetDataSize. simpl. rewrite Hlt, Hgt. simpl.
    unfold service. simpl.
    rewrite HandleReadCommand_set_socket, set_socket_twice.
    apply set_socket_same. now rewrite HandleReadCommand_socket.
Qed.

Lemma service_all_app (evs1 evs2 : list Event) (e : RemoteEngine) :
  service_all (evs1 ++ evs2) e = service_all evs2 (service_all evs1 e).
Proof. unfold service_all. apply fold_left_app. Qed.

(** X2. What one side writes, the other side's engine receives: when a
    connection that waits for a header reads, without error, the writes
    issued for a list of well-framed commands, its engine ends in the
    state in which [HandleReadCommand] has been given each command, with
    its header and its payload, in the order in which they were written;
    the connection is again waiting for a header. *)
Theorem written_commands_are_received (cs : list RemoteCommand)
  (e : RemoteEngine) (s : SocketBase) :
  m_socket e = Some s ->
  reads_in_flight s = [ReadHeader] ->
  Forall well_framed cs ->
  service_all (receive_events (flat_map asyncWrite_calls cs)) e
  = fold_left HandleReadCommand
      (map (fun c => RemoteCommand_of (header c) (data c)) cs) e
  /\ m_socket
       (service_all (receive_events (flat_map asyncWrite_calls cs)) e)
     = Some s.
Proof.
  intros Hs Hr Hall. revert e Hs.
  induction Hall as [|c cs Hc Hcs IH]; intros e Hs.
  - simpl. auto.
  - simpl. unfold receive_events. rewrite map_app.
    fold (receive_events (asyncWrite_calls c)).
    fold (receive_events (flat_map asyncWrite_calls cs)).
    rewrite service_all_app.
    rewrite (service_receives_command e s c Hs Hr Hc).
    apply IH. now rewrite HandleReadCommand_socket.
Qed.

Lemma written_commands_are_received_witness :
  let c1 := RemoteCommand_of changed_state_header [Byte.x01] in
  let c2 := RemoteCommand_of (mkHeader REMOTECOMMANDTYPE_BREAK 7 5 0) [] in
  m_readCommandQueue
    (service_all (receive_events (flat_map asyncWrite_calls [c1; c2]))
       client_session)
  = m_readCommandQueue client_session ++ [c1; c2].
Proof.
  intros c1 c2.
  destruct (m_socket client_session) as [s|] eqn:Hs;
    [|vm_compute in Hs; discriminate].
  destruct (written_commands_are_received [c1; c2] client_session s Hs)
    as [Heq _].
  - vm_compute in Hs. injection Hs as <-. reflexivity.
  - repeat constructor; vm_compute; congruence.
  - rewrite Heq. vm_compute. reflexivity.
Defined.

(** ** A request and its response *)

Lemma find_response_none (c : RemoteCommand) (l : list WaitResponseCommand) :
  Forall (fun x => matches c x = false) l -> find_response c l = (c, l).
Proof.
  induction 1 as [|x l Hx Hl IH]; simpl; [reflexivity|].
  now rewrite Hx, IH.
Qed.

Lemma find_response_first (c : RemoteCommand) (w : WaitResponseCommand)
  (l1 l2 : list WaitResponseCommand) :
  Forall (fun x => matches c x = false) l1 ->
  matches c w = true ->
  find_response c (l1 ++ w :: l2)
  = (SetResponse c (wait_response w), l1 ++ l2).
Proof.
  intros Hall Hw. induction Hall as [|x l Hx Hl IH]; simpl.
  - now rewrite Hw.
  - now rewrite Hx, IH.
Qed.

Lemma not_waits_for_matches (c : RemoteCommand) (w : WaitResponseCommand) :
  ~ waits_for (GetCtxId c) (GetCommandId c) w -> matches c w = false.
Proof.
  intros H. apply matches_not_same_pair. unfold same_pair, waits_for in *.
  intros Heq. injection Heq as H1 H2. apply H. now split.
Qed.

(** X3. A request and its response find each other. Engine A sends a
    command with a callback; engine B, whose context id is the same,
    answers the command it received with [WriteResponse]. If A's counter
    was not 0 and A was not already waiting for a response with the same
    context id and command id, then the response, handed to A's
    [HandleReadCommand], is queued with the callback attached, and A's
    list of commands waiting for a response is what it was before the
    request; the same response arriving a second time is queued without
    a callback. *)
Theorem request_and_response (A B : RemoteEngine) (sA sB : SocketBase)
  (t t' : RemoteCommandType) (d d' : RemoteCommandData)
  (r : RemoteCommandCallback) :
  m_socket A = Some sA ->
  m_socket B = Some sB ->
  m_ctxId B = m_ctxId A ->
  is_uint32 (m_commandIdCounter A) ->
  m_commandIdCounter A <> 0 ->
  Forall (fun w => ~ waits_for (m_ctxId A) (m_commandIdCounter A) w)
    (m_waitResponseCommandList A) ->
  exists A1 request B1 reply,
    WriteCommand_response A t d r = Some A1
    /\ m_socket A1 = Some (post sA (H_doWrite request))
    /\ WriteResponse B request t' d' = Some B1
    /\ m_socket B1 = Some (post sB (H_doWrite reply))
    /\ GetType reply = t' /\ data reply = d'
    /\ m_waitResponseCommandList (HandleReadCommand A1 reply)
       = m_waitResponseCommandList A
    /\ m_readCommandQueue (HandleReadCommand A1 reply)
       = m_readCommandQueue A ++ [SetResponse reply r]
    /\ m_readCommandQueue
         (HandleReadCommand (HandleReadCommand A1 reply) reply)
       = m_readCommandQueue A ++ [SetResponse reply r; reply].
Proof.
  intros HsA HsB Hctx Hr Hnz Hfresh.
  set (hA := mkHeader t (m_ctxId A) (m_commandIdCounter A)
               (to_uint32 (GetSize d))).
  set (hB := mkHeader t' (m_ctxId B) (m_commandIdCounter A)
               (to_uint32 (GetSize d'))).
  set (reply := RemoteCommand_of hB d').
  assert (Hint : to_int (m_commandIdCounter A) <> 0).
  { apply Z.eqb_neq. rewrite (to_int_zero _ Hr). now apply Z.eqb_neq. }
  assert (Hnomatch : Forall (fun x => matches reply x = false)
                       (m_waitResponseCommandList A)).
  { eapply Forall_impl; [|exact Hfresh].
    intros w Hw. apply not_waits_for_matches.
    unfold reply, GetCtxId, GetCommandId. simpl. now rewrite Hctx. }
  assert (Hmatch : matches reply (mkWait hA r) = true).
  { unfold matches, reply, GetCtxId, GetCommandId. simpl.
    rewrite Hctx, !Z.eqb_refl. reflexivity. }
  eexists. exists (RemoteCommand_of hA d). eexists. exists reply.
  split.
  { unfold WriteCommand_response. rewrite InitCommandHeader_new.
    rewrite (socket_Write_some _ sA) by exact HsA. reflexivity. }
  split; [reflexivity|].
  split.
  { unfold WriteResponse, GetCommandId. simpl.
    rewrite (InitCommandHeader_given _ _ _ _ Hint).
    rewrite (socket_Write_some _ sB) by exact HsB.
    rewrite to_uint32_to_int, (to_uint32_small _ Hr). reflexivity. }
  split; [reflexivity|].
  split; [reflexivity|]. split; [reflexivity|].
  match goal with
  | |- context [HandleReadCommand ?x reply] => set (A1 := x)
  end.
  destruct (HandleReadCommand_fields A1 reply) as (Hw1 & Hq1 & _).
  assert (Hfind : find_response reply (m_waitResponseCommandList A1)
                  = (SetResponse reply r, m_waitResponseCommandList A)).
  { assert (Hwaits : m_waitResponseCommandList A1
                      = m_waitResponseCommandList A ++ [mkWait hA r])
      by reflexivity.
    rewrite Hwaits.
    rewrite (find_response_first reply (mkWait hA r) _ [] Hnomatch Hmatch).
    now rewrite app_nil_r. }
  rewrite Hfind in Hw1, Hq1. simpl in Hw1, Hq1.
  split; [exact Hw1|]. split; [exact Hq1|].
  destruct (HandleReadCommand_fields (HandleReadCommand A1 reply) reply)
    as (_ & Hq2 & _).
  rewrite Hq2, Hw1, Hq1, (find_response_none reply _ Hnomatch).
  simpl. now rewrite <- app_assoc.
Qed.

Lemma request_and_response_witness :
  exists A1 request B1 reply,
    WriteCommand_response client_session REMOTECOMMANDTYPE_EVAL [Byte.x41]
      6%nat = Some A1
    /\ WriteResponse server_session request REMOTECOMMANDTYPE_VALUE_STRING
         [Byte.x42] = Some B1
    /\ m_readCommandQueue (HandleReadCommand A1 reply)
       = m_readCommandQueue client_session ++ [SetResponse reply 6%nat].
Proof.
  destruct (m_socket client_session) as [sA|] eqn:HsA;
    [|vm_compute in HsA; discriminate].
  destruct (m_socket server_session) as [sB|] eqn:HsB;
    [|vm_compute in HsB; discriminate].
  destruct (request_and_response client_session server_session sA sB
              REMOTECOMMANDTYPE_EVAL REMOTECOMMANDTYPE_VALUE_STRING
              [Byte.x41] [Byte.x42] 6%nat HsA HsB)
    as (A1 & request & B1 & reply & H1 & _ & H3 & _ & _ & _ & _ & H8 & _).
  - vm_compute. reflexivity.
  - vm_compute. split; [discriminate | reflexivity].
  - vm_compute. discriminate.
  - vm_compute. constructor.
  - exists A1, request, B1, reply. auto.
Defined.

(** ** The reading never lapses *)

Lemma conn_act_read_invariant (e : RemoteEngine) (s : SocketBase)
  (a : ConnAction) :
  read_invariant s -> read_invariant (snd (conn_act (e, s) a)).
Proof.
  unfold read_invariant.
  destruct s as [ic so q p wf wi rf af cf]. simpl.
  intros (Ha & Hb & Hc). subst cf.
  destruct a as [h d| | |ev]; simpl; auto.
  destruct ev as [|err|h err|d err|err|err]; simpl; auto.
  - unfold run_posted; simpl.
    destruct p as [|[c| |] rest]; simpl; auto.
    + unfold doWrite; simpl. destruct q as [|c0 q]; simpl; auto.
      unfold asyncWrite. destruct (GetDataSize c =? 0); simpl; auto.
    + repeat split; intros; discriminate.
    + unfold connected; simpl. destruct ic; simpl; auto.
      repeat split.
      * intros _. destruct rf; discriminate.
      * intros Hso. specialize (Hb Hso). rewrite length_app. simpl. lia.
  - destruct wf as [|w rest]; simpl; auto.
    unfold handleWrite. destruct err; simpl.
    + repeat split; intros; discriminate.
    + destruct (deleteCommand w); simpl; auto.
      destruct (tl q) as [|c q']; simpl; auto.
      unfold asyncWrite. destruct (GetDataSize c =? 0); simpl; auto.
  - destruct rf as [|[|c] rest]; simpl; auto.
    destruct err; simpl; [repeat split; intros; discriminate|].
    unfold GetDataSize, GetCtxId; simpl.
    destruct (dataSize h >? 0); destruct (ctxId h <? 0); simpl;
      repeat split; try (intros; discriminate);
      try (intros _; destruct rest; discriminate);
      intros Hso; specialize (Hb Hso); destruct ic; simpl in *;
      try discriminate; rewrite length_app; simpl; lia.
  - destruct rf as [|[|c] rest]; simpl; auto.
    destruct err; simpl; [repeat split; intros; discriminate|].
    repeat split; try (intros _; destruct rest; discriminate).
    intros Hso; specialize (Hb Hso); destruct ic; simpl in *;
      try discriminate; rewrite length_app; simpl; lia.
  - destruct af; simpl; auto. destruct err; simpl; auto.
Qed.

(** X4. On a connection, from its construction on and whatever is asked
    of it and whatever completes: while it is connected a read is in
    flight, and as long as its socket has not been closed exactly one
    read is in flight once it is connected and none before. *)
Theorem reading_never_lapses (e : RemoteEngine) (acts : list ConnAction) :
  let s := snd (conn_run acts (e, SocketBase_new)) in
  (IsConnected s = true -> reads_in_flight s <> [])
  /\ (socket_open s = true ->
      length (reads_in_flight s) = if IsConnected s then 1%nat else 0%nat).
Proof.
  intros s.
  assert (Hinv : read_invariant s).
  { subst s.
    assert (Hgen : forall acts es,
               read_invariant (snd es) ->
               read_invariant (snd (conn_run acts es))).
    { clear. induction acts as [|a acts IH]; intros es Hes; [exact Hes|].
      unfold conn_run. simpl. apply IH. destruct es as [e s].
      now apply conn_act_read_invariant. }
    apply Hgen. unfold read_invariant. simpl. repeat split; auto.
    discriminate. }
  destruct Hinv as (Ha & Hb & _). auto.
Qed.

(** ** After a failed write *)

Lemma failing_writes (n : nat) (e : RemoteEngine) (s : SocketBase) :
  length (writes_in_flight s) = n ->
  let es' :=
    conn_run (repeat (C_poll (Ev_write_completes true)) n) (e, s) in
  writes_in_flight (snd es') = []
  /\ writes_issued (snd es') = writes_issued s
  /\ m_writeCommandQueue (snd es') = m_writeCommandQueue s.
Proof.
  revert s. induction n as [|n IH]; intros s Hlen.
  - simpl. destruct (writes_in_flight s); [auto | discriminate].
  - destruct s as [ic so q p wf wi rf af cf]. simpl in Hlen.
    destruct wf as [|w rest]; [discriminate|]. simpl in Hlen.
    unfold conn_run. simpl.
    destruct (IH (mkSocket false false q p rest wi rf af cf))
      as (H1 & H2 & H3); [simpl; lia|].
    unfold conn_run in *. simpl in *. auto.
Qed.

(** With nothing in flight and a command left in the queue, whatever
    happens next, no write is issued. *)
Lemma stalled_queue (acts : list ConnAction)
  (es : RemoteEngine * SocketBase) :
  writes_in_flight (snd es) = [] ->
  m_writeCommandQueue (snd es) <> [] ->
  let es' := conn_run acts es in
  writes_in_flight (snd es') = []
  /\ writes_issued (snd es') = writes_issued (snd es)
  /\ exists more,
      m_writeCommandQueue (snd es')
      = m_writeCommandQueue (snd es) ++ more.
Proof.
  revert es. induction acts as [|a acts IH]; intros [e s] Hfl Hq.
  - simpl. repeat split; auto. exists []. now rewrite app_nil_r.
  - unfold conn_run. simpl fold_left. simpl in Hfl, Hq.
    pose proof (conn_act_write_step e s a) as Hstep.
    destruct (conn_act (e, s) a) as [e1 s1]. simpl in Hstep.
    assert (Hnext : writes_in_flight s1 = []
                    /\ writes_issued s1 = writes_issued s
                    /\ exists more,
                        m_writeCommandQueue s1
                        = m_writeCommandQueue s ++ more).
    { remember (sent [a]) as n.
      destruct Hstep as
        [s' Hp Hq' Hf Hi
        |s' c Hp Hq' Hf Hi
        |s' c Hp Hq0 Hq' Hf Hi
        |s' c Hp Hq0 Hq' Hf Hi
        |s' w Hp Hq' Hf Hi
        |s' w Hdel Hp Hq' Hq0 Hf Hi
        |s' w rest c Hdel Hp Hq' Hhd Hf Hf' Hi]; try congruence.
      - rewrite Hf, Hi, Hq'. repeat split; auto.
        exists []. now rewrite app_nil_r.
      - rewrite Hf, Hi, Hq'. repeat split; auto.
        exists []. now rewrite app_nil_r.
      - rewrite Hf, Hi, Hq'. repeat split; auto. now exists [c]. }
    destruct Hnext as (Hfl1 & Hi1 & more1 & Hq1).
    destruct (IH (e1, s1)) as (H1 & H2 & more & H3); simpl.
    + exact Hfl1.
    + rewrite Hq1. destruct (m_writeCommandQueue s); [congruence|].
      discriminate.
    + unfold conn_run in *. simpl in *.
      rewrite H1, H2, H3, Hi1, Hq1. repeat split; auto.
      exists (more1 ++ more). now rewrite app_assoc.
Qed.

(** X5. A connection whose writes in flight all complete with an error
    never writes again: whatever is sent, completes or is asked of it
    afterwards, no [async_write] is issued; the commands sent later are
    only appended to the queue behind the command whose write failed. *)
Theorem failed_write_stalls (e : RemoteEngine)
  (before after : list ConnAction) :
  let es := conn_run before (e, SocketBase_new) in
  writes_in_flight (snd es) <> [] ->
  let failures :=
    repeat (C_poll (Ev_write_completes true))
      (length (writes_in_flight (snd es))) in
  let es' := conn_run (failures ++ after) es in
  writes_in_flight (snd es') = []
  /\ writes_issued (snd es') = writes_issued (snd es)
  /\ exists more,
      m_writeCommandQueue (snd es')
      = m_writeCommandQueue (snd es) ++ more.
Proof.
  intros es Hfl failures es'.
  pose proof (conn_run_invariant before [] e SocketBase_new
                write_invariant_new) as Hinv.
  fold es in Hinv.
  destruct Hinv as (done & k & _ & _ & _ & Hone).
  assert (Hq : m_writeCommandQueue (snd es) <> []).
  { destruct Hone as [Hnil | (c & q & _ & Hq & _)]; congruence. }
  subst es'. unfold conn_run. rewrite fold_left_app.
  fold (conn_run failures es).
  destruct es as [e0 s0] eqn:Hes. simpl in *.
  destruct (failing_writes (length (writes_in_flight s0)) e0 s0 eq_refl)
    as (H1 & H2 & H3).
  fold failures in H1, H2, H3.
  destruct (stalled_queue after (conn_run failures (e0, s0)))
    as (H4 & H5 & more & H6).
  - exact H1.
  - now rewrite H3.
  - unfold conn_run in *. rewrite H4, H5, H6, H2, H3.
    repeat split; auto. now exists more.
Qed.

Lemma failed_write_stalls_witness :
  let after :=
    [C_Write (mkHeader REMOTECOMMANDTYPE_BREAK 7 5 0) [];
     C_poll Ev_run_posted; C_poll (Ev_write_completes false)] in
  let s' :=
    snd (conn_run
           ([C_poll (Ev_write_completes true);
             C_poll (Ev_write_completes true)] ++ after)
           (conn_run
              [C_Connected; C_poll Ev_run_posted;
               C_Write changed_state_header [Byte.x01];
               C_poll Ev_run_posted]
              (RemoteEngine_new, SocketBase_new))) in
  writes_issued s' = writes_issued writing_one_command
  /\ length (m_writeCommandQueue s') = 2%nat.
Proof.
  intros after s'.
  destruct (failed_write_stalls RemoteEngine_new
              [C_Connected; C_poll Ev_run_posted;
               C_Write changed_state_header [Byte.x01];
               C_poll Ev_run_posted] after)
    as (_ & Hissued & _).
  - vm_compute. discriminate.
  - split; [exact Hissued | vm_compute; reflexivity].
Defined.

(** ** The queue of received commands *)

Lemma find_response_keeps (c : RemoteCommand)
  (l : list WaitResponseCommand) :
  header (fst (find_response c l)) = header c
  /\ data (fst (find_response c l)) = data c.
Proof.
  induction l as [|w l IH]; simpl; [auto|].
  destruct (matches c w); simpl; [auto|].
  destruct (find_response c l). simpl in *. exact IH.
Qed.

Lemma service_queue (ev : Event) (e : RemoteEngine) :
  exists l,
    m_readCommandQueue (service ev e) = m_readCommandQueue e ++ l
    /\ map header l = map header (deliveries [ev] e)
    /\ map data l = map data (deliveries [ev] e).
Proof.
  simpl. destruct (m_socket e) as [s|] eqn:Hs.
  - rewrite (service_unfold ev e s Hs). simpl.
    destruct (delivered ev s) as [c|].
    + destruct (HandleReadCommand_fields e c) as (_ & Hq & _).
      rewrite Hq. eexists. split; [reflexivity|]. simpl.
      destruct (find_response_keeps c (m_waitResponseCommandList e))
        as [-> ->]. auto.
    + exists []. simpl. now rewrite app_nil_r.
  - unfold service. rewrite Hs. exists []. simpl. now rewrite app_nil_r.
Qed.

Lemma deliveries_cons (ev : Event) (evs : list Event) (e : RemoteEngine) :
  deliveries (ev :: evs) e
  = deliveries [ev] e ++ deliveries evs (service ev e).
Proof. simpl. now rewrite app_nil_r. Qed.

(** X6. The service thread only appends to the queue of received
    commands: after any events the queue is the queue before followed by
    the commands delivered during the events, in the order of their
    delivery and with the headers and payloads read; nothing received is
    dropped, reordered or altered but for the callback attached. *)
Theorem received_commands_in_order (evs : list Event) (e : RemoteEngine) :
  exists l,
    m_readCommandQueue (service_all evs e) = m_readCommandQueue e ++ l
    /\ map header l = map header (deliveries evs e)
    /\ map data l = map data (deliveries evs e).
Proof.
  revert e. induction evs as [|ev evs IH]; intros e.
  - exists []. simpl. now rewrite app_nil_r.
  - destruct (service_queue ev e) as (l1 & Hq1 & Hh1 & Hd1).
    destruct (IH (service ev e)) as (l2 & Hq2 & Hh2 & Hd2).
    exists (l1 ++ l2).
    change (service_all (ev :: evs) e)
      with (service_all evs (service ev e)).
    rewrite Hq2, Hq1, <- app_assoc. split; [reflexivity|].
    rewrite deliveries_cons, !map_app. split; congruence.
Qed.

Lemma poll_one_socket_any_engine (ev : Event) (e1 e2 : RemoteEngine)
  (s : SocketBase) :
  snd (poll_one ev (e1, s)) = snd (poll_one ev (e2, s)).
Proof.
  unfold poll_one.
  destruct ev as [|err|h err|d err|err|err]; simpl; try reflexivity.
  - now destruct (writes_in_flight s).
  - destruct (reads_in_flight s) as [|[|c] rest]; try reflexivity.
    unfold handleReadCommand, handleReadData.
    destruct err; simpl; [reflexivity|].
    now destruct (GetDataSize _ >? 0).
  - destruct (reads_in_flight s) as [|[|c] rest]; try reflexivity.
    unfold handleReadData. now destruct err.
  - now destruct (accepts_in_flight s).
  - now destruct (connects_in_flight s).
Qed.

Lemma HandleReadCommand_PopCommand (e : RemoteEngine) (c : RemoteCommand) :
  m_readCommandQueue e <> [] ->
  HandleReadCommand (PopCommand e) c = PopCommand (HandleReadCommand e c).
Proof.
  intros Hq. unfold HandleReadCommand, PopCommand. simpl.
  destruct (find_response c (m_waitResponseCommandList e)) as [c' waits].
  destruct (m_readCommandQueue e) as [|c0 q] eqn:Hqueue; [congruence|].
  destruct (GetType c'); unfold SetCtxId; simpl;
    try destruct (m_ctxId e <? 0); simpl;
    try destruct (negb (m_ctxId e =? GetCtxId c'));
    try destruct (negb (m_ctxId e =? -1)); simpl; rewrite ?Hqueue;
    reflexivity.
Qed.

Lemma service_PopCommand (ev : Event) (e : RemoteEngine) :
  m_readCommandQueue e <> [] ->
  service ev (PopCommand e) = PopCommand (service ev e)
  /\ GetCommand (service ev e) = GetCommand e.
Proof.
  intros Hq.
  destruct (m_socket e) as [s|] eqn:Hs.
  - rewrite (service_unfold ev e s Hs).
    rewrite (service_unfold ev (PopCommand e) s) by exact Hs.
    rewrite (poll_one_socket_any_engine ev (PopCommand e) e).
    destruct (delivered ev s) as [c|]; split; try reflexivity.
    + now rewrite HandleReadCommand_PopCommand.
    + unfold GetCommand. simpl.
      destruct (HandleReadCommand_fields e c) as (_ & Hqueue & _).
      rewrite Hqueue. now destruct (m_readCommandQueue e).
  - unfold service. simpl. rewrite Hs. auto.
Qed.

(** X7. Looking at the first received command and popping it are two
    calls, and commands may arrive in between; none is lost. If the queue
    of received commands is not empty, then after any events of the
    service thread [GetCommand] still returns the same command, and
    [PopCommand] removes that command and nothing else: popping after
    the events gives the state that the events give after popping. *)
Theorem peek_then_pop_loses_nothing (evs : list Event) (e : RemoteEngine) :
  HasCommand e = true ->
  GetCommand (service_all evs e) = GetCommand e
  /\ PopCommand (service_all evs e) = service_all evs (PopCommand e).
Proof.
  intros Hhas.
  assert (Hq : m_readCommandQueue e <> []).
  { unfold HasCommand in Hhas. destruct (m_readCommandQueue e);
      [discriminate | discriminate]. }
  clear Hhas. revert e Hq.
  induction evs as [|ev evs IH]; intros e Hq; [auto|].
  change (service_all (ev :: evs) e) with (service_all evs (service ev e)).
  change (service_all (ev :: evs) (PopCommand e))
    with (service_all evs (service ev (PopCommand e))).
  destruct (service_PopCommand ev e Hq) as [Hpop Hget].
  assert (Hq1 : m_readCommandQueue (service ev e) <> []).
  { unfold GetCommand in Hget.
    destruct (m_readCommandQueue (service ev e)); [|discriminate].
    destruct (m_readCommandQueue e); [congruence | discriminate]. }
  destruct (IH (service ev e) Hq1) as [H1 H2].
  rewrite H1, Hget, H2, Hpop. auto.
Qed.

Lemma peek_then_pop_loses_nothing_witness :
  let arrival :=
    [Ev_header_read (mkHeader REMOTECOMMANDTYPE_BREAK 7 5 0) false] in
  GetCommand (service_all arrival server_session)
  = GetCommand server_session
  /\ length (m_readCommandQueue
               (PopCommand (service_all arrival server_session)))
     = 1%nat.
Proof.
  intros arrival.
  destruct (peek_then_pop_loses_nothing arrival server_session)
    as [Hget Hpop].
  - vm_compute. reflexivity.
  - split; [exact Hget|]. rewrite Hpop. vm_compute. reflexivity.
Defined.

(** ** Starting the engine *)

Lemma HandleReadCommand_thread (e : RemoteEngine) (c : RemoteCommand) :
  m_isThreadActive (HandleReadCommand e c) = m_isThreadActive e.
Proof.
  unfold HandleReadCommand.
  destruct (find_response c (m_waitResponseCommandList e)) as [c' waits].
  destruct (GetType c'); unfold SetCtxId; simpl;
    try destruct (m_ctxId e <? 0); simpl;
    try destruct (negb (m_ctxId e =? GetCtxId c'));
    try destruct (negb (m_ctxId e =? -1)); reflexivity.
Qed.

Lemma service_keeps_running (ev : Event) (e : RemoteEngine) :
  m_isThreadActive (service ev e) = m_isThreadActive e
  /\ ((exists s, m_socket e = Some s) ->
      exists s', m_socket (service ev e) = Some s').
Proof.
  destruct (m_socket e) as [s|] eqn:Hs.
  - rewrite (service_unfold ev e s Hs). simpl. split.
    + destruct (delivered ev s); [apply HandleReadCommand_thread|auto].
    + intros _. eexists. reflexivity.
  - unfold service. rewrite Hs. split; [reflexivity|].
    intros [s Habs]. discriminate.
Qed.

Lemma service_all_keeps_running (evs : list Event) (e : RemoteEngine) :
  m_isThreadActive (service_all evs e) = m_isThreadActive e
  /\ ((exists s, m_socket e = Some s) ->
      exists s', m_socket (service_all evs e) = Some s').
Proof.
  revert e. induction evs as [|ev evs IH]; intros e; [auto|].
  change (service_all (ev :: evs) e) with (service_all evs (service ev e)).
  destruct (IH (service ev e)) as [H1 H2].
  destruct (service_keeps_running ev e) as [H3 H4].
  split; [congruence | auto].
Qed.





(** While the connection is not connected nothing is read, so a turn of
    the waiting loop leaves the engine alone. *)
Lemma poll_one_before_connected (ev : Event) (e : RemoteEngine)
  (s : SocketBase) :
  reads_in_flight s = [] ->
  IsConnected s = false ->
  fst (poll_one ev (e, s)) = e
  /\ (IsConnected (snd (poll_one ev (e, s))) = false ->
      reads_in_flight (snd (poll_one ev (e, s))) = []).
Proof.
  intros Hinv Hc.
  destruct s as [ic so q p wf wi rf af cf]. simpl in *. subst ic rf.
  destruct ev as [|err|h err|d err|err|err]; simpl; auto.
  - unfold run_posted; simpl.
    destruct p as [|[c| |] rest]; simpl; auto.
    + unfold doWrite; simpl. destruct q as [|c0 q]; simpl; auto.
      unfold asyncWrite. destruct (GetDataSize c =? 0); simpl; auto.
    + split; [reflexivity | discriminate].
  - destruct wf as [|w rest]; simpl; auto.
    unfold handleWrite. destruct err; simpl; auto.
    destruct (deleteCommand w); simpl; auto.
    destruct (tl q) as [|c q']; simpl; auto.
    unfold asyncWrite. destruct (GetDataSize c =? 0); simpl; auto.
  - destruct af; simpl; auto. destruct err; simpl; auto.
  - destruct cf; simpl; auto. destruct err; simpl; auto.
Qed.

Lemma wait_connected_engine (end_ : xtime) (ticks : list Tick)
  (es : RemoteEngine * SocketBase) :
  (IsConnected (snd es) = false -> reads_in_flight (snd es) = []) ->
  fst (snd (wait_connected end_ ticks es)) = fst es.
Proof.
  revert es. induction ticks as [|t rest IH]; intros [e s] Hinv; simpl.
  - now destruct (IsConnected s).
  - simpl in Hinv.
    destruct (IsConnected s) eqn:Hc; simpl; [reflexivity|].
    specialize (Hinv eq_refl).
    destruct (xtime_cmp (now t) end_ >=? 0); simpl; [reflexivity|].
    destruct (ready t) as [ev|]; unfold poll_one_opt.
    + destruct (poll_one_before_connected ev e s Hinv Hc) as [He Hinv'].
      rewrite (IH (poll_one ev (e, s)) Hinv'). exact He.
    + apply (IH (e, s)). intros _. exact Hinv.
Qed.

(** X9. When the connection is not established in time, [StartContext]
    and [StartFrame] return -1 and leave the engine exactly as it was:
    no socket is installed, the counter is not seeded, no thread is
    started and nothing is sent. *)
Theorem Start_timeout_leaves_engine (e : RemoteEngine)
  (ctxId waitSeconds : Z) (start : xtime) (ticks : list Tick)
  (during_wait : list Event) :
  (fst (ContextSocket_Start waitSeconds start ticks (e, SocketBase_new))
   = Some (-1) ->
   StartContext e ctxId waitSeconds start ticks during_wait = Some (-1, e))
  /\ (fst (FrameSocket_Start waitSeconds start ticks (e, SocketBase_new))
      = Some (-1) ->
      StartFrame e waitSeconds start ticks during_wait = Some (-1, e)).
Proof.
  split; intros Hfail.
  - unfold StartContext.
    assert (He : fst (snd (ContextSocket_Start waitSeconds start ticks
                             (e, SocketBase_new))) = e).
    { unfold ContextSocket_Start. destruct (waitSeconds >=? 0);
        [|reflexivity].
      now rewrite wait_connected_engine. }
    destruct (ContextSocket_Start waitSeconds start ticks
                (e, SocketBase_new)) as [[rc|] [e0 socket]];
      simpl in *; [|discriminate].
    injection Hfail as ->. subst e0. reflexivity.
  - unfold StartFrame.
    assert (He : fst (snd (FrameSocket_Start waitSeconds start ticks
                             (e, SocketBase_new))) = e).
    { unfold FrameSocket_Start. destruct (waitSeconds >=? 0);
        [|reflexivity].
      now rewrite wait_connected_engine. }
    destruct (FrameSocket_Start waitSeconds start ticks
                (e, SocketBase_new)) as [[rc|] [e0 socket]];
      simpl in *; [|discriminate].
    injection Hfail as ->. subst e0. reflexivity.
Qed.

Lemma Start_timeout_leaves_engine_witness :
  StartContext RemoteEngine_new 7 1 clock0 nobody_connects []
  = Some (-1, RemoteEngine_new).
Proof.
  apply (proj1 (Start_timeout_leaves_engine RemoteEngine_new 7 1 clock0
                  nobody_connects [])).
  vm_compute. reflexivity.
Defined.

(** ** The dialer: [FrameSocket::Start] *)

(** However often the connect fails, the socket is open again, one
    connect is outstanding and the connected flag is as it was. *)
Lemma connect_failures (n : nat) (e : RemoteEngine) (s : SocketBase) :
  connects_in_flight s = 1%nat ->
  socket_open s = true ->
  let es' :=
    conn_run (repeat (C_poll (Ev_connect_completes true)) n) (e, s) in
  fst es' = e
  /\ connects_in_flight (snd es') = 1%nat
  /\ socket_open (snd es') = true
  /\ IsConnected (snd es') = IsConnected s.
Proof.
  revert s. induction n as [|n IH]; intros s Hs Ho; simpl.
  - auto.
  - rewrite Hs. simpl.
    destruct (IH (async_connect
                    (set_socket_open (set_connects_in_flight s 0) false)))
      as (H1 & H2 & H3 & H4); [reflexivity | reflexivity |].
    unfold conn_run in *. simpl in *. auto.
Qed.

(** X10. [FrameSocket::Start(waitSeconds)] issues one connect. With
    [waitSeconds < 0] it returns 0 at once. With [waitSeconds >= 0] it
    returns -1 exactly when, at some turn of its loop, the time read has
    reached the deadline while the connection has not been found
    established at that turn or before, and 0 exactly when the
    connection is found established at some turn before that. A failed
    connect closes the socket and is issued again, however often it
    fails; while the time read stays before the deadline, [Start] does
    not return -1. *)
Theorem FrameSocket_Start_result (waitSeconds : Z) (start : xtime)
  (ticks : list Tick) (e : RemoteEngine) (s : SocketBase) :
  let es1 := (e, async_connect s) in
  let end_ := deadline start waitSeconds in
  let result := FrameSocket_Start waitSeconds start ticks (e, s) in
  (waitSeconds < 0 -> result = (Some 0, es1))
  /\ (0 <= waitSeconds ->
      (fst result = Some (-1)
       <-> exists j t,
             waiting end_ j ticks es1
             /\ IsConnected (snd (turns j ticks es1)) = false
             /\ nth_error ticks j = Some t
             /\ xtime_cmp (now t) end_ >= 0)
      /\ (fst result = Some 0
          <-> exists j,
                waiting end_ j ticks es1
                /\ IsConnected (snd (turns j ticks es1)) = true)
      /\ ((forall t, In t ticks -> xtime_cmp (now t) end_ < 0) ->
          fst result <> Some (-1)))
  /\ (forall n,
         connects_in_flight s = 0%nat ->
         let es' :=
           conn_run (repeat (C_poll (Ev_connect_completes true)) n) es1 in
         connects_in_flight (snd es') = 1%nat
         /\ socket_open (snd es') = true
         /\ IsConnected (snd es') = IsConnected s).
Proof.
  intros es1 end_ result.
  assert (Hexp : forall t,
             xtime_cmp (now t) end_ >= 0 <-> expired end_ t = true).
  { intros t. unfold expired. rewrite Z.geb_le. lia. }
  assert (Hretry : forall n,
             connects_in_flight s = 0%nat ->
             let es' :=
               conn_run (repeat (C_poll (Ev_connect_completes true)) n)
                 es1 in
             connects_in_flight (snd es') = 1%nat
             /\ socket_open (snd es') = true
             /\ IsConnected (snd es') = IsConnected s).
  { intros n Hz es'. subst es' es1.
    destruct (connect_failures n e (async_connect s))
      as (_ & H2 & H3 & H4).
    - simpl. now rewrite Hz.
    - reflexivity.
    - auto. }
  split; [|split].
  - intros Hneg. subst result. unfold FrameSocket_Start.
    assert (Hge : (waitSeconds >=? 0) = false)
      by (rewrite Z.geb_leb; apply Z.leb_gt; lia).
    now rewrite Hge.
  - intros Hpos.
    assert (Hres : result = wait_connected end_ ticks es1).
    { subst result. unfold FrameSocket_Start.
      assert (Hge : (waitSeconds >=? 0) = true)
        by (rewrite Z.geb_leb; apply Z.leb_le; lia).
      now rewrite Hge. }
    rewrite Hres.
    split; [|split].
    + rewrite wait_connected_fails_iff.
      split; intros (j & t & Hw & Hc & Ht & He); exists j, t;
        (split; [exact Hw|]); (split; [exact Hc|]); (split; [exact Ht|]);
        now apply Hexp.
    + apply wait_connected_succeeds_iff.
    + intros Hall Hfail.
      apply wait_connected_fails_iff in Hfail.
      destruct Hfail as (j & t & _ & _ & Ht & He).
      apply nth_error_In in Ht. apply Hall in Ht.
      apply Hexp in He. lia.
  - exact Hretry.
Qed.

Lemma FrameSocket_Start_result_witness :
  fst (FrameSocket_Start 1 clock0 connect_retried
         (RemoteEngine_new, SocketBase_new)) <> Some (-1)
  /\ FrameSocket_Start (-1) clock0 connect_retried
       (RemoteEngine_new, SocketBase_new)
     = (Some 0, (RemoteEngine_new, async_connect SocketBase_new)).
Proof.
  destruct (FrameSocket_Start_result 1 clock0 connect_retried
              RemoteEngine_new SocketBase_new) as (_ & H & _).
  destruct H as (_ & _ & H); [lia|].
  split.
  - apply H. intros t Hin. simpl in Hin.
    repeat (destruct Hin as [<- | Hin]; [vm_compute; reflexivity|]).
    contradiction.
  - apply (proj1 (FrameSocket_Start_result (-1) clock0 connect_retried
                    RemoteEngine_new SocketBase_new)).
    lia.
Defined.

(** ** The service thread *)

Lemma HandleReadCommand_SetThreadActive (e : RemoteEngine) (b : bool)
  (c : RemoteCommand) :
  HandleReadCommand (SetThreadActive e b) c
  = SetThreadActive (HandleReadCommand e c) b.
Proof.
  unfold HandleReadCommand. simpl.
  destruct (find_response c (m_waitResponseCommandList e)) as [c' waits].
  destruct (GetType c'); unfold SetCtxId; simpl;
    try destruct (m_ctxId e <? 0); simpl;
    try destruct (negb (m_ctxId e =? GetCtxId c'));
    try destruct (negb (m_ctxId e =? -1)); reflexivity.
Qed.

Lemma service_SetThreadActive (ev : Event) (e : RemoteEngine) (b : bool) :
  service ev (SetThreadActive e b) = SetThreadActive (service ev e) b.
Proof.
  destruct (m_socket e) as [s|] eqn:Hs.
  - rewrite (service_unfold ev e s Hs).
    rewrite (service_unfold ev (SetThreadActive e b) s) by exact Hs.
    rewrite (poll_one_socket_any_engine ev (SetThreadActive e b) e).
    destruct (delivered ev s) as [c|]; [|reflexivity].
    now rewrite HandleReadCommand_SetThreadActive.
  - unfold service. simpl. now rewrite Hs.
Qed.

Lemma service_all_SetThreadActive (evs : list Event) (e : RemoteEngine)
  (b : bool) :
  service_all evs (SetThreadActive e b)
  = SetThreadActive (service_all evs e) b.
Proof.
  revert e. induction evs as [|ev evs IH]; intros e; [reflexivity|].
  change (service_all (ev :: evs) (SetThreadActive e b))
    with (service_all evs (service ev (SetThreadActive e b))).
  now rewrite service_SetThreadActive, IH.
Qed.

Lemma fold_service_opt (l : list (option Event)) (e : RemoteEngine) :
  fold_left service_opt l e = service_all (events_of l) e.
Proof.
  revert e. induction l as [|[ev|] l IH]; intros e; simpl; auto.
Qed.

Lemma SetThreadActive_same (e : RemoteEngine) :
  SetThreadActive e (m_isThreadActive e) = e.
Proof. now destruct e. Qed.

Lemma SetThreadActive_inactive (e : RemoteEngine) :
  m_isThreadActive e = false -> SetThreadActive e false = e.
Proof. intros H. rewrite <- H at 1. apply SetThreadActive_same. Qed.

Lemma SetThreadActive_twice (e : RemoteEngine) (b1 b2 : bool) :
  SetThreadActive (SetThreadActive e b1) b2 = SetThreadActive e b2.
Proof. reflexivity. Qed.

Lemma service_all_thread (evs : list Event) (e : RemoteEngine) :
  m_isThreadActive (service_all evs e) = m_isThreadActive e.
Proof. apply service_all_keeps_running. Qed.

(** The loop leaves with the thread marked inactive, after the events
    polled, in order. *)
Lemma ServiceThread_loop_result (rounds : list Round)
  (e e' : RemoteEngine) :
  ServiceThread_loop rounds e = Some e' ->
  e' = SetThreadActive
         (service_all (polled (negb (m_isThreadActive e)) rounds) e) false.
Proof.
  revert e.
  induction rounds as [|r rest IH]; intros e;
    cbn [ServiceThread_loop polled]; [discriminate|].
  rewrite fold_service_opt.
  remember (events_of (firstn 10 (burst r))) as b eqn:Hb. clear Hb.
  destruct (stop_called r); simpl.
  - rewrite orb_true_r.
    destruct (last_poll r) as [ev|].
    + intros H. apply IH in H. simpl in H.
      rewrite H, service_SetThreadActive, service_all_SetThreadActive.
      rewrite SetThreadActive_twice, service_all_app. reflexivity.
    + intros H. now injection H as <-.
  - rewrite orb_false_r, service_all_thread.
    destruct (m_isThreadActive e) eqn:Hact; simpl.
    + intros H. apply IH in H.
      rewrite service_all_thread, Hact in H. simpl in H.
      now rewrite H, service_all_app.
    + destruct (last_poll r) as [ev|].
      * intros H. apply IH in H.
        assert (Hf : m_isThreadActive (service ev (service_all b e))
                     = false).
        { destruct (service_keeps_running ev (service_all b e)) as [-> _].
          now rewrite service_all_thread. }
        rewrite Hf in H. simpl in H.
        rewrite H, service_all_app. reflexivity.
      * intros H. injection H as <-.
        rewrite <- (service_all_thread b e) in Hact.
        rewrite <- Hact. symmetry. apply SetThreadActive_same.
Qed.

Lemma ServiceThread_loop_never_stopped (rounds : list Round)
  (e : RemoteEngine) :
  m_isThreadActive e = true ->
  Forall (fun r => stop_called r = false) rounds ->
  ServiceThread_loop rounds e = None.
Proof.
  intros Hact Hall. revert e Hact.
  induction Hall as [|r rest Hr Hrest IH]; intros e Hact;
    cbn [ServiceThread_loop]; [reflexivity|].
  rewrite Hr, fold_service_opt, service_all_thread, Hact. simpl.
  apply IH. now rewrite service_all_thread.
Qed.

(** When the loop leaves, the thread has been asked to stop and the last
    [poll_one] found nothing to run. *)
Lemma ServiceThread_loop_leaves_idle (rounds : list Round)
  (e e' : RemoteEngine) :
  ServiceThread_loop rounds e = Some e' ->
  exists k r,
    nth_error rounds k = Some r
    /\ last_poll r = None
    /\ (m_isThreadActive e = true ->
        exists j r', (j <= k)%nat /\ nth_error rounds j = Some r'
                     /\ stop_called r' = true).
Proof.
  revert e.
  induction rounds as [|r rest IH]; intros e;
    cbn [ServiceThread_loop polled]; [discriminate|].
  rewrite fold_service_opt.
  remember (events_of (firstn 10 (burst r))) as b eqn:Hb. clear Hb.
  destruct (stop_called r) eqn:Hstop; simpl.
  - destruct (last_poll r) as [ev|] eqn:Hlast.
    + intros H. apply IH in H. destruct H as (k & r0 & Hk & Hl & _).
      exists (S k), r0. repeat split; auto.
      intros _. exists 0%nat, r. repeat split; auto. lia.
    + intros _. exists 0%nat, r. repeat split; auto.
      intros _. exists 0%nat, r. auto.
  - rewrite service_all_thread.
    destruct (m_isThreadActive e) eqn:Hact; simpl.
    + intros H. apply IH in H. destruct H as (k & r0 & Hk & Hl & Hj).
      exists (S k), r0. repeat split; auto.
      intros _. rewrite service_all_thread in Hj.
      destruct (Hj Hact) as (j & r' & Hle & Hn & Hs).
      exists (S j), r'. repeat split; auto. lia.
    + destruct (last_poll r) as [ev|] eqn:Hlast.
      * intros H. apply IH in H. destruct H as (k & r0 & Hk & Hl & _).
        exists (S k), r0. repeat split; auto. discriminate.
      * intros _. exists 0%nat, r. repeat split; auto. discriminate.
Qed.

(** X11. [ServiceThread] returns at once, changing nothing, when the
    thread is already marked active. Otherwise it keeps turning as long
    as nobody asks it to stop; it leaves only in a round in which it has
    been asked to stop and its last [poll_one] found nothing to run; and
    when it leaves, the engine is the one that has run every event
    polled until then, in the order polled, with the thread marked
    inactive. *)
Theorem ServiceThread_result (rounds : list Round) (e : RemoteEngine) :
  (m_isThreadActive e = true -> ServiceThread rounds e = Some e)
  /\ (m_isThreadActive e = false ->
      (Forall (fun r => stop_called r = false) rounds ->
       ServiceThread rounds e = None)
      /\ (forall e',
             ServiceThread rounds e = Some e' ->
             e' = service_all (polled false rounds) e
             /\ m_isThreadActive e' = false
             /\ exists k r j r',
                 nth_error rounds k = Some r /\ last_poll r = None
                 /\ (j <= k)%nat /\ nth_error rounds j = Some r'
                 /\ stop_called r' = true)).
Proof.
  unfold ServiceThread. split.
  - now intros ->.
  - intros Hact. rewrite Hact. split.
    + intros Hall.
      now rewrite (ServiceThread_loop_never_stopped rounds
                     (SetThreadActive e true) eq_refl Hall).
    + intros e'.
      destruct (ServiceThread_loop rounds (SetThreadActive e true))
        as [e1|] eqn:Hloop; [|discriminate].
      intros H. injection H as <-.
      pose proof (ServiceThread_loop_result _ _ _ Hloop) as Hres.
      simpl in Hres.
      rewrite service_all_SetThreadActive, SetThreadActive_twice in Hres.
      split; [|split].
      * rewrite Hres, SetThreadActive_twice.
        apply SetThreadActive_inactive. now rewrite service_all_thread.
      * reflexivity.
      * destruct (ServiceThread_loop_leaves_idle _ _ _ Hloop)
          as (k & r & Hk & Hl & Hj).
        destruct (Hj eq_refl) as (j & r' & Hle & Hn & Hs).
        exists k, r, j, r'. auto.
Qed.

Lemma ServiceThread_result_witness :
  let e := SetThreadActive server_later false in
  exists e',
    ServiceThread stopping_rounds e = Some e'
    /\ e' = service_all (polled false stopping_rounds) e.
Proof.
  intros e.
  destruct (ServiceThread stopping_rounds e) as [e'|] eqn:Hrun;
    [|vm_compute in Hrun; discriminate].
  exists e'. split; [reflexivity|].
  destruct (ServiceThread_result stopping_rounds e) as (_ & H).
  destruct H as (_ & H); [reflexivity|].
  apply (H e' Hrun).
Defined.

(** ** Stopping the engine *)



(** ** The handshake *)

(** X13. The two sides come to the same context id. The server, whose
    context id is still negative, sends its START_CONNECTION with
    [DoStartConnection(ctxId)]: the command carries [ctxId], not the
    server's own context id, which stays as it is. A client that waits
    for a header and reads this command takes [ctxId] as its context id,
    and for [ctxId >= 0] its connection stays as it was. The next
    command the client sends then carries [ctxId], and the server that
    receives it, whatever its type but END_CONNECTION, takes [ctxId] as
    its context id. *)
Theorem handshake_agrees (S C : RemoteEngine) (sS sC : SocketBase)
  (id : Z) (t : RemoteCommandType) (d : RemoteCommandData) :
  m_socket S = Some sS ->
  m_socket C = Some sC ->
  reads_in_flight sC = [ReadHeader] ->
  m_ctxId S < 0 ->
  0 <= id ->
  t <> REMOTECOMMANDTYPE_END_CONNECTION ->
  exists S1 start C1 C2 first,
    DoStartConnection S id = Some S1
    /\ m_socket S1 = Some (post sS (H_doWrite start))
    /\ GetType start = REMOTECOMMANDTYPE_START_CONNECTION
    /\ GetCtxId start = id
    /\ m_ctxId S1 = m_ctxId S
    /\ C1 = service_all (receive_events (asyncWrite_calls start)) C
    /\ m_ctxId C1 = id
    /\ m_socket C1 = Some sC
    /\ WriteCommand C1 t d = Some C2
    /\ m_socket C2 = Some (post sC (H_doWrite first))
    /\ GetCtxId first = id
    /\ m_ctxId (HandleReadCommand S1 first) = id.
Proof.
  intros HsS HsC Hreads Hneg Hid Ht.
  set (start := RemoteCommand_of
                  (mkHeader REMOTECOMMANDTYPE_START_CONNECTION id
                     (m_commandIdCounter S) (to_uint32 0)) []).
  assert (Hframed : well_framed start).
  { unfold well_framed, start, GetCtxId, GetDataSize. simpl. auto. }
  pose proof (service_receives_command C sC start HsC Hreads Hframed)
    as HC1.
  set (C1 := service_all (receive_events (asyncWrite_calls start)) C)
    in *.
  assert (HctxC1 : m_ctxId C1 = id).
  { rewrite HC1.
    destruct (HandleReadCommand_fields C
                (RemoteCommand_of (header start) (data start)))
      as (_ & _ & Hc & _).
    rewrite Hc. reflexivity. }
  assert (HsockC1 : m_socket C1 = Some sC).
  { rewrite HC1, HandleReadCommand_socket. exact HsC. }
  set (first := RemoteCommand_of
                  (mkHeader t (m_ctxId C1) (m_commandIdCounter C1)
                     (to_uint32 (GetSize d))) d).
  eexists. exists start. exists C1. eexists. exists first.
  split.
  { unfold DoStartConnection. rewrite InitCommandHeader_new.
    rewrite (socket_Write_some _ sS) by exact HsS. reflexivity. }
  split; [reflexivity|]. split; [reflexivity|]. split; [reflexivity|].
  split; [reflexivity|]. split; [reflexivity|].
  split; [exact HctxC1|]. split; [exact HsockC1|].
  split.
  { unfold WriteCommand. rewrite InitCommandHeader_new.
    rewrite (socket_Write_some _ sC) by exact HsockC1. reflexivity. }
  split; [reflexivity|].
  split; [exact HctxC1|].
  match goal with
  | |- m_ctxId (HandleReadCommand ?x first) = id =>
      destruct (HandleReadCommand_fields x first) as (_ & _ & Hc & _);
      rewrite Hc
  end.
  unfold ctxId_after, first, GetType, GetCtxId. simpl.
  assert (Hlt : (m_ctxId S <? 0) = true) by (apply Z.ltb_lt; exact Hneg).
  rewrite Hlt. destruct t; try exact HctxC1. congruence.
Qed.

Lemma handshake_agrees_witness :
  let S := set_socket RemoteEngine_new (Some SocketBase_new) in
  exists S1 start C1 C2 first,
    DoStartConnection S 7 = Some S1
    /\ GetCtxId start = 7
    /\ m_ctxId C1 = 7
    /\ WriteCommand C1 REMOTECOMMANDTYPE_SUCCESSED [] = Some C2
    /\ m_ctxId (HandleReadCommand S1 first) = 7.
Proof.
  intros S.
  destruct (m_socket client_session) as [sC|] eqn:HsC;
    [|vm_compute in HsC; discriminate].
  destruct (handshake_agrees S client_session SocketBase_new sC 7
              REMOTECOMMANDTYPE_SUCCESSED [] eq_refl HsC)
    as (S1 & start & C1 & C2 & first & H1 & _ & _ & H4 & _ & _ & H7 & _
        & H9 & _ & _ & H12).
  - vm_compute in HsC. injection HsC as <-. reflexivity.
  - vm_compute. reflexivity.
  - lia.
  - discriminate.
  - exists S1, start, C1, C2, first. auto.
Defined.

(** * Properties of the source view *)

Lemma skipn_nth_cons {A} (d : A) :
  forall (l : list A) (i : nat),
    (i < length l)%nat -> skipn i l = nth i l d :: skipn (S i) l.
Proof.
  induction l as [|x l IH]; intros i Hi; simpl in Hi; [lia|].
  destruct i as [|i]; [reflexivity|].
  change (skipn (S i) (x :: l)) with (skipn i l).
  change (nth (S i) (x :: l) d) with (nth i l d).
  rewrite (IH i) by lia. reflexivity.
Qed.

Lemma Initialize_loop_spec (source : Source) :
  forall (n i : nat) (str : std_string),
    (i + n = Source_GetLineCount source)%nat ->
    Initialize_loop source n i str =
    str ++ concat (map (fun l => l ++ [Byte.x0a])
                     (skipn i (Source_lines source))).
Proof.
  unfold Source_GetLineCount.
  induction n as [|n IH]; intros i str Hn.
  - simpl. rewrite skipn_all2 by lia. simpl. now rewrite app_nil_r.
  - cbn [Initialize_loop].
    assert (Hi : (i < length (Source_lines source))%nat) by lia.
    unfold Source_GetLineCount.
    apply Nat.ltb_lt in Hi as Hb. rewrite Hb.
    rewrite IH by lia.
    rewrite (skipn_nth_cons [] _ i Hi).
    unfold Source_GetSourceLine. simpl.
    now rewrite <- !app_assoc.
Qed.

Lemma c_str_no_nul (s : std_string) :
  Forall (fun c => c <> Byte.x00) s -> c_str s = s.
Proof.
  induction 1 as [|c s Hc _ IH]; [reflexivity|].
  simpl. destruct (Strings.Byte.eqb c Byte.x00) eqn:E.
  - apply Strings.Byte.byte_dec_bl in E. contradiction.
  - now rewrite IH.
Qed.


Lemma trim_newlines_plain (l : std_string) :
  Forall (fun c => is_newline c = false) l ->
  trim_newlines (l ++ [Byte.x0a]) = l.
Proof.
  intros H. unfold trim_newlines. rewrite rev_app_distr. simpl.
  assert (Hr : trim_end (rev l) = rev l).
  { apply Forall_rev in H. destruct (rev l) as [|c r]; [reflexivity|].
    inversion H as [|? ? Hc _]; subst. simpl. now rewrite Hc. }
  rewrite Hr. apply rev_involutive.
Qed.

Lemma doc_lines_from_plain (l : std_string) :
  Forall (fun c => is_newline c = false) l ->
  forall acc rest,
    doc_lines_from acc (l ++ Byte.x0a :: rest) =
    (rev acc ++ l ++ [Byte.x0a]) :: doc_lines_from [] rest.
Proof.
  induction 1 as [|c l Hc _ IH]; intros acc rest.
  - simpl. reflexivity.
  - cbn [app doc_lines_from].
    unfold is_newline in Hc. apply orb_false_elim in Hc as [Ha Hd].
    rewrite Ha, Hd, IH. simpl. now rewrite <- !app_assoc.
Qed.

Lemma doc_lines_of_lines (lines : list std_string) :
  Forall plain lines ->
  doc_lines (concat (map (fun l => l ++ [Byte.x0a]) lines)) =
  map (fun l => l ++ [Byte.x0a]) lines ++ [[]].
Proof.
  unfold doc_lines.
  induction 1 as [|l lines Hl _ IH]; [reflexivity|].
  simpl. rewrite <- app_assoc. simpl.
  rewrite doc_lines_from_plain.
  - simpl. now rewrite IH.
  - eapply Forall_impl; [|exact Hl]. simpl. tauto.
Qed.

Lemma concat_no_nul (lines : list std_string) :
  Forall plain lines ->
  Forall (fun c => c <> Byte.x00)
    (concat (map (fun l => l ++ [Byte.x0a]) lines)).
Proof.
  induction 1 as [|l lines Hl _ IH]; simpl; [constructor|].
  apply Forall_app. split; [|exact IH].
  apply Forall_app. split.
  - eapply Forall_impl; [|exact Hl]. simpl. tauto.
  - constructor; [discriminate|constructor].
Qed.

Lemma Initialize_text_concat (source : Source) :
  Initialize_text source =
  concat (map (fun l => l ++ [Byte.x0a]) (Source_lines source)).
Proof.
  unfold Initialize_text.
  rewrite Initialize_loop_spec by reflexivity.
  reflexivity.
Qed.

(** X14. The lines [SaveSource] collects from a page are the lines the
    page was given: for a source whose lines hold no NUL and no line
    end, the array built from the lines of the document that
    [Initialize] hands to the widget is the list of the source's lines
    (the line break after the last line gives the empty last line that
    [SaveSource] drops). *)
Theorem SaveSource_recovers_source (source : Source) :
  Forall plain (Source_lines source) ->
  SaveSource_array (doc_lines (c_str (Initialize_text source))) =
  Source_lines source.
Proof.
  intros Hplain.
  rewrite Initialize_text_concat.
  rewrite c_str_no_nul by now apply concat_no_nul.
  rewrite doc_lines_of_lines by exact Hplain.
  unfold SaveSource_array.
  rewrite map_app. cbn [map c_str trim_newlines].
  assert (Hmap : map (fun cbuffer => trim_newlines (c_str cbuffer))
                   (map (fun l => l ++ [Byte.x0a]) (Source_lines source)) =
                 Source_lines source).
  { induction Hplain as [|l lines Hl _ IH]; [reflexivity|].
    cbn [map]. rewrite IH. f_equal.
    rewrite c_str_no_nul.
    - apply trim_newlines_plain.
      eapply Forall_impl; [|exact Hl]. simpl. tauto.
    - apply Forall_app. split.
      + eapply Forall_impl; [|exact Hl]. simpl. tauto.
      + constructor; [discriminate|constructor]. }
  rewrite Hmap.
  change (trim_newlines []) with (@nil Byte.byte).
  rewrite rev_app_distr. cbn [rev app].
  apply removelast_last.
Qed.

Lemma SaveSource_recovers_source_witness :
  Forall plain (Source_lines src_main) /\
  SaveSource_array (doc_lines (c_str (Initialize_text src_main))) =
  Source_lines src_main.
Proof.
  assert (H : Forall plain (Source_lines src_main)).
  { repeat constructor; discriminate. }
  split; [exact H|exact (SaveSource_recovers_source src_main H)].
Defined.





Lemma marked_remove_other (line n n' : Z) (ms : list (Z * Z)) :
  n <> n' ->
  filter (fun m => snd m =? n) (remove_one (line, n') ms) =
  filter (fun m => snd m =? n) ms.
Proof.
  intros Hn. induction ms as [|[l k] ms IH]; [reflexivity|].
  cbn [remove_one]. unfold marker_eqb. cbn [fst snd].
  destruct (l =? line) eqn:El; destruct (k =? n') eqn:Ek; cbn [andb];
    cbn [filter snd]; try (rewrite IH; reflexivity).
  apply Z.eqb_eq in Ek. subst k.
  destruct (n' =? n) eqn:E; [apply Z.eqb_eq in E; congruence|reflexivity].
Qed.

Lemma marked_remove_single (line n : Z) (ms : list (Z * Z)) :
  map fst (filter (fun m => snd m =? n) ms) = [line] ->
  map fst (filter (fun m => snd m =? n) (remove_one (line, n) ms)) = [].
Proof.
  induction ms as [|[l k] ms IH]; [discriminate|].
  cbn [remove_one filter snd]. unfold marker_eqb. cbn [fst snd].
  destruct (k =? n) eqn:Ek.
  - cbn [map fst]. intros H. injection H as Hl Hrest. subst l.
    rewrite Z.eqb_refl. exact Hrest.
  - rewrite andb_false_r. cbn [filter snd]. rewrite Ek. exact IH.
Qed.

Lemma marked_remove_none (line n : Z) (ms : list (Z * Z)) :
  map fst (filter (fun m => snd m =? n) ms) = [] ->
  map fst (filter (fun m => snd m =? n) (remove_one (line, n) ms)) = [].
Proof.
  induction ms as [|[l k] ms IH]; [reflexivity|].
  cbn [remove_one filter snd]. unfold marker_eqb. cbn [fst snd].
  destruct (k =? n) eqn:Ek.
  - discriminate.
  - rewrite andb_false_r. cbn [filter snd]. rewrite Ek. exact IH.
Qed.

Lemma marked_filter_same (n : Z) (ms : list (Z * Z)) :
  filter (fun m => snd m =? n) (filter (fun m => negb (snd m =? n)) ms) = [].
Proof.
  induction ms as [|[l k] ms IH]; [reflexivity|].
  cbn [filter snd]. destruct (k =? n) eqn:Ek; cbn [negb]; [exact IH|].
  cbn [filter snd]. rewrite Ek. exact IH.
Qed.

Lemma marked_filter_other (n n' : Z) (ms : list (Z * Z)) :
  n <> n' ->
  filter (fun m => snd m =? n) (filter (fun m => negb (snd m =? n')) ms) =
  filter (fun m => snd m =? n) ms.
Proof.
  intros Hn. induction ms as [|[l k] ms IH]; [reflexivity|].
  cbn [filter snd]. destruct (k =? n') eqn:Ek; cbn [negb].
  - apply Z.eqb_eq in Ek. subst k.
    destruct (n' =? n) eqn:E; [apply Z.eqb_eq in E; congruence|exact IH].
  - cbn [filter snd]. now rewrite IH.
Qed.

Lemma marked_MarkerDelete_other (p : SourceViewPage) (line n n' : Z) :
  n <> n' -> marked n (MarkerDelete p line n') = marked n p.
Proof.
  intros Hn. unfold marked, MarkerDelete. cbn [sci_markers set_markers].
  now rewrite marked_remove_other.
Qed.

Lemma marked_MarkerDelete_at_most (p : SourceViewPage) (line n : Z) :
  at_most_on n line p -> marked n (MarkerDelete p line n) = [].
Proof.
  unfold at_most_on, marked, MarkerDelete. cbn [sci_markers set_markers].
  intros [H|[_ H]].
  - now apply marked_remove_none.
  - now apply marked_remove_single.
Qed.

Lemma marked_MarkerDeleteAll_same (p : SourceViewPage) (n : Z) :
  marked n (MarkerDeleteAll p n) = [].
Proof.
  unfold marked, MarkerDeleteAll. cbn [sci_markers set_markers].
  now rewrite marked_filter_same.
Qed.

Lemma marked_MarkerDeleteAll_other (p : SourceViewPage) (n n' : Z) :
  n <> n' -> marked n (MarkerDeleteAll p n') = marked n p.
Proof.
  intros Hn. unfold marked, MarkerDeleteAll. cbn [sci_markers set_markers].
  now rewrite marked_filter_other.
Qed.

Lemma marked_MarkerAdd accepts (p : SourceViewPage) (line n n' : Z) :
  marked n (MarkerAdd accepts p line n') = marked n p \/
  (n = n' /\ marked n (MarkerAdd accepts p line n') = marked n p ++ [line]).
Proof.
  unfold MarkerAdd. destruct (accepts p line); [|now left].
  unfold marked. cbn [sci_markers set_markers].
  rewrite filter_app, map_app. cbn [filter snd].
  destruct (n' =? n) eqn:E.
  - right. apply Z.eqb_eq in E. split; [congruence|reflexivity].
  - left. cbn [map]. now rewrite app_nil_r.
Qed.

Lemma marked_MarkerAdd_accepted accepts (p : SourceViewPage) (line n : Z) :
  accepts p line = true ->
  marked n (MarkerAdd accepts p line n) = marked n p ++ [line].
Proof.
  intros H. unfold MarkerAdd. rewrite H.
  unfold marked. cbn [sci_markers set_markers].
  rewrite filter_app, map_app. cbn [filter snd].
  now rewrite Z.eqb_refl.
Qed.

Lemma marked_MarkerAdd_other accepts (p : SourceViewPage) (line n n' : Z) :
  n <> n' -> marked n (MarkerAdd accepts p line n') = marked n p.
Proof.
  intros Hn. destruct (marked_MarkerAdd accepts p line n n') as [H|[H _]];
    [exact H|contradiction].
Qed.

Lemma MarkerAdd_fields accepts (p : SourceViewPage) (line n : Z) :
  m_initialized (MarkerAdd accepts p line n) = m_initialized p /\
  m_wasTitleChanged (MarkerAdd accepts p line n) = m_wasTitleChanged p /\
  m_key (MarkerAdd accepts p line n) = m_key p /\
  m_title (MarkerAdd accepts p line n) = m_title p /\
  m_path (MarkerAdd accepts p line n) = m_path p /\
  m_currentLine (MarkerAdd accepts p line n) = m_currentLine p /\
  m_markedLine (MarkerAdd accepts p line n) = m_markedLine p.
Proof.
  unfold MarkerAdd. destruct (accepts p line); repeat split.
Qed.

(** What [SetCurrentLine] does to the markers and to the two lines. *)
Lemma SetCurrentLine_running accepts (p : SourceViewPage) (line : Z) :
  markers_invariant p ->
  let p' := SetCurrentLine accepts p line true in
  m_currentLine p' = (if 0 <? line then line - 1 else line) /\
  m_markedLine p' = (if 0 <=? m_markedLine p then -1 else m_markedLine p) /\
  (marked MARKNUM_RUNNING p' = [] \/
   (0 < line /\ marked MARKNUM_RUNNING p' = [line - 1])) /\
  marked MARKNUM_BACKTRACE p' = [] /\
  marked MARKNUM_BREAKPOINT p' = marked MARKNUM_BREAKPOINT p /\
  (0 < line -> (forall q, accepts q (line - 1) = true) ->
   marked MARKNUM_RUNNING p' = [line - 1]).
Proof.
  intros [Hrun Hback] p'. subst p'. unfold SetCurrentLine.
  cbn [andb].
  set (p1 := if 0 <=? m_currentLine p then _ else p).
  assert (H1 : marked MARKNUM_RUNNING p1 = [] /\
               marked MARKNUM_BACKTRACE p1 = marked MARKNUM_BACKTRACE p /\
               marked MARKNUM_BREAKPOINT p1 = marked MARKNUM_BREAKPOINT p /\
               m_markedLine p1 = m_markedLine p).
  { subst p1. destruct (0 <=? m_currentLine p) eqn:E.
    - change (marked ?n (set_currentLine ?q ?l)) with (marked n q).
      rewrite marked_MarkerDelete_at_most by exact Hrun.
      rewrite !marked_MarkerDelete_other by discriminate. auto.
    - destruct Hrun as [H|[H _]]; [auto|]. apply Z.leb_gt in E. lia. }
  destruct H1 as [R1 [B1 [K1 M1]]].
  set (p2 := if 0 <=? m_markedLine p1 then _ else p1).
  assert (H2 : marked MARKNUM_RUNNING p2 = [] /\
               marked MARKNUM_BACKTRACE p2 = [] /\
               marked MARKNUM_BREAKPOINT p2 = marked MARKNUM_BREAKPOINT p /\
               m_markedLine p2 =
               if 0 <=? m_markedLine p then -1 else m_markedLine p).
  { subst p2. rewrite M1. destruct (0 <=? m_markedLine p) eqn:E.
    - change (marked ?n (set_markedLine ?q ?l)) with (marked n q).
      rewrite marked_MarkerDeleteAll_same.
      rewrite !marked_MarkerDeleteAll_other by discriminate. auto.
    - rewrite B1. destruct Hback as [H|[H _]]; [auto|].
      apply Z.leb_gt in E. lia. }
  destruct H2 as [R2 [B2 [K2 M2]]].
  destruct (0 <? line) eqn:El.
  - apply Z.ltb_lt in El.
    set (q := call (call p2 _) _).
    assert (Hq : marked MARKNUM_RUNNING q = [] /\
                 marked MARKNUM_BACKTRACE q = [] /\
                 marked MARKNUM_BREAKPOINT q = marked MARKNUM_BREAKPOINT p /\
                 m_markedLine q =
                 if 0 <=? m_markedLine p then -1 else m_markedLine p)
      by (subst q; auto).
    destruct Hq as [Rq [Bq [Kq Mq]]].
    destruct (MarkerAdd_fields accepts q (line - 1) MARKNUM_RUNNING)
      as [_ [_ [_ [_ [_ [_ Hm]]]]]].
    cbn [m_currentLine set_currentLine m_markedLine].
    change (marked ?n (set_currentLine ?x ?l)) with (marked n x).
    rewrite Hm, Mq.
    rewrite (marked_MarkerAdd_other accepts q _ MARKNUM_BACKTRACE
               MARKNUM_RUNNING) by discriminate.
    rewrite (marked_MarkerAdd_other accepts q _ MARKNUM_BREAKPOINT
               MARKNUM_RUNNING) by discriminate.
    split; [reflexivity|]. split; [reflexivity|].
    split; [|split; [exact Bq|split; [exact Kq|]]].
    + destruct (marked_MarkerAdd accepts q (line - 1)
                  MARKNUM_RUNNING MARKNUM_RUNNING) as [H|[_ H]].
      * left. now rewrite H.
      * right. rewrite H, Rq. auto.
    + intros _ Hacc.
      rewrite marked_MarkerAdd_accepted by apply Hacc.
      now rewrite Rq.
  - cbn [m_currentLine set_currentLine m_markedLine].
    change (marked ?n (set_currentLine ?x ?l)) with (marked n x).
    apply Z.ltb_ge in El.
    split; [reflexivity|]. split; [exact M2|].
    split; [now left|]. split; [exact B2|]. split; [exact K2|].
    intros Hl. lia.
Qed.

Lemma SetCurrentLine_backtrace accepts (p : SourceViewPage) (line : Z) :
  markers_invariant p ->
  let p' := SetCurrentLine accepts p line false in
  m_currentLine p' = m_currentLine p /\
  m_markedLine p' = (if 0 <? line then line - 1 else line) /\
  marked MARKNUM_RUNNING p' = marked MARKNUM_RUNNING p /\
  (marked MARKNUM_BACKTRACE p' = [] \/
   (0 < line /\ marked MARKNUM_BACKTRACE p' = [line - 1])) /\
  marked MARKNUM_BREAKPOINT p' = marked MARKNUM_BREAKPOINT p /\
  (0 < line -> (forall q, accepts q (line - 1) = true) ->
   marked MARKNUM_BACKTRACE p' = [line - 1]).
Proof.
  intros [Hrun Hback] p'. subst p'. unfold SetCurrentLine.
  cbn [andb].
  set (p2 := if 0 <=? m_markedLine p then _ else p).
  assert (H2 : marked MARKNUM_RUNNING p2 = marked MARKNUM_RUNNING p /\
               marked MARKNUM_BACKTRACE p2 = [] /\
               marked MARKNUM_BREAKPOINT p2 = marked MARKNUM_BREAKPOINT p /\
               m_currentLine p2 = m_currentLine p).
  { subst p2. destruct (0 <=? m_markedLine p) eqn:E.
    - change (marked ?n (set_markedLine ?q ?l)) with (marked n q).
      rewrite marked_MarkerDeleteAll_same.
      rewrite !marked_MarkerDeleteAll_other by discriminate. auto.
    - destruct Hback as [H|[H _]]; [auto|]. apply Z.leb_gt in E. lia. }
  destruct H2 as [R2 [B2 [K2 M2]]].
  destruct (0 <? line) eqn:El.
  - apply Z.ltb_lt in El.
    set (q := call (call p2 _) _).
    assert (Hq : marked MARKNUM_RUNNING q = marked MARKNUM_RUNNING p /\
                 marked MARKNUM_BACKTRACE q = [] /\
                 marked MARKNUM_BREAKPOINT q = marked MARKNUM_BREAKPOINT p /\
                 m_currentLine q = m_currentLine p)
      by (subst q; auto).
    destruct Hq as [Rq [Bq [Kq Mq]]].
    destruct (MarkerAdd_fields accepts q (line - 1) MARKNUM_BACKTRACE)
      as [_ [_ [_ [_ [_ [Hm _]]]]]].
    cbn [m_currentLine set_markedLine m_markedLine].
    change (marked ?n (set_markedLine ?x ?l)) with (marked n x).
    rewrite Hm, Mq.
    rewrite (marked_MarkerAdd_other accepts q _ MARKNUM_RUNNING
               MARKNUM_BACKTRACE) by discriminate.
    rewrite (marked_MarkerAdd_other accepts q _ MARKNUM_BREAKPOINT
               MARKNUM_BACKTRACE) by discriminate.
    split; [reflexivity|]. split; [reflexivity|].
    split; [exact Rq|]. split; [|split; [exact Kq|]].
    + destruct (marked_MarkerAdd accepts q (line - 1)
                  MARKNUM_BACKTRACE MARKNUM_BACKTRACE) as [H|[_ H]].
      * left. now rewrite H.
      * right. rewrite H, Bq. auto.
    + intros _ Hacc.
      rewrite marked_MarkerAdd_accepted by apply Hacc.
      now rewrite Bq.
  - cbn [m_currentLine set_markedLine m_markedLine].
    change (marked ?n (set_markedLine ?x ?l)) with (marked n x).
    apply Z.ltb_ge in El.
    split; [exact M2|]. split; [reflexivity|].
    split; [exact R2|]. split; [now left|]. split; [exact K2|].
    intros Hl. lia.
Qed.

Lemma SetCurrentLine_fields accepts (p : SourceViewPage) (line : Z)
    (running : bool) :
  let p' := SetCurrentLine accepts p line running in
  m_initialized p' = m_initialized p /\
  m_wasTitleChanged p' = m_wasTitleChanged p /\
  m_key p' = m_key p /\ m_title p' = m_title p /\ m_path p' = m_path p.
Proof.
  unfold SetCurrentLine, MarkerAdd.
  destruct running; cbn [andb];
    destruct (0 <=? m_currentLine p); destruct (0 <? line);
    repeat match goal with
           | |- context [if ?c then _ else _] => destruct c
           end; repeat split.
Qed.

Lemma SetCurrentLine_markers_invariant accepts (p : SourceViewPage)
    (line : Z) (running : bool) :
  markers_invariant p ->
  markers_invariant (SetCurrentLine accepts p line running).
Proof.
  intros Hinv. destruct running.
  - destruct (SetCurrentLine_running accepts p line Hinv)
      as [Hc [_ [Hr [Hb _]]]].
    split; unfold at_most_on.
    + rewrite Hc. destruct Hr as [Hr|[Hl Hr]]; [now left|right].
      apply Z.ltb_lt in Hl as Hl'. rewrite Hl'. split; [lia|exact Hr].
    + now left.
  - destruct (SetCurrentLine_backtrace accepts p line Hinv)
      as [Hc [Hm [Hr [Hb _]]]].
    split; unfold at_most_on.
    + rewrite Hc, Hr. exact (proj1 Hinv).
    + rewrite Hm. destruct Hb as [Hb|[Hl Hb]]; [now left|right].
      apply Z.ltb_lt in Hl as Hl'. rewrite Hl'. split; [lia|exact Hb].
Qed.

Lemma fold_MarkerAdd accepts (n : Z) (lines : list Breakpoint) :
  forall p : SourceViewPage,
    let p' :=
      fold_left
        (fun p bp => MarkerAdd accepts p (Breakpoint_GetLine bp) n)
        lines p in
    (forall n', n' <> n -> marked n' p' = marked n' p) /\
    m_initialized p' = m_initialized p /\
    m_wasTitleChanged p' = m_wasTitleChanged p /\
    m_key p' = m_key p /\ m_title p' = m_title p /\ m_path p' = m_path p /\
    m_currentLine p' = m_currentLine p /\ m_markedLine p' = m_markedLine p.
Proof.
  induction lines as [|bp lines IH]; intros p; cbn [fold_left].
  - repeat split.
  - specialize (IH (MarkerAdd accepts p (Breakpoint_GetLine bp) n)).
    cbv zeta in IH.
    destruct IH as [Hm [H1 [H2 [H3 [H4 [H5 [H6 H7]]]]]]].
    destruct (MarkerAdd_fields accepts p (Breakpoint_GetLine bp) n)
      as [G1 [G2 [G3 [G4 [G5 [G6 G7]]]]]].
    cbv zeta.
    rewrite H1, H2, H3, H4, H5, H6, H7. repeat (split; [assumption|]).
    split; [|repeat split; assumption].
    intros n' Hn. rewrite Hm by exact Hn.
    now apply marked_MarkerAdd_other.
Qed.

Lemma OnChangedBreakpoints_keeps accepts (p : SourceViewPage)
    (bps : list Breakpoint) :
  let p' := OnChangedBreakpoints accepts p bps in
  marked MARKNUM_RUNNING p' = marked MARKNUM_RUNNING p /\
  marked MARKNUM_BACKTRACE p' = marked MARKNUM_BACKTRACE p /\
  m_initialized p' = m_initialized p /\
  m_wasTitleChanged p' = m_wasTitleChanged p /\
  m_key p' = m_key p /\ m_title p' = m_title p /\ m_path p' = m_path p /\
  m_currentLine p' = m_currentLine p /\ m_markedLine p' = m_markedLine p.
Proof.
  unfold OnChangedBreakpoints.
  destruct (fold_MarkerAdd accepts MARKNUM_BREAKPOINT
              (breakpoints_of (GetKey p) bps)
              (MarkerDeleteAll p MARKNUM_BREAKPOINT))
    as [Hm [H1 [H2 [H3 [H4 [H5 [H6 H7]]]]]]].
  cbv zeta.
  rewrite !Hm by discriminate.
  rewrite !marked_MarkerDeleteAll_other by discriminate.
  repeat split; assumption.
Qed.

Lemma ChangeModified_keeps (p : SourceViewPage) (sel : option nat)
    (modified : bool) :
  let p' := fst (ChangeModified p sel modified) in
  sci_markers p' = sci_markers p /\
  m_initialized p' = m_initialized p /\
  m_key p' = m_key p /\ m_title p' = m_title p /\ m_path p' = m_path p /\
  m_currentLine p' = m_currentLine p /\ m_markedLine p' = m_markedLine p.
Proof.
  unfold ChangeModified.
  destruct (negb (m_initialized p) ||
            Bool.eqb modified (m_wasTitleChanged p));
    [repeat split|].
  destruct sel; repeat split.
Qed.

Lemma markers_invariant_same (p p' : SourceViewPage) :
  sci_markers p' = sci_markers p ->
  m_currentLine p' = m_currentLine p ->
  m_markedLine p' = m_markedLine p ->
  markers_invariant p -> markers_invariant p'.
Proof.
  unfold markers_invariant, at_most_on, marked.
  intros -> -> ->. trivial.
Qed.

Lemma ChangeModified_markers_invariant (p : SourceViewPage)
    (sel : option nat) (modified : bool) :
  markers_invariant p ->
  markers_invariant (fst (ChangeModified p sel modified)).
Proof.
  destruct (ChangeModified_keeps p sel modified)
    as [H1 [_ [_ [_ [_ [H2 H3]]]]]].
  now apply markers_invariant_same.
Qed.

Lemma page_event_markers_invariant accepts (sel : option nat)
    (ev : PageEvent) (p : SourceViewPage) :
  markers_invariant p ->
  markers_invariant (fst (page_event accepts sel ev p)).
Proof.
  intros Hinv. destruct ev as [line r|line|bps|b|lines|t|c k lines];
    cbn [page_event fst].
  - now apply SetCurrentLine_markers_invariant.
  - unfold SetLineSelection. destruct (line <=? 0); exact Hinv.
  - destruct (OnChangedBreakpoints_keeps accepts p bps)
      as [H1 [H2 [_ [_ [_ [_ [_ [H3 H4]]]]]]]].
    destruct Hinv as [Hr Hb]. unfold markers_invariant, at_most_on.
    rewrite H1, H2, H3, H4. split; assumption.
  - unfold ChangeEnable. destruct b; cbn [negb]; [exact Hinv|].
    now apply SetCurrentLine_markers_invariant.
  - unfold SaveSource. destruct (m_path p); [exact Hinv|].
    now apply ChangeModified_markers_invariant.
  - unfold OnModified.
    destruct (negb (Z.land t (Z.lor wxSCI_MOD_INSERTTEXT
                                wxSCI_MOD_DELETETEXT) =? 0));
      [now apply ChangeModified_markers_invariant|exact Hinv].
  - unfold OnKeyDown, SaveSource.
    destruct (c && (k =? 83)); [|exact Hinv].
    destruct (m_path p); [exact Hinv|].
    now apply ChangeModified_markers_invariant.
Qed.

Lemma page_events_markers_invariant accepts (sel : option nat)
    (evs : list PageEvent) :
  forall p : SourceViewPage,
    markers_invariant p ->
    markers_invariant (page_events accepts sel evs p).
Proof.
  induction evs as [|ev evs IH]; intros p Hinv; cbn [page_events].
  - exact Hinv.
  - apply IH. now apply page_event_markers_invariant.
Qed.

(** The page [CreatePage] makes. *)
Lemma Initialize_new accepts (sel : option nat) (source : Source)
    (bps : list Breakpoint) :
  let r := Initialize accepts SourceViewPage_new sel source bps in
  snd r = None /\
  m_initialized (fst r) = true /\
  m_wasTitleChanged (fst r) = false /\
  m_key (fst r) = Source_GetKey source /\
  m_title (fst r) = Source_GetTitle source /\
  m_path (fst r) = Source_GetPath source /\
  m_currentLine (fst r) = -1 /\
  m_markedLine (fst r) = -1 /\
  marked MARKNUM_RUNNING (fst r) = [] /\
  marked MARKNUM_BACKTRACE (fst r) = [] /\
  sci_read_only (fst r) =
    (match Source_GetPath source with [] => true | _ :: _ => false end) /\
  sci_calls (fst r) = [Call_AddTextRaw (c_str (Initialize_text source))].
Proof.
  unfold Initialize, AddTextRaw.
  set (text := c_str (Initialize_text source)).
  assert (E : (match text with
               | [] => (call SourceViewPage_new (Call_AddTextRaw text), None)
               | _ :: _ =>
                   if sci_read_only SourceViewPage_new
                   then (call SourceViewPage_new (Call_AddTextRaw text), None)
                   else OnModified
                          (call SourceViewPage_new (Call_AddTextRaw text)) sel
                          (Z.lor wxSCI_MOD_INSERTTEXT wxSCI_PERFORMED_USER)
               end) =
              (call SourceViewPage_new (Call_AddTextRaw text),
               @None (nat * list Byte.byte)))
    by (destruct text; reflexivity).
  rewrite E. cbv zeta. cbn [fst snd].
  set (p3 := mkPage true _ _ _ _ _ _ _ _ _).
  destruct (OnChangedBreakpoints_keeps accepts p3 bps)
    as [H1 [H2 [H3 [H4 [H5 [H6 [H7 [H8 H9]]]]]]]].
  rewrite H1, H2, H3, H4, H5, H6, H7, H8, H9.
  repeat (split; [reflexivity|]).
  unfold OnChangedBreakpoints.
  generalize (breakpoints_of (GetKey p3) bps).
  assert (G : forall l q,
             sci_calls
               (fold_left
                  (fun p bp =>
                     MarkerAdd accepts p (Breakpoint_GetLine bp)
                       MARKNUM_BREAKPOINT) l q) = sci_calls q /\
             sci_read_only
               (fold_left
                  (fun p bp =>
                     MarkerAdd accepts p (Breakpoint_GetLine bp)
                       MARKNUM_BREAKPOINT) l q) = sci_read_only q).
  { induction l as [|bp l IH]; intros q; cbn [fold_left]; [auto|].
    destruct (IH (MarkerAdd accepts q (Breakpoint_GetLine bp)
                    MARKNUM_BREAKPOINT)) as [I1 I2].
    rewrite I1, I2. unfold MarkerAdd.
    destruct (accepts q (Breakpoint_GetLine bp)); auto. }
  intros l. destruct (G l (MarkerDeleteAll p3 MARKNUM_BREAKPOINT)) as [G1 G2].
  rewrite G1, G2. split; reflexivity.
Qed.

(** ** The notebook *)

Lemma string_eqb_eq (a b : list Byte.byte) : string_eqb a b = true <-> a = b.
Proof.
  unfold string_eqb.
  destruct (list_eq_dec Strings.Byte.byte_eq_dec a b); split; congruence.
Qed.

Lemma string_eqb_neq (a b : list Byte.byte) :
  string_eqb a b = false <-> a <> b.
Proof.
  unfold string_eqb.
  destruct (list_eq_dec Strings.Byte.byte_eq_dec a b); split; congruence.
Qed.

Lemma length_update_nth {A} (f : A -> A) (l : list A) :
  forall i : nat, length (update_nth i f l) = length l.
Proof.
  induction l as [|x l IH]; intros i; [now destruct i|].
  destruct i; cbn [update_nth length]; [reflexivity|now rewrite IH].
Qed.

Lemma update_nth_here {A} (f : A -> A) (done : list A) (t : A)
    (todo : list A) :
  update_nth (length done) f (done ++ t :: todo) = done ++ f t :: todo.
Proof.
  induction done as [|x done IH]; [reflexivity|].
  cbn [length app update_nth]. now rewrite IH.
Qed.

Lemma nth_error_here {A} (done : list A) (t : A) (todo : list A) :
  nth_error (done ++ t :: todo) (length done) = Some t.
Proof.
  induction done as [|x done IH]; [reflexivity|exact IH].
Qed.

Lemma update_nth_twice {A} (f g : A -> A) (l : list A) :
  forall i : nat,
    update_nth i g (update_nth i f l) = update_nth i (fun x => g (f x)) l.
Proof.
  induction l as [|x l IH]; intros i; [now destruct i|].
  destruct i; cbn [update_nth]; [reflexivity|now rewrite IH].
Qed.

Lemma Forall_update_nth {A} (P : A -> Prop) (f : A -> A) (l : list A) :
  forall i : nat,
    Forall P l ->
    (forall x, nth_error l i = Some x -> P (f x)) ->
    Forall P (update_nth i f l).
Proof.
  induction l as [|x l IH]; intros i Hl Hf; [destruct i; constructor|].
  inversion Hl as [|? ? Hx Hl']; subst.
  destruct i; cbn [update_nth]; constructor; auto.
Qed.

Lemma GetPage_tab (v : SourceView) (i : nat) (page : SourceViewPage) :
  GetPage v i = Some page ->
  exists text, nth_error (nb_pages v) i = Some (page, text).
Proof.
  unfold GetPage. destruct (nth_error (nb_pages v) i) as [[p t]|];
    [|discriminate].
  cbn [option_map fst]. intros H. injection H as ->. now exists t.
Qed.

Lemma nb_pages_SetSelection (v : SourceView) (i : nat) :
  nb_pages (SetSelection v i) = nb_pages v.
Proof.
  unfold SetSelection. now destruct (i <? GetPageCount v)%nat.
Qed.

Lemma OnUpdateSource_loop_spec accepts (key : list Byte.byte) (line : Z) :
  forall (todo done : list (SourceViewPage * list Byte.byte))
         (sel : option nat),
    let v' :=
      OnUpdateSource_loop accepts key line (length todo) (length done)
        (mkView (done ++ todo) sel) in
    nb_pages v' =
      done ++
      map (fun t =>
             (SetCurrentLine accepts (fst t)
                (if string_eqb (m_key (fst t)) key then line else -1) true,
              snd t)) todo /\
    ((forall t, In t todo -> m_key (fst t) <> key) ->
     nb_selection v' = sel) /\
    (forall k t,
        nth_error todo k = Some t -> m_key (fst t) = key ->
        (forall j t', (k < j)%nat -> nth_error todo j = Some t' ->
                      m_key (fst t') <> key) ->
        nb_selection v' = Some (length done + k)%nat).
Proof.
  induction todo as [|t todo IH]; intros done sel.
  - cbn [length OnUpdateSource_loop nb_pages nb_selection map].
    split; [reflexivity|split; [reflexivity|]].
    intros k t H. destruct k; discriminate.
  - set (g := fun t : SourceViewPage * list Byte.byte =>
                (SetCurrentLine accepts (fst t)
                   (if string_eqb (m_key (fst t)) key then line else -1)
                   true, snd t)).
    assert (Hstep :
              (if string_eqb (GetKey (fst t)) key then
                 SetSelection
                   (SetPage (mkView (done ++ t :: todo) sel) (length done)
                      (SetCurrentLine accepts (fst t) line true))
                   (length done)
               else
                 SetPage (mkView (done ++ t :: todo) sel) (length done)
                   (SetCurrentLine accepts (fst t) (-1) true)) =
              mkView ((done ++ [g t]) ++ todo)
                (if string_eqb (m_key (fst t)) key
                 then Some (length done) else sel)).
    { unfold GetKey, SetPage, SetSelection, GetPageCount.
      cbn [nb_pages nb_selection].
      rewrite update_nth_here, length_app. cbn [length].
      rewrite update_nth_here.
      rewrite <- app_assoc. cbn [app]. subst g. cbv beta.
      destruct (string_eqb (m_key (fst t)) key).
      - assert (Hlt : (length done <? length done + S (length todo))%nat
                      = true) by (apply Nat.ltb_lt; lia).
        rewrite Hlt. reflexivity.
      - reflexivity. }
    assert (Heq :
              OnUpdateSource_loop accepts key line (length (t :: todo))
                (length done) (mkView (done ++ t :: todo) sel) =
              OnUpdateSource_loop accepts key line (length todo)
                (length (done ++ [g t]))
                (mkView ((done ++ [g t]) ++ todo)
                   (if string_eqb (m_key (fst t)) key
                    then Some (length done) else sel))).
    { cbn [length OnUpdateSource_loop].
      unfold GetPage at 1. cbn [nb_pages].
      rewrite nth_error_here. cbn [option_map].
      rewrite Hstep. f_equal.
      rewrite length_app. cbn [length]. lia. }
    cbv zeta. rewrite Heq. clear Heq Hstep.
    specialize (IH (done ++ [g t])
                  (if string_eqb (m_key (fst t)) key
                   then Some (length done) else sel)).
    cbv zeta in IH. destruct IH as [Hp [Hnone Hlast]].
    split; [|split].
    + rewrite Hp. rewrite <- app_assoc. reflexivity.
    + intros Hno. rewrite Hnone.
      * assert (Hk : m_key (fst t) <> key) by (apply Hno; now left).
        apply string_eqb_neq in Hk. now rewrite Hk.
      * intros t' Hin. apply Hno. now right.
    + intros k t0 Hk Hkey Hlater. destruct k as [|k].
      * cbn [nth_error] in Hk. injection Hk as <-.
        rewrite Hnone.
        -- apply string_eqb_eq in Hkey. rewrite Hkey.
           f_equal. lia.
        -- intros t' Hin. apply In_nth_error in Hin as [j Hj].
           apply (Hlater (S j) t'); [lia|exact Hj].
      * cbn [nth_error] in Hk.
        rewrite (Hlast k t0 Hk Hkey).
        -- f_equal. rewrite length_app. cbn [length]. lia.
        -- intros j t' Hj Ht'. apply (Hlater (S j) t'); [lia|exact Ht'].
Qed.

Lemma View_OnChangedBreakpoints_loop_spec accepts (bps : list Breakpoint) :
  forall (todo done : list (SourceViewPage * list Byte.byte))
         (sel : option nat),
    View_OnChangedBreakpoints_loop accepts bps (length todo) (length done)
      (mkView (done ++ todo) sel) =
    mkView
      (done ++
       map (fun t => (OnChangedBreakpoints accepts (fst t) bps, snd t)) todo)
      sel.
Proof.
  induction todo as [|t todo IH]; intros done sel.
  - reflexivity.
  - cbn [length View_OnChangedBreakpoints_loop].
    unfold GetPage at 1. cbn [nb_pages].
    rewrite nth_error_here. cbn [option_map].
    unfold SetPage. cbn [nb_pages nb_selection].
    rewrite update_nth_here.
    replace (done ++ (OnChangedBreakpoints accepts (fst t) bps, snd t) :: todo)
      with ((done ++ [(OnChangedBreakpoints accepts (fst t) bps, snd t)])
              ++ todo)
      by (rewrite <- app_assoc; reflexivity).
    replace (S (length done))
      with (length (done ++ [(OnChangedBreakpoints accepts (fst t) bps,
                              snd t)]))
      by (rewrite length_app; cbn [length]; lia).
    rewrite IH. rewrite <- app_assoc. reflexivity.
Qed.

Lemma OnShowSourceLine_loop_spec (key : list Byte.byte) (line : Z)
    (v : SourceView) :
  forall n i : nat,
    OnShowSourceLine_loop key line n i v =
    match FindPageFromKey_loop v key n i with
    | Some j =>
        match GetPage v j with
        | Some page =>
            SetSelection (SetPage v j (SetLineSelection page line)) j
        | None => v
        end
    | None => v
    end.
Proof.
  induction n as [|n IH]; intros i; [reflexivity|].
  cbn [OnShowSourceLine_loop FindPageFromKey_loop].
  destruct (GetPage v i) as [page|] eqn:E; [|reflexivity].
  destruct (string_eqb (GetKey page) key); [now rewrite E|apply IH].
Qed.

Lemma FindPageFromKey_loop_spec (v : SourceView) (key : list Byte.byte) :
  forall n i : nat,
    (i + n <= GetPageCount v)%nat ->
    match FindPageFromKey_loop v key n i with
    | Some j =>
        (i <= j < i + n)%nat /\
        (exists page, GetPage v j = Some page /\ m_key page = key) /\
        (forall k page, (i <= k < j)%nat -> GetPage v k = Some page ->
                        m_key page <> key)
    | None =>
        forall k page, (i <= k < i + n)%nat -> GetPage v k = Some page ->
                       m_key page <> key
    end.
Proof.
  induction n as [|n IH]; intros i Hn.
  - cbn [FindPageFromKey_loop]. intros k page Hk. lia.
  - cbn [FindPageFromKey_loop].
    destruct (GetPage v i) as [page|] eqn:E.
    + destruct (string_eqb (GetKey page) key) eqn:Ek.
      * apply string_eqb_eq in Ek. split; [lia|split].
        -- now exists page.
        -- intros k page' Hk. lia.
      * apply string_eqb_neq in Ek.
        specialize (IH (S i)). 
        destruct (FindPageFromKey_loop v key n (S i)) as [j|].
        -- destruct IH as [Hj [Hpage Hbefore]]; [lia|].
           split; [lia|split; [exact Hpage|]].
           intros k page' Hk Hgk.
           destruct (Nat.eq_dec k i) as [->|Hne].
           ++ rewrite E in Hgk. injection Hgk as <-. exact Ek.
           ++ apply (Hbefore k page'); [lia|exact Hgk].
        -- intros k page' Hk Hgk.
           destruct (Nat.eq_dec k i) as [->|Hne].
           ++ rewrite E in Hgk. injection Hgk as <-. exact Ek.
           ++ apply (IH ltac:(lia) k page'); [lia|exact Hgk].
    + exfalso. unfold GetPage in E.
      destruct (nth_error (nb_pages v) i) eqn:E'; [discriminate|].
      apply nth_error_None in E'. unfold GetPageCount in Hn. lia.
Qed.

Lemma ChangeModified_tab (p : SourceViewPage) (text : list Byte.byte)
    (i : nat) (modified : bool) :
  tab_invariant (p, text) ->
  let r := ChangeModified p (Some i) modified in
  tab_invariant
    (fst r, match snd r with Some (_, t) => t | None => text end) /\
  m_wasTitleChanged (fst r) = modified /\
  (forall j t, snd r = Some (j, t) -> j = i).
Proof.
  intros [Hm [Ht Hi]]. cbn [fst snd] in *.
  unfold ChangeModified. rewrite Hi. cbn [negb orb].
  destruct (Bool.eqb modified (m_wasTitleChanged p)) eqn:E; cbn [fst snd].
  - apply Bool.eqb_prop in E.
    split; [exact (conj Hm (conj Ht Hi))|].
    split; [congruence|]. intros j t H. discriminate.
  - split; [|split; [reflexivity|intros j t H; now injection H]].
    split; [|split].
    + now apply (markers_invariant_same p).
    + unfold tab_shows_title. cbn [fst snd]. now destruct modified.
    + exact Hi.
Qed.

Lemma page_event_tab accepts (i : nat) (ev : PageEvent)
    (p : SourceViewPage) (text : list Byte.byte) :
  tab_invariant (p, text) ->
  let r := page_event accepts (Some i) ev p in
  tab_invariant
    (fst r, match snd r with Some (_, t) => t | None => text end) /\
  (forall j t, snd r = Some (j, t) -> j = i).
Proof.
  intros Hinv.
  assert (Hsame : forall q : SourceViewPage,
             markers_invariant q ->
             m_initialized q = m_initialized p ->
             m_wasTitleChanged q = m_wasTitleChanged p ->
             m_title q = m_title p ->
             tab_invariant (q, text) /\
             (forall (j : nat) (t : list Byte.byte),
                 @None (nat * list Byte.byte) = Some (j, t) -> j = i)).
  { intros q Hq H1 H2 H3. destruct Hinv as [_ [Ht Hi]].
    unfold tab_invariant, tab_shows_title in *. cbn [fst snd] in *.
    rewrite H1, H2, H3.
    split; [exact (conj Hq (conj Ht Hi))|intros j t H; discriminate]. }
  assert (Hchange : forall modified,
             tab_invariant
               (fst (ChangeModified p (Some i) modified),
                match snd (ChangeModified p (Some i) modified) with
                | Some (_, t) => t
                | None => text
                end) /\
             (forall j t,
                 snd (ChangeModified p (Some i) modified) = Some (j, t) ->
                 j = i)).
  { intros modified.
    destruct (ChangeModified_tab p text i modified Hinv) as [H1 [_ H2]].
    split; assumption. }
  assert (Hkeep : tab_invariant (p, text) /\
                  (forall (j : nat) (t : list Byte.byte),
                      @None (nat * list Byte.byte) = Some (j, t) -> j = i))
    by (split; [exact Hinv|discriminate]).
  pose proof (proj1 Hinv) as Hm. cbn [fst] in Hm.
  destruct ev as [line r|line|bps|b|lines|t|c k lines];
    cbn [page_event]; cbv zeta; cbn [fst snd].
  - destruct (SetCurrentLine_fields accepts p line r) as [H1 [H2 [_ [H3 _]]]].
    apply Hsame; auto using SetCurrentLine_markers_invariant.
  - unfold SetLineSelection. destruct (line <=? 0); [exact Hkeep|].
    now apply Hsame.
  - destruct (OnChangedBreakpoints_keeps accepts p bps)
      as [_ [_ [H1 [H2 [_ [H3 _]]]]]].
    apply Hsame; auto.
    exact (page_event_markers_invariant accepts (Some i)
             (P_OnChangedBreakpoints bps) p Hm).
  - unfold ChangeEnable. destruct b; cbn [negb]; [exact Hkeep|].
    destruct (SetCurrentLine_fields accepts p (-1) true)
      as [H1 [H2 [_ [H3 _]]]].
    apply Hsame; auto using SetCurrentLine_markers_invariant.
  - unfold SaveSource. destruct (m_path p); [exact Hkeep|apply Hchange].
  - unfold OnModified.
    destruct (negb (Z.land t (Z.lor wxSCI_MOD_INSERTTEXT
                                wxSCI_MOD_DELETETEXT) =? 0));
      [apply Hchange|exact Hkeep].
  - unfold OnKeyDown, SaveSource.
    destruct (c && (k =? 83)); [|exact Hkeep].
    destruct (m_path p); [exact Hkeep|apply Hchange].
Qed.

Lemma nth_error_update_nth {A} (f : A -> A) (l : list A) :
  forall i : nat,
    nth_error (update_nth i f l) i = option_map f (nth_error l i).
Proof.
  induction l as [|x l IH]; intros i; [now destruct i|].
  destruct i; cbn [update_nth nth_error]; [reflexivity|apply IH].
Qed.

Lemma on_page_pages accepts (v : SourceView) (i : nat) (ev : PageEvent)
    (page : SourceViewPage) :
  GetPage v i = Some page ->
  on_page accepts v i ev =
  mkView
    (update_nth i
       (fun t =>
          (fst (page_event accepts (Some i) ev page),
           match snd (page_event accepts (Some i) ev page) with
           | Some (_, t') => t'
           | None => snd t
           end)) (nb_pages v))
    (nb_selection v).
Proof.
  intros Hg. unfold on_page. rewrite Hg.
  destruct (page_event accepts (Some i) ev page) as [page1 text] eqn:E.
  cbn [fst snd].
  assert (Hi : forall j t, text = Some (j, t) -> j = i).
  { destruct ev as [line r|line|bps|b|lines|t|c k lines];
      cbn [page_event] in E;
      try (injection E as _ <-; discriminate);
      unfold OnKeyDown, OnModified, SaveSource, ChangeModified in E;
      repeat match type of E with
             | context [if ?c then _ else _] => destruct c
             | context [match m_path ?p with _ => _ end] =>
                 destruct (m_path p)
             end;
      injection E as _ <-; intros j t' H; try discriminate;
      now injection H. }
  destruct text as [[j t]|].
  - rewrite (Hi j t eq_refl). unfold SetPageText, SetPage.
    cbn [nb_pages nb_selection]. now rewrite update_nth_twice.
  - reflexivity.
Qed.

Lemma CreatePage_spec accepts (v : SourceView) (source : Source)
    (bps : list Breakpoint) :
  let page := fst (Initialize accepts SourceViewPage_new None source bps) in
  CreatePage accepts v source bps =
  mkView (nb_pages v ++ [(page, Source_GetTitle source)])
    (Some (length (nb_pages v))).
Proof.
  cbv zeta. unfold CreatePage, AddPage, SetSelection, GetPageCount, GetTitle.
  cbn [nb_pages nb_selection].
  destruct (Initialize_new accepts None source bps)
    as [_ [_ [_ [_ [Ht _]]]]].
  rewrite Ht, length_app. cbn [length].
  assert (H : (length (nb_pages v) <? length (nb_pages v) + 1)%nat = true)
    by (apply Nat.ltb_lt; lia).
  now rewrite H.
Qed.

Lemma new_tab_invariant accepts (source : Source) (bps : list Breakpoint) :
  tab_invariant
    (fst (Initialize accepts SourceViewPage_new None source bps),
     Source_GetTitle source).
Proof.
  destruct (Initialize_new accepts None source bps)
    as [_ [Hi [Hw [_ [Ht [_ [_ [_ [Hr [Hb _]]]]]]]]]].
  unfold tab_invariant, tab_shows_title, markers_invariant, at_most_on.
  cbn [fst snd]. rewrite Hi, Hw, Ht, Hr, Hb. auto.
Qed.

Lemma view_event_tab_invariant accepts (ev : ViewEvent) (v : SourceView) :
  Forall tab_invariant (nb_pages v) ->
  Forall tab_invariant (nb_pages (view_event accepts ev v)).
Proof.
  intros Hinv.
  assert (Hnth : forall i page text,
             nth_error (nb_pages v) i = Some (page, text) ->
             tab_invariant (page, text)).
  { intros i page text H. apply nth_error_In in H.
    rewrite Forall_forall in Hinv. now apply Hinv. }
  destruct ev as [b|key line|source bps|bps|key line|i ev];
    cbn [view_event].
  - unfold OnChangedState, GetSelection.
    destruct (nb_selection v) as [sel|]; [|exact Hinv].
    destruct (GetPage v sel) as [page|] eqn:E; [|exact Hinv].
    apply GetPage_tab in E as [text E].
    unfold SetPage. cbn [nb_pages].
    apply Forall_update_nth; [exact Hinv|].
    intros x Hx. rewrite E in Hx. injection Hx as <-. cbn [snd].
    exact (proj1 (page_event_tab accepts sel (P_ChangeEnable b) page text
                    (Hnth _ _ _ E))).
  - unfold OnUpdateSource, GetPageCount.
    destruct (OnUpdateSource_loop_spec accepts key line (nb_pages v) []
                (nb_selection v)) as [Hp _].
    cbn [length app] in Hp. destruct v as [pages sel].
    cbn [nb_pages nb_selection] in *. rewrite Hp.
    apply Forall_map. eapply Forall_impl; [|exact Hinv].
    intros [page text] Ht. cbn [fst snd].
    exact (proj1 (page_event_tab accepts 0%nat (P_SetCurrentLine _ true)
                    page text Ht)).
  - unfold OnAddedSource. rewrite CreatePage_spec. cbn [nb_pages].
    apply Forall_app. split; [exact Hinv|].
    constructor; [apply new_tab_invariant|constructor].
  - unfold View_OnChangedBreakpoints, GetPageCount.
    pose proof (View_OnChangedBreakpoints_loop_spec accepts bps (nb_pages v)
                  [] (nb_selection v)) as Hp.
    cbn [length app] in Hp. destruct v as [pages sel].
    cbn [nb_pages nb_selection] in *. rewrite Hp. cbn [nb_pages].
    apply Forall_map. eapply Forall_impl; [|exact Hinv].
    intros [page text] Ht. cbn [fst snd].
    exact (proj1 (page_event_tab accepts 0%nat (P_OnChangedBreakpoints bps)
                    page text Ht)).
  - unfold OnShowSourceLine. rewrite OnShowSourceLine_loop_spec.
    destruct (FindPageFromKey_loop v key (GetPageCount v) 0) as [j|];
      [|exact Hinv].
    destruct (GetPage v j) as [page|] eqn:E; [|exact Hinv].
    apply GetPage_tab in E as [text E].
    rewrite nb_pages_SetSelection. unfold SetPage. cbn [nb_pages].
    apply Forall_update_nth; [exact Hinv|].
    intros x Hx. rewrite E in Hx. injection Hx as <-. cbn [snd].
    exact (proj1 (page_event_tab accepts j (P_SetLineSelection line) page
                    text (Hnth _ _ _ E))).
  - destruct (GetPage v i) as [page|] eqn:E.
    + rewrite (on_page_pages accepts v i ev page E). cbn [nb_pages].
      apply GetPage_tab in E as [text E].
      apply Forall_update_nth; [exact Hinv|].
      intros x Hx. rewrite E in Hx. injection Hx as <-. cbn [snd].
      exact (proj1 (page_event_tab accepts i ev page text (Hnth _ _ _ E))).
    + unfold on_page. rewrite E. exact Hinv.
Qed.

Lemma view_events_tab_invariant accepts (evs : list ViewEvent) :
  forall v : SourceView,
    Forall tab_invariant (nb_pages v) ->
    Forall tab_invariant (nb_pages (view_events accepts evs v)).
Proof.
  unfold view_events.
  induction evs as [|ev evs IH]; intros v Hinv; cbn [fold_left].
  - exact Hinv.
  - apply IH. now apply view_event_tab_invariant.
Qed.

Lemma CreateGUIControls_spec accepts (bps : list Breakpoint)
    (sources : list Source) :
  forall v : SourceView,
    CreateGUIControls accepts v sources bps =
    mkView
      (nb_pages v ++
       map (fun source =>
              (fst (Initialize accepts SourceViewPage_new None source bps),
               Source_GetTitle source)) sources)
      (match sources with
       | [] => nb_selection v
       | _ :: _ => Some (length (nb_pages v) + length sources - 1)%nat
       end).
Proof.
  unfold CreateGUIControls.
  induction sources as [|source sources IH]; intros v; cbn [fold_left map].
  - rewrite app_nil_r. now destruct v.
  - rewrite IH, CreatePage_spec. cbn [nb_pages nb_selection].
    rewrite <- app_assoc. cbn [app]. f_equal.
    rewrite length_app. cbn [length].
    destruct sources; f_equal; cbn [length]; lia.
Qed.

Lemma SourceView_new_tab_invariant accepts (sources : list Source)
    (bps : list Breakpoint) :
  Forall tab_invariant (nb_pages (SourceView_new accepts sources bps)).
Proof.
  unfold SourceView_new. rewrite CreateGUIControls_spec.
  cbn [nb_pages app]. apply Forall_map, Forall_forall.
  intros source _. apply new_tab_invariant.
Qed.

Lemma GetPage_lt (v : SourceView) (i : nat) (page : SourceViewPage) :
  GetPage v i = Some page -> (i < GetPageCount v)%nat.
Proof.
  intros Hg. apply GetPage_tab in Hg as [text Hg].
  unfold GetPageCount. apply nth_error_Some. rewrite Hg. discriminate.
Qed.

Lemma OnUpdateSource_map accepts (v : SourceView) (key : list Byte.byte)
    (line : Z) :
  nb_pages (OnUpdateSource accepts v key line) =
  map (fun t =>
         (SetCurrentLine accepts (fst t)
            (if string_eqb (m_key (fst t)) key then line else -1) true,
          snd t)) (nb_pages v).
Proof.
  unfold OnUpdateSource, GetPageCount.
  destruct (OnUpdateSource_loop_spec accepts key line (nb_pages v) []
              (nb_selection v)) as [Hp _].
  cbn [length app] in Hp. destruct v as [pages sel]. exact Hp.
Qed.

Lemma fold_MarkerAdd_marked accepts (n : Z) (lines : list Breakpoint) :
  forall p : SourceViewPage,
    let p' :=
      fold_left
        (fun p bp => MarkerAdd accepts p (Breakpoint_GetLine bp) n)
        lines p in
    (forall line, In line (marked n p') ->
                  In line (marked n p) \/
                  In line (map Breakpoint_GetLine lines)) /\
    ((forall q line, accepts q line = true) ->
     marked n p' = marked n p ++ map Breakpoint_GetLine lines).
Proof.
  induction lines as [|bp lines IH]; intros p; cbn [fold_left map].
  - split; [auto|]. intros _. now rewrite app_nil_r.
  - specialize (IH (MarkerAdd accepts p (Breakpoint_GetLine bp) n)).
    cbv zeta in IH. destruct IH as [Hin Hall]. split.
    + intros line Hl. destruct (Hin line Hl) as [H|H].
      * destruct (marked_MarkerAdd accepts p (Breakpoint_GetLine bp) n n)
          as [E|[_ E]]; rewrite E in H.
        -- now left.
        -- apply in_app_or in H as [H|[H|[]]]; [now left|].
           right. now left.
      * right. now right.
    + intros Hacc. rewrite (Hall Hacc).
      rewrite marked_MarkerAdd_accepted by apply Hacc.
      now rewrite <- app_assoc.
Qed.

(** X16. [Initialize] ends every line of the source with a line break,
    the last one too (the test that should spare the last line compares
    the index with the line count inside the loop, where it always
    holds).  A new page passes that text, up to its first NUL, to the
    widget in one call of [AddTextRaw], takes key, title and path from
    the source, is read-only exactly if the source has no path, counts
    as initialized and not modified, and asks for no change of a tab
    text. *)
Theorem Initialize_text_ends_every_line
    (accepts_marker : SourceViewPage -> Z -> bool) (sel : option nat)
    (source : Source) (bps : list Breakpoint) :
  let r := Initialize accepts_marker SourceViewPage_new sel source bps in
  Initialize_text source =
    concat (map (fun l => l ++ [Byte.x0a]) (Source_lines source)) /\
  sci_calls (fst r) = [Call_AddTextRaw (c_str (Initialize_text source))] /\
  m_key (fst r) = Source_GetKey source /\
  m_title (fst r) = Source_GetTitle source /\
  m_path (fst r) = Source_GetPath source /\
  sci_read_only (fst r) =
    (match Source_GetPath source with [] => true | _ :: _ => false end) /\
  m_initialized (fst r) = true /\
  m_wasTitleChanged (fst r) = false /\
  snd r = None.
Proof.
  intros r.
  destruct (Initialize_new accepts_marker sel source bps)
    as [H1 [H2 [H3 [H4 [H5 [H6 [_ [_ [_ [_ [H7 H8]]]]]]]]]]].
  fold r in H1, H2, H3, H4, H5, H6, H7, H8.
  split; [apply Initialize_text_concat|].
  split; [exact H8|]. split; [exact H4|]. split; [exact H5|].
  split; [exact H6|]. split; [exact H7|]. split; [exact H2|].
  split; [exact H3|exact H1].
Qed.

(** X17. From its creation on, whatever is called on a page and
    whatever its widget reports, the page shows at most one running
    marker, and that on line [m_currentLine], and at most one backtrace
    marker, and that on line [m_markedLine]. *)
Theorem markers_stay_single
    (accepts_marker : SourceViewPage -> Z -> bool) (sel : option nat)
    (source : Source) (bps : list Breakpoint) (evs : list PageEvent) :
  markers_invariant
    (page_events accepts_marker sel evs
       (fst (Initialize accepts_marker SourceViewPage_new None source bps))).
Proof.
  apply page_events_markers_invariant.
  destruct (Initialize_new accepts_marker None source bps)
    as [_ [_ [_ [_ [_ [_ [_ [_ [Hr [Hb _]]]]]]]]]].
  split; left; assumption.
Qed.

(** X18. On a page whose markers are as [markers_invariant] says,
    [SetCurrentLine(line, true)] takes the running marker and every
    backtrace marker away, leaves the breakpoint markers, and for
    [line > 0] puts the running marker on line [line - 1] if the widget
    accepts it there, remembering [line - 1]; for [line <= 0] it
    remembers [line] itself.  [SetCurrentLine(line, false)] does the
    same with the backtrace marker and leaves the running marker and
    [m_currentLine] alone. *)
Theorem SetCurrentLine_moves_marker
    (accepts_marker : SourceViewPage -> Z -> bool)
    (p : SourceViewPage) (line : Z) :
  markers_invariant p ->
  let r := SetCurrentLine accepts_marker p line true in
  let b := SetCurrentLine accepts_marker p line false in
  (m_currentLine r = (if 0 <? line then line - 1 else line) /\
   (marked MARKNUM_RUNNING r = [] \/
    (0 < line /\ marked MARKNUM_RUNNING r = [line - 1])) /\
   marked MARKNUM_BACKTRACE r = [] /\
   marked MARKNUM_BREAKPOINT r = marked MARKNUM_BREAKPOINT p) /\
  (m_markedLine b = (if 0 <? line then line - 1 else line) /\
   (marked MARKNUM_BACKTRACE b = [] \/
    (0 < line /\ marked MARKNUM_BACKTRACE b = [line - 1])) /\
   m_currentLine b = m_currentLine p /\
   marked MARKNUM_RUNNING b = marked MARKNUM_RUNNING p /\
   marked MARKNUM_BREAKPOINT b = marked MARKNUM_BREAKPOINT p) /\
  (0 < line -> (forall q, accepts_marker q (line - 1) = true) ->
   marked MARKNUM_RUNNING r = [line - 1] /\
   marked MARKNUM_BACKTRACE b = [line - 1]).
Proof.
  intros Hinv r b.
  destruct (SetCurrentLine_running accepts_marker p line Hinv)
    as [R1 [_ [R2 [R3 [R4 R5]]]]].
  destruct (SetCurrentLine_backtrace accepts_marker p line Hinv)
    as [B1 [B2 [B3 [B4 [B5 B6]]]]].
  split; [|split].
  - split; [exact R1|]. split; [exact R2|]. split; [exact R3|exact R4].
  - split; [exact B2|]. split; [exact B4|]. split; [exact B1|].
    split; [exact B3|exact B5].
  - intros Hl Hacc. split; [now apply R5|now apply B6].
Qed.

Lemma SetCurrentLine_moves_marker_witness :
  let p := SetCurrentLine hundred_lines
             (fst (Initialize hundred_lines SourceViewPage_new None
                     src_main [])) 3 true in
  markers_invariant p /\
  marked MARKNUM_RUNNING p = [2] /\
  marked MARKNUM_RUNNING (SetCurrentLine hundred_lines p 1 true) = [0] /\
  marked MARKNUM_BACKTRACE (SetCurrentLine hundred_lines p 1 false) = [0].
Proof.
  intros p.
  assert (Hinv : markers_invariant p).
  { split; [right; split; [vm_compute; discriminate|reflexivity]
           |left; reflexivity]. }
  split; [exact Hinv|]. split; [reflexivity|].
  destruct (SetCurrentLine_moves_marker hundred_lines p 1 Hinv)
    as [_ [_ H]].
  apply H; [lia|reflexivity].
Defined.

(** X19. [OnUpdateSource] calls [SetCurrentLine] on every page, with
    the line of the event on the pages of the event's key and with -1
    on the others; it adds, removes and reorders no page and changes no
    tab text.  The selection ends on the last page of that key, and
    stays where it was if there is none. *)
Theorem OnUpdateSource_pages
    (accepts_marker : SourceViewPage -> Z -> bool)
    (v : SourceView) (key : list Byte.byte) (line : Z) :
  let v' := OnUpdateSource accepts_marker v key line in
  nb_pages v' =
    map (fun t =>
           (SetCurrentLine accepts_marker (fst t)
              (if string_eqb (m_key (fst t)) key then line else -1) true,
            snd t)) (nb_pages v) /\
  ((forall t, In t (nb_pages v) -> m_key (fst t) <> key) ->
   nb_selection v' = nb_selection v) /\
  (forall i page,
      GetPage v i = Some page -> m_key page = key ->
      (forall j page', (i < j)%nat -> GetPage v j = Some page' ->
                       m_key page' <> key) ->
      nb_selection v' = Some i).
Proof.
  cbv zeta. unfold OnUpdateSource, GetPageCount.
  destruct (OnUpdateSource_loop_spec accepts_marker key line (nb_pages v) []
              (nb_selection v)) as [Hp [Hnone Hlast]].
  cbn [length app] in Hp, Hnone, Hlast.
  destruct v as [pages sel]. cbn [nb_pages nb_selection] in *.
  split; [exact Hp|]. split; [exact Hnone|].
  intros i page Hi Hkey Hlater.
  apply GetPage_tab in Hi as [text Hi]. cbn [nb_pages] in Hi.
  rewrite (Hlast i (page, text) Hi Hkey); [reflexivity|].
  intros j [page' text'] Hj Ht. cbn [fst].
  apply (Hlater j page' Hj).
  unfold GetPage. cbn [nb_pages]. now rewrite Ht.
Qed.

(** X20. In a notebook made by [CreateGUIControls] and after any events,
    once [OnUpdateSource] has run no page of another key than the
    event's shows a running or a backtrace marker, and such a page
    remembers no current line; the pages of the event's key show the
    running marker on the line before the event's line or not at
    all. *)
Theorem running_marker_follows_update
    (accepts_marker : SourceViewPage -> Z -> bool)
    (sources : list Source) (bps : list Breakpoint) (evs : list ViewEvent)
    (key : list Byte.byte) (line : Z) :
  let v := view_events accepts_marker evs
             (SourceView_new accepts_marker sources bps) in
  let v' := OnUpdateSource accepts_marker v key line in
  GetPageCount v' = GetPageCount v /\
  forall page text,
    In (page, text) (nb_pages v') ->
    marked MARKNUM_BACKTRACE page = [] /\
    (m_key page <> key ->
     marked MARKNUM_RUNNING page = [] /\ m_currentLine page = -1) /\
    (m_key page = key ->
     marked MARKNUM_RUNNING page = [] \/
     (0 < line /\ marked MARKNUM_RUNNING page = [line - 1])).
Proof.
  intros v v'.
  assert (Hinv : Forall tab_invariant (nb_pages v)).
  { apply view_events_tab_invariant, SourceView_new_tab_invariant. }
  pose proof (OnUpdateSource_map accepts_marker v key line) as Hp.
  fold v' in Hp. unfold GetPageCount. rewrite Hp.
  split; [apply length_map|].
  intros page text Hin. apply in_map_iff in Hin as [[p0 t0] [Heq Hin]].
  cbn [fst snd] in Heq. injection Heq as Hpage Htext.
  rewrite Forall_forall in Hinv. destruct (Hinv _ Hin) as [Hm _].
  cbn [fst] in Hm.
  set (l := if string_eqb (m_key p0) key then line else -1) in Hpage.
  destruct (SetCurrentLine_running accepts_marker p0 l Hm)
    as [R1 [_ [R2 [R3 _]]]].
  destruct (SetCurrentLine_fields accepts_marker p0 l true)
    as [_ [_ [Hk _]]].
  rewrite Hpage in R1, R2, R3, Hk.
  split; [exact R3|]. split.
  - intros Hne. rewrite Hk in Hne. apply string_eqb_neq in Hne.
    subst l. rewrite Hne in R1, R2. cbn in R1.
    split; [|exact R1].
    destruct R2 as [R2|[R2 _]]; [exact R2|lia].
  - intros He. rewrite Hk in He. apply string_eqb_eq in He.
    subst l. rewrite He in R2. exact R2.
Qed.

(** X21. [FindPageFromKey] returns the index of the first page with the
    key, and [wxNOT_FOUND] exactly when no page has it. *)
Theorem FindPageFromKey_first (v : SourceView) (key : list Byte.byte) :
  match FindPageFromKey v key with
  | Some i =>
      (exists page, GetPage v i = Some page /\ m_key page = key) /\
      (forall j page, (j < i)%nat -> GetPage v j = Some page ->
                      m_key page <> key)
  | None =>
      forall j page, GetPage v j = Some page -> m_key page <> key
  end.
Proof.
  unfold FindPageFromKey.
  pose proof (FindPageFromKey_loop_spec v key (GetPageCount v) 0
                (Nat.le_refl _)) as H.
  destruct (FindPageFromKey_loop v key (GetPageCount v) 0) as [i|].
  - destruct H as [_ [Hpage Hbefore]]. split; [exact Hpage|].
    intros j page Hj. apply Hbefore. lia.
  - intros j page Hg. apply (H j page); [|exact Hg].
    apply GetPage_lt in Hg. lia.
Qed.

(** X22. [OnShowSourceLine] touches the first page of the key only: it
    selects the line on that page and makes it the selected page; a key
    that no page has leaves the notebook as it is. *)
Theorem OnShowSourceLine_first (v : SourceView) (key : list Byte.byte)
    (line : Z) :
  ((forall j page, GetPage v j = Some page -> m_key page <> key) ->
   OnShowSourceLine v key line = v) /\
  (forall i page,
      GetPage v i = Some page -> m_key page = key ->
      (forall j page', (j < i)%nat -> GetPage v j = Some page' ->
                       m_key page' <> key) ->
      OnShowSourceLine v key line =
      mkView
        (update_nth i (fun t => (SetLineSelection page line, snd t))
           (nb_pages v))
        (Some i)).
Proof.
  unfold OnShowSourceLine. rewrite OnShowSourceLine_loop_spec.
  pose proof (FindPageFromKey_loop_spec v key (GetPageCount v) 0
                (Nat.le_refl _)) as H.
  destruct (FindPageFromKey_loop v key (GetPageCount v) 0) as [k|].
  - destruct H as [_ [[pk [Hk Hkey]] Hbefore]]. split.
    + intros Hno. exfalso. exact (Hno k pk Hk Hkey).
    + intros i page Hi Hikey Hfirst.
      assert (k = i).
      { destruct (Nat.lt_trichotomy k i) as [Hlt|[Heq|Hgt]];
          [|exact Heq|].
        - exfalso. exact (Hfirst k pk Hlt Hk Hkey).
        - exfalso. apply (Hbefore i page); [lia|exact Hi|exact Hikey]. }
      subst k. rewrite Hi.
      unfold SetSelection, SetPage, GetPageCount. cbn [nb_pages nb_selection].
      rewrite length_update_nth.
      apply GetPage_tab in Hi as [text Hi].
      assert (Hlt : (i <? length (nb_pages v))%nat = true).
      { apply Nat.ltb_lt, nth_error_Some. rewrite Hi. discriminate. }
      now rewrite Hlt.
  - split; [reflexivity|].
    intros i page Hi Hikey _. exfalso.
    apply (H i page); [|exact Hi|exact Hikey].
    apply GetPage_lt in Hi. lia.
Qed.

(** X23. In a notebook made by [CreateGUIControls] and after any events,
    every tab shows the title of its page, followed by a star exactly
    while the page counts as modified.  A report of inserted or deleted
    text puts the star on the tab of that page, and saving a page that
    has a path takes it off. *)
Theorem tabs_show_title
    (accepts_marker : SourceViewPage -> Z -> bool)
    (sources : list Source) (bps : list Breakpoint) (evs : list ViewEvent) :
  let v := view_events accepts_marker evs
             (SourceView_new accepts_marker sources bps) in
  Forall tab_shows_title (nb_pages v) /\
  forall i page,
    GetPage v i = Some page ->
    (forall modificationType,
        Z.land modificationType
          (Z.lor wxSCI_MOD_INSERTTEXT wxSCI_MOD_DELETETEXT) <> 0 ->
        exists page',
          nth_error
            (nb_pages (on_page accepts_marker v i
                         (P_OnModified modificationType))) i =
          Some (page', m_title page ++ [Byte.x2a]) /\
          m_wasTitleChanged page' = true) /\
    (forall lines,
        m_path page <> [] ->
        exists page',
          nth_error
            (nb_pages (on_page accepts_marker v i (P_SaveSource lines))) i =
          Some (page', m_title page) /\
          m_wasTitleChanged page' = false).
Proof.
  intros v.
  assert (Hinv : Forall tab_invariant (nb_pages v)).
  { apply view_events_tab_invariant, SourceView_new_tab_invariant. }
  split.
  { eapply Forall_impl; [|exact Hinv]. intros t Ht. exact (proj1 (proj2 Ht)). }
  intros i page Hg.
  destruct (GetPage_tab v i page Hg) as [text Ht].
  assert (Htab : tab_invariant (page, text)).
  { rewrite Forall_forall in Hinv. apply Hinv.
    now apply nth_error_In with i. }
  assert (Hchange : forall ev modified,
             page_event accepts_marker (Some i) ev page =
             ChangeModified page (Some i) modified ->
             exists page',
               nth_error (nb_pages (on_page accepts_marker v i ev)) i =
               Some (page',
                     if modified then m_title page ++ [Byte.x2a]
                     else m_title page) /\
               m_wasTitleChanged page' = modified).
  { intros ev modified Hev.
    rewrite (on_page_pages accepts_marker v i ev page Hg). cbn [nb_pages].
    rewrite nth_error_update_nth, Ht. cbn [option_map snd].
    rewrite Hev.
    destruct (ChangeModified_tab page text i modified Htab)
      as [[_ [Hshow _]] [Hw _]].
    destruct (ChangeModified_keeps page (Some i) modified)
      as [_ [_ [_ [Htitle _]]]].
    exists (fst (ChangeModified page (Some i) modified)).
    split; [|exact Hw].
    unfold tab_shows_title in Hshow. cbn [fst snd] in Hshow.
    rewrite Hshow, Hw, Htitle. reflexivity. }
  split.
  - intros t Hmask. apply (Hchange (P_OnModified t) true).
    cbn [page_event]. unfold OnModified.
    apply Z.eqb_neq in Hmask. now rewrite Hmask.
  - intros lines Hpath. apply (Hchange (P_SaveSource lines) false).
    cbn [page_event]. unfold SaveSource.
    destruct (m_path page); [contradiction|reflexivity].
Qed.

(** X24. [CreateGUIControls] gives every source a page of its own, in
    the order of the sources, with the key of the source and its title
    on the tab, and leaves the last one selected; [FindPageFromKey]
    then finds a page for the key of every source. *)
Theorem CreateGUIControls_pages
    (accepts_marker : SourceViewPage -> Z -> bool)
    (sources : list Source) (bps : list Breakpoint) :
  let v := SourceView_new accepts_marker sources bps in
  map (fun t => m_key (fst t)) (nb_pages v) = map Source_GetKey sources /\
  map snd (nb_pages v) = map Source_GetTitle sources /\
  nb_selection v =
    (match sources with
     | [] => None
     | _ :: _ => Some (length sources - 1)%nat
     end) /\
  forall source,
    In source sources ->
    exists i page,
      FindPageFromKey v (Source_GetKey source) = Some i /\
      GetPage v i = Some page /\
      m_key page = Source_GetKey source.
Proof.
  intros v. subst v. unfold SourceView_new.
  rewrite CreateGUIControls_spec. cbn [nb_pages nb_selection app length].
  set (tab := fun source =>
                (fst (Initialize accepts_marker SourceViewPage_new None
                        source bps), Source_GetTitle source)).
  assert (Hkey : forall source, m_key (fst (tab source)) =
                                Source_GetKey source).
  { intros source. unfold tab. cbn [fst].
    now destruct (Initialize_new accepts_marker None source bps)
      as [_ [_ [_ [Hk _]]]]. }
  split; [|split; [|split]].
  - rewrite map_map. apply map_ext. exact Hkey.
  - rewrite map_map. reflexivity.
  - destruct sources; [reflexivity|]. f_equal.
  - intros source Hin.
    set (v := mkView (map tab sources) _).
    pose proof (FindPageFromKey_loop_spec v (Source_GetKey source)
                  (GetPageCount v) 0 (Nat.le_refl _)) as H.
    unfold FindPageFromKey.
    destruct (FindPageFromKey_loop v (Source_GetKey source)
                (GetPageCount v) 0) as [i|].
    + destruct H as [_ [[page [Hg Hk]] _]]. now exists i, page.
    + exfalso. apply In_nth_error in Hin as [j Hj].
      assert (Hg : GetPage v j = Some (fst (tab source))).
      { unfold GetPage, v. cbn [nb_pages].
        rewrite nth_error_map, Hj. reflexivity. }
      apply (H j (fst (tab source))); [|exact Hg|apply Hkey].
      apply GetPage_lt in Hg. lia.
Qed.

(** X25. After [OnChangedBreakpoints] a page shows breakpoint markers
    only on lines of breakpoints of its own key, whatever it showed
    before; if the widget accepts every marker, the markers are the
    lines of those breakpoints, in their order.  The running and the
    backtrace marker are left alone. *)
Theorem OnChangedBreakpoints_markers
    (accepts_marker : SourceViewPage -> Z -> bool)
    (p : SourceViewPage) (bps : list Breakpoint) :
  let p' := OnChangedBreakpoints accepts_marker p bps in
  (forall line,
      In line (marked MARKNUM_BREAKPOINT p') ->
      exists bp, In bp bps /\ Breakpoint_GetKey bp = m_key p /\
                 Breakpoint_GetLine bp = line) /\
  ((forall q line, accepts_marker q line = true) ->
   marked MARKNUM_BREAKPOINT p' =
   map Breakpoint_GetLine (breakpoints_of (m_key p) bps)) /\
  marked MARKNUM_RUNNING p' = marked MARKNUM_RUNNING p /\
  marked MARKNUM_BACKTRACE p' = marked MARKNUM_BACKTRACE p.
Proof.
  intros p'.
  destruct (OnChangedBreakpoints_keeps accepts_marker p bps)
    as [Hr [Hb _]].
  fold p' in Hr, Hb.
  destruct (fold_MarkerAdd_marked accepts_marker MARKNUM_BREAKPOINT
              (breakpoints_of (GetKey p) bps)
              (MarkerDeleteAll p MARKNUM_BREAKPOINT)) as [Hin Hall].
  rewrite marked_MarkerDeleteAll_same in Hin, Hall.
  split; [|split; [|split; [exact Hr|exact Hb]]].
  - intros line Hl. destruct (Hin line Hl) as [[]|H].
    apply in_map_iff in H as [bp [Hline Hbp]].
    apply filter_In in Hbp as [Hbp Hkey].
    apply string_eqb_eq in Hkey.
    exists bp. split; [exact Hbp|split; [exact Hkey|exact Hline]].
  - intros Hacc. exact (Hall Hacc).
Qed.
